(** * vks::ModelGroup: aggregation of imported assets and draw batching

    A shallow embedding of [ModelGroup.hpp] (class [vks::ModelGroup]) and of
    the vertex layout of [VulkanModel.hpp], with the properties of the
    aggregation and batching engine proved about it.

    Conventions of the embedding.
    - [uint32_t] values are integers of [Z] and every arithmetic operation of
      the source on them is followed by [wrap32].
    - [float] values are IEEE-754 binary32 numbers ([SpecFloat] at precision
      24 and exponent bound 128).
    - A [std::vector] (or an Assimp array together with its count field) is a
      list; [operator[]] out of range, or a null pointer dereference, is
      undefined behaviour in the source and is reported as a fault here.
    - The Vulkan device is external: the calls made to it are recorded in a
      trace of [Event]; draw commands are recorded in the command buffer.
    - Only the non-Android branch of [addModel] is embedded. *)

From Stdlib Require Import String Ascii ZArith List Bool Lia.
From Stdlib Require Import Floats.SpecFloat.
Import ListNotations.
Local Open Scope Z_scope.

(** ** Machine integers *)

Module U32.
Definition modulus : Z := 2 ^ 32.
(** value of a [uint32_t] after an arithmetic operation or a narrowing
    conversion *)
Definition wrap (z : Z) : Z := z mod modulus.
(** conversion [uint32_t -> int32_t] (and [int]) *)
Definition to_int32 (z : Z) : Z :=
  let w := wrap z in if w <? 2 ^ 31 then w else w - modulus.
End U32.

Abbreviation wrap32 := U32.wrap.

(** ** Vectors and faults *)

(** [v[i]] for a [std::vector] and an unsigned index: [None] is the
    out-of-range access. *)
Definition at_ {A : Type} (v : list A) (i : Z) : option A :=
  if i <? 0 then None else nth_error v (Z.to_nat i).

Inductive status : Type :=
| Completed
| OutOfBounds.

Definition bind {A B : Type} (m : option A) (k : A -> option B) : option B :=
  match m with
  | Some a => k a
  | None => None
  end.

Notation "x <- m ;; k" := (bind m (fun x => k))
  (at level 61, m at next level, right associativity).
Notation "' p <- m ;; k" := (bind m (fun x => let p := x in k))
  (at level 61, p pattern, m at next level, right associativity).

(** ** binary32 *)

Module F32.
Definition t : Type := spec_float.
Definition prec : Z := 24.
Definition emax : Z := 128.
Definition of_Z (z : Z) : t := binary_normalize prec emax z 0 false.
Definition opp : t -> t := SFopp.
Definition div : t -> t -> t := SFdiv prec emax.
Definition sub : t -> t -> t := SFsub prec emax.
Definition eqb : t -> t -> bool := SFeqb.
Definition leb : t -> t -> bool := SFleb.
Definition zero : t := S754_zero false.
(** a decimal literal [n/d] of the source, rounded to nearest *)
Definition lit (n d : Z) : t := div (of_Z n) (of_Z d).
Definition is_nan (x : t) : bool :=
  match x with S754_nan => true | _ => false end.
(** [FLT_MAX] *)
Definition FLT_MAX : t := SFmax_float prec emax.
(** [fmax] and [fmin] of <math.h>: a NaN argument is ignored; of two
    arguments that compare equal the first is returned. *)
Definition fmax (x y : t) : t :=
  match SFcompare x y with
  | Some Lt => y
  | Some _ => x
  | None => if is_nan x then y else x
  end.
Definition fmin (x y : t) : t :=
  match SFcompare x y with
  | Some Gt => y
  | Some _ => x
  | None => if is_nan x then y else x
  end.
End F32.

Abbreviation float := F32.t.

(** ** Data of [ModelGroup] *)

Module ModelPart.
Record t : Type := mk {
  vertexBase : Z;
  vertexCount : Z;
  indexBase : Z;
  indexCount : Z;
  materialIdx : Z
}.
End ModelPart.

Module DrawCommand.
Record t : Type := mk {
  modelIndex : Z;
  partIndex : Z
}.
(** the test [modIdx != instances[i].modelIndex || partIdx != ...] *)
Definition differs (modIdx partIdx : Z) (d : t) : bool :=
  negb (modIdx =? modelIndex d) || negb (partIdx =? partIndex d).
End DrawCommand.

Module glm.
Record vec3 : Type := mkvec3 { x : float; y : float; z : float }.
(** [glm::vec3 (s)] *)
Definition splat (s : float) : vec3 := mkvec3 s s s.
(** [a - b] *)
Definition sub (a b : vec3) : vec3 :=
  mkvec3 (F32.sub (x a) (x b)) (F32.sub (y a) (y b)) (F32.sub (z a) (z b)).
End glm.

Module Dimension.
(** [size] has no initialiser: [None] until it is assigned. *)
Record t : Type := mk {
  min : glm.vec3;
  max : glm.vec3;
  size : option glm.vec3
}.
Definition init : t :=
  mk (glm.splat F32.FLT_MAX) (glm.splat (F32.opp F32.FLT_MAX)) None.
End Dimension.

Module Model.
Record t : Type := mk {
  parts : list ModelPart.t;
  dim : Dimension.t
}.
End Model.

(** The arguments of one [vkCmdDrawIndexed]. *)
Record DrawIndexed : Type := mkDraw {
  di_indexCount : Z;
  di_instanceCount : Z;
  di_firstIndex : Z;
  di_vertexOffset : Z;
  di_firstInstance : Z
}.

Definition CommandBuffer : Type := list DrawIndexed.

(** ** [buildCommandBuffer] *)

(** [models[modIdx].parts[partIdx]] *)
Definition partAt (models : list Model.t) (modIdx partIdx : Z)
  : option ModelPart.t :=
  m <- at_ models modIdx ;; at_ (Model.parts m) partIdx.

(** [vkCmdDrawIndexed (cmdBuff, models[modIdx].parts[partIdx].indexCount,
    instCount, ...indexBase, ...vertexBase, instOffset)]; the fifth argument
    of the Vulkan call is an [int32_t]. *)
Definition drawPart (models : list Model.t) (modIdx partIdx : Z)
    (instCount instOffset : Z) (cmdBuff : CommandBuffer)
  : CommandBuffer * status :=
  match partAt models modIdx partIdx with
  | None => (cmdBuff, OutOfBounds)
  | Some p =>
      (cmdBuff ++ [mkDraw (ModelPart.indexCount p) instCount
                          (ModelPart.indexBase p)
                          (U32.to_int32 (ModelPart.vertexBase p))
                          instOffset],
       Completed)
  end.

Record BatchState : Type := mkBatch {
  modIdx : Z;
  partIdx : Z;
  instCount : Z;
  instOffset : Z
}.

(** The [for] loop of [buildCommandBuffer]; [rest] holds [instances[i..]]. *)
Fixpoint drawLoop (models : list Model.t) (rest : list DrawCommand.t) (i : Z)
    (st : BatchState) (cmdBuff : CommandBuffer)
  : BatchState * CommandBuffer * status :=
  match rest with
  | [] => (st, cmdBuff, Completed)
  | inst :: rest' =>
      if DrawCommand.differs (modIdx st) (partIdx st) inst then
        match drawPart models (modIdx st) (partIdx st)
                       (instCount st) (instOffset st) cmdBuff with
        | (cmdBuff', Completed) =>
            drawLoop models rest' (i + 1)
              (mkBatch (DrawCommand.modelIndex inst)
                       (DrawCommand.partIndex inst)
                       (wrap32 (0 + 1)) (wrap32 i))
              cmdBuff'
        | (cmdBuff', OutOfBounds) => (st, cmdBuff', OutOfBounds)
        end
      else
        drawLoop models rest' (i + 1)
          (mkBatch (modIdx st) (partIdx st)
                   (wrap32 (instCount st + 1)) (instOffset st))
          cmdBuff
  end.

(** The statements after the loop: the last run is flushed. *)
Definition flushLastRun (models : list Model.t)
    (r : BatchState * CommandBuffer * status) : CommandBuffer * status :=
  match r with
  | (st, cmdBuff, Completed) =>
      if instCount st =? 0 then (cmdBuff, Completed)
      else drawPart models (modIdx st) (partIdx st)
                    (instCount st) (instOffset st) cmdBuff
  | (_, cmdBuff, OutOfBounds) => (cmdBuff, OutOfBounds)
  end.

(** Returns the command buffer with the draws recorded up to the end of the
    function or up to the fault.  [instances[0]] is read before the loop. *)
Definition buildCommandBuffer (models : list Model.t)
    (instances : list DrawCommand.t) (cmdBuff : CommandBuffer)
  : CommandBuffer * status :=
  match at_ instances 0 with
  | None => (cmdBuff, OutOfBounds)
  | Some first =>
      flushLastRun models
        (drawLoop models instances 0
           (mkBatch (DrawCommand.modelIndex first)
                    (DrawCommand.partIndex first) 0 0)
           cmdBuff)
  end.

(** ** Runs of an instance sequence (specification side) *)

Record Run : Type := mkRun {
  run_model : Z;
  run_part : Z;
  run_start : nat;
  run_len : nat
}.

Definition run_key (r : Run) : DrawCommand.t :=
  DrawCommand.mk (run_model r) (run_part r).

(** The runs of [l], the first element of [l] being at offset [start]. *)
Fixpoint runsFrom (start : nat) (l : list DrawCommand.t) : list Run :=
  match l with
  | [] => []
  | d :: rest =>
      let single :=
        mkRun (DrawCommand.modelIndex d) (DrawCommand.partIndex d) start 1 in
      match runsFrom (S start) rest with
      | [] => [single]
      | r :: rs =>
          if DrawCommand.differs (run_model r) (run_part r) d
          then single :: r :: rs
          else mkRun (run_model r) (run_part r) start (S (run_len r)) :: rs
      end
  end.

Definition runs (l : list DrawCommand.t) : list Run := runsFrom 0 l.

Definition expand (rs : list Run) : list DrawCommand.t :=
  flat_map (fun r => repeat (run_key r) (run_len r)) rs.

Fixpoint startsFrom (s : nat) (rs : list Run) : Prop :=
  match rs with
  | [] => True
  | r :: rs' => run_start r = s /\ startsFrom (s + run_len r)%nat rs'
  end.

Fixpoint adjacentDistinct (rs : list Run) : Prop :=
  match rs with
  | r1 :: ((r2 :: _) as tl) => run_key r1 <> run_key r2 /\ adjacentDistinct tl
  | _ => True
  end.

(** [rs] cuts [l] into its maximal contiguous runs of equal keys. *)
Definition MaximalRuns (l : list DrawCommand.t) (rs : list Run) : Prop :=
  expand rs = l /\
  Forall (fun r => (0 < run_len r)%nat) rs /\
  startsFrom 0 rs /\
  adjacentDistinct rs.

(** [d] is the draw of run [r]: the geometry of the run's part, the run
    length as instance count and the run start as first instance. *)
Definition DrawOfRun (models : list Model.t) (d : DrawIndexed) (r : Run)
  : Prop :=
  exists p,
    partAt models (run_model r) (run_part r) = Some p /\
    d = mkDraw (ModelPart.indexCount p) (Z.of_nat (run_len r))
               (ModelPart.indexBase p)
               (U32.to_int32 (ModelPart.vertexBase p))
               (Z.of_nat (run_start r)).

Definition refsValid (models : list Model.t) (l : list DrawCommand.t) : Prop :=
  Forall (fun d => partAt models (DrawCommand.modelIndex d)
                          (DrawCommand.partIndex d) <> None) l.

(** ** Vertex layout ([VulkanModel.hpp]) *)

Inductive Component : Type :=
| VERTEX_COMPONENT_POSITION
| VERTEX_COMPONENT_NORMAL
| VERTEX_COMPONENT_COLOR
| VERTEX_COMPONENT_UV
| VERTEX_COMPONENT_TANGENT
| VERTEX_COMPONENT_BITANGENT
| VERTEX_COMPONENT_DUMMY_FLOAT
| VERTEX_COMPONENT_DUMMY_VEC4.

Definition sizeof_float : Z := 4.

(** [VertexLayout::stride] over [components] *)
Definition stride (components : list Component) : Z :=
  fold_left
    (fun res component =>
       match component with
       | VERTEX_COMPONENT_UV => wrap32 (res + 2 * sizeof_float)
       | VERTEX_COMPONENT_DUMMY_FLOAT => wrap32 (res + sizeof_float)
       | VERTEX_COMPONENT_DUMMY_VEC4 => wrap32 (res + 4 * sizeof_float)
       | _ => wrap32 (res + 3 * sizeof_float)
       end)
    components 0.

(** The layout a [ModelGroup] is constructed with. *)
Definition defaultLayout : list Component :=
  [VERTEX_COMPONENT_POSITION; VERTEX_COMPONENT_NORMAL; VERTEX_COMPONENT_UV].

(** ** The importer's scene (Assimp), as far as [ModelGroup] reads it *)

Module aiVector3D.
Record t : Type := mk { x : float; y : float; z : float }.
End aiVector3D.

Module aiColor3D.
Record t : Type := mk { r : float; g : float; b : float }.
End aiColor3D.

(** An [aiString] is the text before its terminator; [length] is the
    length of that text. *)
Definition aiString : Type := string.

Module aiMaterial.
(** The properties that are queried; [None] is an absent property. *)
Record t : Type := mk {
  COLOR_AMBIENT : option aiColor3D.t;
  COLOR_DIFFUSE : option aiColor3D.t;
  COLOR_SPECULAR : option aiColor3D.t;
  COLOR_EMISSIVE : option aiColor3D.t;
  SHININESS : option float;
  TEXTURE_DIFFUSE_0 : option aiString
}.
(** [mat->Get (key, out)] for a [float out] or an [aiString out]: [out]
    keeps its value when the key is absent. *)
Definition Get {A : Type} (property : option A) (out : A) : A :=
  match property with
  | Some v => v
  | None => out
  end.
(** [mat->Get (key, out)] for an [aiColor3D out].  The importer is a
    library that is not among the sources; as its [material.inl] has this
    overload, the key is read into a zero-initialised [aiColor4D] whose
    first three components are then assigned to [out]: [out] becomes
    black when the key is absent, whatever it held. *)
Definition GetColor (property : option aiColor3D.t) (out : aiColor3D.t)
  : aiColor3D.t :=
  match property with
  | Some v => v
  | None => aiColor3D.mk F32.zero F32.zero F32.zero
  end.
(** [mat->GetTexture (aiTextureType_DIFFUSE, 0, &path)] on a fresh
    [aiString path]. *)
Definition GetTexture (mat : t) : aiString :=
  Get (TEXTURE_DIFFUSE_0 mat) EmptyString.
End aiMaterial.

Module aiFace.
Record t : Type := mk { mIndices : list Z }.
Definition mNumIndices (f : t) : Z := Z.of_nat (length (mIndices f)).
End aiFace.

Module aiMesh.
(** [mNumVertices] and [mNumFaces] are the lengths of [mVertices] and
    [mFaces]; the other per-vertex arrays may be null ([None]) and are read
    at the index of the vertex. *)
Record t : Type := mk {
  mVertices : list aiVector3D.t;
  mNormals : option (list aiVector3D.t);
  mTextureCoords0 : option (list aiVector3D.t);
  mTangents : option (list aiVector3D.t);
  mBitangents : option (list aiVector3D.t);
  mFaces : list aiFace.t;
  mMaterialIndex : Z
}.
Definition mNumVertices (m : t) : Z := Z.of_nat (length (mVertices m)).
Definition non_null {A : Type} (p : option A) : bool :=
  match p with Some _ => true | None => false end.
Definition HasTextureCoords0 (m : t) : bool :=
  non_null (mTextureCoords0 m) && (0 <? mNumVertices m).
Definition HasTangentsAndBitangents (m : t) : bool :=
  non_null (mTangents m) && non_null (mBitangents m) && (0 <? mNumVertices m).
(** [&array[j]]: the element that a later dereference reads; [None] when
    the array is null or too short. *)
Definition elem {A : Type} (array : option (list A)) (j : nat) : option A :=
  a <- array ;; nth_error a j.
End aiMesh.

Module aiScene.
Record t : Type := mk {
  mMaterials : list aiMaterial.t;
  mMeshes : list aiMesh.t
}.
End aiScene.

(** Result of [Importer.ReadFile]: a scene, or null with the text of
    [Importer.GetErrorString ()]. *)
Inductive ReadFile : Type :=
| Scene (pScene : aiScene.t)
| Null (errorString : string).

(** ** Materials and instances *)

Module glm4.
Record vec4 : Type := mk { x : float; y : float; z : float; w : float }.
(** [glm::vec4 ()], taken as zero-initialising *)
Definition zero : vec4 := mk F32.zero F32.zero F32.zero F32.zero.
Definition set_xyz (v : vec4) (c : aiColor3D.t) : vec4 :=
  mk (aiColor3D.r c) (aiColor3D.g c) (aiColor3D.b c) (w v).
End glm4.

Module Material.
Record t : Type := mk {
  Ka : glm4.vec4;
  Kd : glm4.vec4;
  Ks : glm4.vec4;
  Ke : glm4.vec4;
  Ma : Z;
  Md : Z;
  Me : Z;
  Ns : float;
  Ni : float;
  d : float;
  Nm : float;
  Nr : float
}.
(** the default member initialisers *)
Definition default : t :=
  mk glm4.zero glm4.zero glm4.zero glm4.zero 0 0 0
     F32.zero (F32.lit 15 10) (F32.of_Z 1) (F32.lit 5 1000) (F32.of_Z 1).
End Material.

(** [sizeof (vks::Material)]: four [vec4], three [uint32_t], five [float] *)
Definition sizeof_Material : Z := 4 * 16 + 3 * 4 + 5 * 4.

Module InstanceData.
Record t : Type := mk {
  materialIndex : Z;
  modelMat : list float
}.
End InstanceData.

(** [sizeof (InstanceData)]: a [uint32_t] and a tightly packed [mat4] *)
Definition sizeof_InstanceData : Z := 4 + 16 * 4.

(** ** Effects *)

Inductive Buffer : Type :=
| vertexStaging | indexStaging | vertices | indices
| instanceBuff | materialsBuff.

Inductive Event : Type :=
(** console *)
| PrintErrorParsing (filename errorString : string)
| PrintMaterialMap (i : Z) (ddsIdx : Z) (mapPath : string)
(** device *)
| CreateBuffer (b : Buffer) (size : Z)
| CmdCopyBuffer (src dst : Buffer) (size : Z)
| FlushCommandBuffer
| DestroyBuffer (b : Buffer)
| DeviceWaitIdle
| MapBuffer (b : Buffer)
| Memcpy (dst : Buffer) (bytes : Z)
| BuildFromImages (paths : list string) (texSize : Z).

(** ** The group *)

Record ModelGroup : Type := mkGroup {
  instances : list DrawCommand.t;
  instanceDatas : list InstanceData.t;
  layout : list Component;
  indexCount : Z;
  vertexCount : Z;
  vertexBuffer : list float;
  indexBuffer : list Z;
  aiMaterials : list aiMaterial.t;
  texSize : Z;
  models : list Model.t;
  materials : list Material.t;
  (** [instanceBuff.size] and [materialsBuff.size] *)
  instanceBuff_size : Z;
  materialsBuff_size : Z
}.

(** The group after its constructor; [layout] is a public member and may be
    replaced before assets are added. *)
Definition newGroup (components : list Component) : ModelGroup :=
  mkGroup [] [] components 0 0 [] [] [] 1024 [] [] 0 0.

Definition setInstances (g : ModelGroup) (instances' : list DrawCommand.t)
    (instanceDatas' : list InstanceData.t) : ModelGroup :=
  mkGroup instances' instanceDatas' (layout g) (indexCount g) (vertexCount g)
    (vertexBuffer g) (indexBuffer g) (aiMaterials g) (texSize g) (models g)
    (materials g) (instanceBuff_size g) (materialsBuff_size g).

Definition setGeometry (g : ModelGroup) (vertexCount' indexCount' : Z)
    (vertexBuffer' : list float) (indexBuffer' : list Z) : ModelGroup :=
  mkGroup (instances g) (instanceDatas g) (layout g) indexCount' vertexCount'
    vertexBuffer' indexBuffer' (aiMaterials g) (texSize g) (models g)
    (materials g) (instanceBuff_size g) (materialsBuff_size g).

Definition setAiMaterials (g : ModelGroup) (aiMaterials' : list aiMaterial.t)
  : ModelGroup :=
  mkGroup (instances g) (instanceDatas g) (layout g) (indexCount g)
    (vertexCount g) (vertexBuffer g) (indexBuffer g) aiMaterials' (texSize g)
    (models g) (materials g) (instanceBuff_size g) (materialsBuff_size g).

Definition setModels (g : ModelGroup) (models' : list Model.t) : ModelGroup :=
  mkGroup (instances g) (instanceDatas g) (layout g) (indexCount g)
    (vertexCount g) (vertexBuffer g) (indexBuffer g) (aiMaterials g)
    (texSize g) models' (materials g) (instanceBuff_size g)
    (materialsBuff_size g).

Definition setMaterials (g : ModelGroup) (materials' : list Material.t)
  : ModelGroup :=
  mkGroup (instances g) (instanceDatas g) (layout g) (indexCount g)
    (vertexCount g) (vertexBuffer g) (indexBuffer g) (aiMaterials g)
    (texSize g) (models g) materials' (instanceBuff_size g)
    (materialsBuff_size g).

Definition setInstanceBuffSize (g : ModelGroup) (size : Z) : ModelGroup :=
  mkGroup (instances g) (instanceDatas g) (layout g) (indexCount g)
    (vertexCount g) (vertexBuffer g) (indexBuffer g) (aiMaterials g)
    (texSize g) (models g) (materials g) size (materialsBuff_size g).

Definition setMaterialsBuffSize (g : ModelGroup) (size : Z) : ModelGroup :=
  mkGroup (instances g) (instanceDatas g) (layout g) (indexCount g)
    (vertexCount g) (vertexBuffer g) (indexBuffer g) (aiMaterials g)
    (texSize g) (models g) (materials g) (instanceBuff_size g) size.

(** ** [addInstance] *)

(** [addInstance (modelIdx, partIdx, std::vector<InstanceData> datas)] *)
Definition addInstance_datas (modelIdx partIdx : Z)
    (datas : list InstanceData.t) (g : ModelGroup) : ModelGroup * Z :=
  let idx := wrap32 (Z.of_nat (length (instances g))) in
  (fold_left
     (fun g' data =>
        setInstances g'
          (instances g' ++ [DrawCommand.mk modelIdx partIdx])
          (instanceDatas g' ++ [data]))
     datas g,
   idx).

(** [addInstance (modelIdx, partIdx, InstanceData data)] *)
Definition addInstance_data (modelIdx partIdx : Z) (data : InstanceData.t)
    (g : ModelGroup) : ModelGroup * Z :=
  let idx := wrap32 (Z.of_nat (length (instances g))) in
  (setInstances g (instances g ++ [DrawCommand.mk modelIdx partIdx])
     (instanceDatas g ++ [data]),
   idx).

(** [addInstance (modelIdx, partIdx, const glm::mat4& modelMat)] *)
Definition addInstance_modelMat (modelIdx partIdx : Z) (modelMat : list float)
    (g : ModelGroup) : option (ModelGroup * Z) :=
  let idx := wrap32 (Z.of_nat (length (instances g))) in
  part <- partAt (models g) modelIdx partIdx ;;
  let id := InstanceData.mk (ModelPart.materialIdx part) modelMat in
  Some (setInstances g (instances g ++ [DrawCommand.mk modelIdx partIdx])
          (instanceDatas g ++ [id]),
        idx).

(** ** [addModel] *)

Definition Zero3D : aiVector3D.t :=
  aiVector3D.mk F32.zero F32.zero F32.zero.

(** One [case] of the [switch] over the layout components: the floats are
    pushed on [vertexBuffer]; a null or short source array faults. *)
Definition pushComponent (component : Component) (pPos : aiVector3D.t)
    (pNormal pTexCoord pTangent pBiTangent : option aiVector3D.t)
    (pColor : aiColor3D.t) (vertexBuffer : list float) : option (list float) :=
  match component with
  | VERTEX_COMPONENT_POSITION =>
      Some (vertexBuffer ++ [aiVector3D.x pPos; F32.opp (aiVector3D.y pPos);
                             aiVector3D.z pPos])
  | VERTEX_COMPONENT_NORMAL =>
      n <- pNormal ;;
      Some (vertexBuffer ++ [aiVector3D.x n; F32.opp (aiVector3D.y n);
                             aiVector3D.z n])
  | VERTEX_COMPONENT_UV =>
      t <- pTexCoord ;;
      Some (vertexBuffer ++ [aiVector3D.x t; aiVector3D.y t])
  | VERTEX_COMPONENT_COLOR =>
      Some (vertexBuffer ++ [aiColor3D.r pColor; aiColor3D.g pColor;
                             aiColor3D.b pColor])
  | VERTEX_COMPONENT_TANGENT =>
      t <- pTangent ;;
      Some (vertexBuffer ++ [aiVector3D.x t; aiVector3D.y t; aiVector3D.z t])
  | VERTEX_COMPONENT_BITANGENT =>
      t <- pBiTangent ;;
      Some (vertexBuffer ++ [aiVector3D.x t; aiVector3D.y t; aiVector3D.z t])
  | VERTEX_COMPONENT_DUMMY_FLOAT =>
      Some (vertexBuffer ++ [F32.zero])
  | VERTEX_COMPONENT_DUMMY_VEC4 =>
      Some (vertexBuffer ++ [F32.zero; F32.zero; F32.zero; F32.zero])
  end.

(** [for (auto& component : layout.components)] *)
Fixpoint layoutLoop (components : list Component) (pPos : aiVector3D.t)
    (pNormal pTexCoord pTangent pBiTangent : option aiVector3D.t)
    (pColor : aiColor3D.t) (vertexBuffer : list float) : option (list float) :=
  match components with
  | [] => Some vertexBuffer
  | component :: components' =>
      vertexBuffer' <- pushComponent component pPos pNormal pTexCoord pTangent
                         pBiTangent pColor vertexBuffer ;;
      layoutLoop components' pPos pNormal pTexCoord pTangent pBiTangent pColor
        vertexBuffer'
  end.

(** The six assignments folding [pPos] into [model.dim]. *)
Definition foldPosition (pPos : aiVector3D.t) (dim : Dimension.t)
  : Dimension.t :=
  let max' :=
    glm.mkvec3 (F32.fmax (aiVector3D.x pPos) (glm.x (Dimension.max dim)))
               (F32.fmax (aiVector3D.y pPos) (glm.y (Dimension.max dim)))
               (F32.fmax (aiVector3D.z pPos) (glm.z (Dimension.max dim))) in
  let min' :=
    glm.mkvec3 (F32.fmin (aiVector3D.x pPos) (glm.x (Dimension.min dim)))
               (F32.fmin (aiVector3D.y pPos) (glm.y (Dimension.min dim)))
               (F32.fmin (aiVector3D.z pPos) (glm.z (Dimension.min dim))) in
  Dimension.mk min' max' (Dimension.size dim).

(** [for (unsigned int j = 0; j < paiMesh->mNumVertices; j++)]; [vs] holds
    [mVertices[j..]]. *)
Fixpoint vertexLoop (components : list Component) (paiMesh : aiMesh.t)
    (pColor : aiColor3D.t) (vs : list aiVector3D.t) (j : nat)
    (vertexBuffer : list float) (dim : Dimension.t)
  : option (list float * Dimension.t) :=
  match vs with
  | [] => Some (vertexBuffer, dim)
  | pPos :: vs' =>
      let pNormal := aiMesh.elem (aiMesh.mNormals paiMesh) j in
      let pTexCoord :=
        if aiMesh.HasTextureCoords0 paiMesh
        then aiMesh.elem (aiMesh.mTextureCoords0 paiMesh) j
        else Some Zero3D in
      let pTangent :=
        if aiMesh.HasTangentsAndBitangents paiMesh
        then aiMesh.elem (aiMesh.mTangents paiMesh) j
        else Some Zero3D in
      let pBiTangent :=
        if aiMesh.HasTangentsAndBitangents paiMesh
        then aiMesh.elem (aiMesh.mBitangents paiMesh) j
        else Some Zero3D in
      vertexBuffer' <- layoutLoop components pPos pNormal pTexCoord pTangent
                         pBiTangent pColor vertexBuffer ;;
      vertexLoop components paiMesh pColor vs' (S j) vertexBuffer'
        (foldPosition pPos dim)
  end.

(** [for (unsigned int j = 0; j < paiMesh->mNumFaces; j++)]: the result is
    the index buffer, [model.parts[i].indexCount] and [indexCount]. *)
Fixpoint faceLoop (faces : list aiFace.t) (indexBuffer : list Z)
    (partIndexCount indexCount : Z) : list Z * Z * Z :=
  match faces with
  | [] => (indexBuffer, partIndexCount, indexCount)
  | Face :: faces' =>
      if negb (aiFace.mNumIndices Face =? 3) then
        faceLoop faces' indexBuffer partIndexCount indexCount
      else
        faceLoop faces'
          (indexBuffer ++ [nth 0 (aiFace.mIndices Face) 0;
                           nth 1 (aiFace.mIndices Face) 0;
                           nth 2 (aiFace.mIndices Face) 0])
          (wrap32 (partIndexCount + 3)) (wrap32 (indexCount + 3))
  end.

(** The body of the loop over the meshes.  [model.parts] was resized to the
    number of meshes and slot [i] is assigned in iteration [i]: the parts
    assigned so far are kept as a list that the iteration extends.  The slot
    starts from [{}], so its index count starts from 0. *)
Definition loadMesh (pScene : aiScene.t) (materialOffset : Z)
    (acc : ModelGroup * Model.t) (paiMesh : aiMesh.t)
  : option (ModelGroup * Model.t) :=
  let '(grp, model) := acc in
  let part_vertexBase := vertexCount grp in
  let part_indexBase := indexCount grp in
  let part_materialIdx := wrap32 (aiMesh.mMaterialIndex paiMesh + materialOffset) in
  let vertexCount' := wrap32 (vertexCount grp + aiMesh.mNumVertices paiMesh) in
  mat <- at_ (aiScene.mMaterials pScene) (aiMesh.mMaterialIndex paiMesh) ;;
  let pColor :=
    aiMaterial.GetColor (aiMaterial.COLOR_DIFFUSE mat)
      (aiColor3D.mk F32.zero F32.zero F32.zero) in
  '(vertexBuffer', dim') <-
     vertexLoop (layout grp) paiMesh pColor (aiMesh.mVertices paiMesh) 0
       (vertexBuffer grp) (Model.dim model) ;;
  let dim'' :=
    Dimension.mk (Dimension.min dim') (Dimension.max dim')
      (Some (glm.sub (Dimension.max dim') (Dimension.min dim'))) in
  let part_vertexCount := aiMesh.mNumVertices paiMesh in
  let '(indexBuffer', part_indexCount, indexCount') :=
    faceLoop (aiMesh.mFaces paiMesh) (indexBuffer grp) 0 (indexCount grp) in
  Some (setGeometry grp vertexCount' indexCount' vertexBuffer' indexBuffer',
        Model.mk
          (Model.parts model ++
             [ModelPart.mk part_vertexBase part_vertexCount part_indexBase
                part_indexCount part_materialIdx])
          dim'').

(** [for (unsigned int i = 0; i < pScene->mNumMeshes; i++)] *)
Fixpoint meshLoop (pScene : aiScene.t) (materialOffset : Z)
    (meshes : list aiMesh.t) (acc : ModelGroup * Model.t)
  : option (ModelGroup * Model.t) :=
  match meshes with
  | [] => Some acc
  | paiMesh :: meshes' =>
      acc' <- loadMesh pScene materialOffset acc paiMesh ;;
      meshLoop pScene materialOffset meshes' acc'
  end.

(** [addModel (filename, flags)], given what [Importer.ReadFile] returned.
    The result is the group, the returned [int] and the console output;
    [None] is a fault. *)
Definition addModel (filename : string) (pScene : ReadFile) (grp : ModelGroup)
  : option (ModelGroup * Z * list Event) :=
  match pScene with
  | Scene pScene =>
      let modelIndex := wrap32 (Z.of_nat (length (models grp))) in
      let materialOffset := wrap32 (Z.of_nat (length (aiMaterials grp))) in
      let grp1 :=
        setAiMaterials grp (aiMaterials grp ++ aiScene.mMaterials pScene) in
      '(grp2, model) <-
         meshLoop pScene materialOffset (aiScene.mMeshes pScene)
           (grp1, Model.mk [] Dimension.init) ;;
      Some (setModels grp2 (models grp2 ++ [model]),
            U32.to_int32 modelIndex, [])
  | Null errorString =>
      Some (grp, -1, [PrintErrorParsing filename errorString])
  end.

(** ** [prepare] *)

(** [std::find (mapDic.begin (), mapDic.end (), map)] as the distance of
    the iterator from [begin]; [None] is [end]. *)
Fixpoint std_find (mapDic : list string) (map : string) : option nat :=
  match mapDic with
  | [] => None
  | entry :: mapDic' =>
      if String.eqb entry map then Some 0%nat
      else option_map S (std_find mapDic' map)
  end.

(** The first loop: the lookup table of map paths. *)
Fixpoint mapDicLoop (mats : list aiMaterial.t) (mapDic : list string)
  : list string :=
  match mats with
  | [] => mapDic
  | mat :: mats' =>
      let Md := aiMaterial.GetTexture mat in
      if Z.of_nat (String.length Md) =? 0 then mapDicLoop mats' mapDic
      else
        match std_find mapDic Md with
        | Some _ => mapDicLoop mats' mapDic
        | None => mapDicLoop mats' (mapDic ++ [Md])
        end
  end.

(** The body of the second loop up to [materials.push_back (mat)]: the
    packed material of [aiMat].  [pColor] is one variable for the four
    colour queries. *)
Definition packMaterial (mapDic : list string) (aiMat : aiMaterial.t)
  : Material.t :=
  let mat := Material.default in
  let pColor := aiColor3D.mk F32.zero F32.zero F32.zero in
  let pColor := aiMaterial.GetColor (aiMaterial.COLOR_AMBIENT aiMat) pColor in
  let Ka := glm4.set_xyz (Material.Ka mat) pColor in
  let pColor := aiMaterial.GetColor (aiMaterial.COLOR_DIFFUSE aiMat) pColor in
  let Kd := glm4.set_xyz (Material.Kd mat) pColor in
  let pColor := aiMaterial.GetColor (aiMaterial.COLOR_SPECULAR aiMat) pColor in
  let Ks := glm4.set_xyz (Material.Ks mat) pColor in
  let pColor := aiMaterial.GetColor (aiMaterial.COLOR_EMISSIVE aiMat) pColor in
  let Ke := glm4.set_xyz (Material.Ke mat) pColor in
  let Ns := aiMaterial.Get (aiMaterial.SHININESS aiMat) (Material.Ns mat) in
  let Nr :=
    if F32.eqb Ns F32.zero then F32.lit 2 10
    else F32.div (F32.of_Z 10) Ns in
  let Nm := F32.lit 9 10 in
  let mapFile := aiMaterial.GetTexture aiMat in
  let Md :=
    match std_find mapDic mapFile with
    | Some distance => wrap32 (Z.of_nat distance)
    | None => Material.Md mat
    end in
  Material.mk Ka Kd Ks Ke (Material.Ma mat) Md (Material.Me mat) Ns
    (Material.Ni mat) (Material.d mat) Nm Nr.

(** What the second loop prints for material [i]. *)
Definition printMaterial (mapDic : list string) (i : Z) (aiMat : aiMaterial.t)
  : list Event :=
  let mapPath := aiMaterial.GetTexture aiMat in
  match std_find mapDic mapPath with
  | Some distance => [PrintMaterialMap i (Z.of_nat distance) mapPath]
  | None => []
  end.

(** The second loop: the material buffer. *)
Fixpoint materialLoop (mapDic : list string) (mats : list aiMaterial.t)
    (i : Z) (materials : list Material.t) (out : list Event)
  : list Material.t * list Event :=
  match mats with
  | [] => (materials, out)
  | aiMat :: mats' =>
      materialLoop mapDic mats' (i + 1)
        (materials ++ [packMaterial mapDic aiMat])
        (out ++ printMaterial mapDic i aiMat)
  end.

(** [memcpy] into the mapped memory of a buffer of [size] bytes. *)
Definition memcpyMapped (dst : Buffer) (size bytes : Z) : list Event * status :=
  ([Memcpy dst bytes], if bytes <=? size then Completed else OutOfBounds).

Definition updateInstancesBuffer (grp : ModelGroup) : list Event * status :=
  memcpyMapped instanceBuff (instanceBuff_size grp)
    (Z.of_nat (length (instanceDatas grp)) * sizeof_InstanceData).

Definition updateMaterialBuffer (grp : ModelGroup) : list Event * status :=
  memcpyMapped materialsBuff (materialsBuff_size grp)
    (sizeof_Material * Z.of_nat (length (materials grp))).

Definition buildMaterialBuffer (grp : ModelGroup)
  : ModelGroup * list Event * status :=
  let size := sizeof_Material * 256 in
  let grp' := setMaterialsBuffSize grp size in
  let '(copy, st) := updateMaterialBuffer grp' in
  (grp', [CreateBuffer materialsBuff size; MapBuffer materialsBuff] ++ copy, st).

Definition buildInstanceBuffer (grp : ModelGroup)
  : ModelGroup * list Event * status :=
  let release :=
    if 0 <? instanceBuff_size grp
    then [DeviceWaitIdle; DestroyBuffer instanceBuff] else [] in
  let size := Z.of_nat (length (instanceDatas grp)) * sizeof_InstanceData in
  let grp' := setInstanceBuffSize grp size in
  let '(copy, st) := updateInstancesBuffer grp' in
  (grp', release ++ [CreateBuffer instanceBuff size; MapBuffer instanceBuff]
         ++ copy, st).

(** Modelled from the spec: [VulkanDevice::createBuffer] is not among the
    sources; buffer creation by the device resource manager is taken to
    give a buffer of the size asked for, which the [size] field that the
    two copies read then holds.  The staged upload of the vertex and index
    buffers. *)
Definition uploadGeometry (grp : ModelGroup) : list Event :=
  let vBufferSize :=
    wrap32 (wrap32 (Z.of_nat (length (vertexBuffer grp))) * sizeof_float) in
  let iBufferSize :=
    wrap32 (wrap32 (Z.of_nat (length (indexBuffer grp))) * 4) in
  [CreateBuffer vertexStaging vBufferSize;
   CreateBuffer indexStaging iBufferSize;
   CreateBuffer vertices vBufferSize;
   CreateBuffer indices iBufferSize;
   CmdCopyBuffer vertexStaging vertices vBufferSize;
   CmdCopyBuffer indexStaging indices iBufferSize;
   FlushCommandBuffer;
   DestroyBuffer vertexStaging;
   DestroyBuffer indexStaging].

(** [prepare ()]: the group, the console output and device calls in order,
    and whether a copy ran past its buffer.  Device calls are taken to
    succeed ([VK_CHECK_RESULT]). *)
Definition prepare (grp : ModelGroup) : ModelGroup * list Event * status :=
  let mapDic := mapDicLoop (aiMaterials grp) [] in
  let '(materials', out) :=
    materialLoop mapDic (aiMaterials grp) 0 (materials grp) [] in
  let grp1 := setMaterials grp materials' in
  let trace := out ++ uploadGeometry grp1 in
  if Z.of_nat (length mapDic) =? 0 then (grp1, trace, Completed)
  else
    let trace := trace ++ [BuildFromImages mapDic (texSize grp1)] in
    match buildInstanceBuffer grp1 with
    | (grp2, events, OutOfBounds) => (grp2, trace ++ events, OutOfBounds)
    | (grp2, events, Completed) =>
        let '(grp3, events', st) := buildMaterialBuffer grp2 in
        (grp3, trace ++ events ++ events', st)
    end.

(** ** Notions used to state the properties *)

(** Number of floats that [pushComponent] pushes for a component. *)
Definition floatsOf (component : Component) : nat :=
  match component with
  | VERTEX_COMPONENT_UV => 2
  | VERTEX_COMPONENT_DUMMY_FLOAT => 1
  | VERTEX_COMPONENT_DUMMY_VEC4 => 4
  | _ => 3
  end.

Definition floatsPerVertex (components : list Component) : nat :=
  list_sum (map floatsOf components).

(** The floats of one component of the vertex at position [pPos]. *)
Definition ComponentPart (pPos : aiVector3D.t) (component : Component)
    (part : list float) : Prop :=
  length part = floatsOf component /\
  (component = VERTEX_COMPONENT_POSITION ->
   part = [aiVector3D.x pPos; F32.opp (aiVector3D.y pPos); aiVector3D.z pPos]).

(** The interleaved floats of the vertex at position [pPos]. *)
Definition VertexChunk (components : list Component) (pPos : aiVector3D.t)
    (chunk : list float) : Prop :=
  exists parts,
    chunk = concat parts /\ Forall2 (ComponentPart pPos) components parts.

Definition allParts (models : list Model.t) : list ModelPart.t :=
  flat_map Model.parts models.

Definition sumZ (l : list Z) : Z := fold_right Z.add 0 l.

Definition sumIndexCount (models : list Model.t) : Z :=
  sumZ (map ModelPart.indexCount (allParts models)).

Definition sumVertexCount (models : list Model.t) : Z :=
  sumZ (map ModelPart.vertexCount (allParts models)).

Definition isTriangle (f : aiFace.t) : bool := aiFace.mNumIndices f =? 3.

(** The indices of the three-index faces, as the importer gives them. *)
Definition triangleIndices (faces : list aiFace.t) : list Z :=
  flat_map (fun f => if isTriangle f then aiFace.mIndices f else []) faces.

Definition numTriangles (faces : list aiFace.t) : Z :=
  Z.of_nat (length (filter isTriangle faces)).

Definition scenePositions (pScene : aiScene.t) : list aiVector3D.t :=
  flat_map aiMesh.mVertices (aiScene.mMeshes pScene).

Definition sceneTriangleIndices (pScene : aiScene.t) : list Z :=
  flat_map (fun m => triangleIndices (aiMesh.mFaces m)) (aiScene.mMeshes pScene).

(** The part recorded for a mesh: its counts. *)
Definition PartOfMesh (part : ModelPart.t) (mesh : aiMesh.t) : Prop :=
  ModelPart.vertexCount part = aiMesh.mNumVertices mesh /\
  ModelPart.indexCount part = wrap32 (3 * numTriangles (aiMesh.mFaces mesh)).

(** The groups obtained from a new group by calls of [addModel] that
    return. *)
Inductive reachable (components : list Component) : ModelGroup -> Prop :=
| reach_new : reachable components (newGroup components)
| reach_addModel (grp grp' : ModelGroup) (filename : string)
    (pScene : ReadFile) (ret : Z) (out : list Event) :
    reachable components grp ->
    addModel filename pScene grp = Some (grp', ret, out) ->
    reachable components grp'.

(** Running minimum and maximum of one coordinate over positions. *)
Definition foldMin (coord : aiVector3D.t -> float) (ps : list aiVector3D.t)
    (start : float) : float :=
  fold_left (fun m p => F32.fmin (coord p) m) ps start.

Definition foldMax (coord : aiVector3D.t -> float) (ps : list aiVector3D.t)
    (start : float) : float :=
  fold_left (fun m p => F32.fmax (coord p) m) ps start.

(** Keeps the first occurrence of every string. *)
Fixpoint firstSeen (l : list string) : list string :=
  match l with
  | [] => []
  | p :: l' => p :: filter (fun q => negb (String.eqb p q)) (firstSeen l')
  end.

(** The non-empty diffuse paths of the materials, in scan order. *)
Definition diffusePaths (mats : list aiMaterial.t) : list string :=
  filter (fun p => negb (String.eqb p EmptyString))
    (map aiMaterial.GetTexture mats).

Definition touches (b : Buffer) (e : Event) : bool :=
  let same (b' : Buffer) : bool :=
    match b, b' with
    | vertexStaging, vertexStaging | indexStaging, indexStaging
    | vertices, vertices | indices, indices
    | instanceBuff, instanceBuff | materialsBuff, materialsBuff => true
    | _, _ => false
    end in
  match e with
  | CreateBuffer b' _ | DestroyBuffer b' | MapBuffer b' | Memcpy b' _ => same b'
  | CmdCopyBuffer src dst _ => same src || same dst
  | _ => false
  end.

Definition meshesNumTriangles (meshes : list aiMesh.t) : Z :=
  sumZ (map (fun m => numTriangles (aiMesh.mFaces m)) meshes).

Definition meshesNumVertices (meshes : list aiMesh.t) : Z :=
  sumZ (map aiMesh.mNumVertices meshes).

(** The bounding box after the positions [ps] are folded into [dim]. *)
Definition foldPositions (ps : list aiVector3D.t) (dim : Dimension.t)
  : Dimension.t :=
  fold_left (fun d p => foldPosition p d) ps dim.

(** What holds of the counters and buffers of every reachable group,
    overflow included. *)
Definition CountersInvariant (components : list Component) (grp : ModelGroup)
  : Prop :=
  layout grp = components /\
  indexCount grp = wrap32 (Z.of_nat (length (indexBuffer grp))) /\
  vertexCount grp = wrap32 (sumVertexCount (models grp)) /\
  Z.of_nat (length (vertexBuffer grp))
  = sumVertexCount (models grp) * Z.of_nat (floatsPerVertex components) /\
  0 <= sumVertexCount (models grp) /\
  0 <= sumIndexCount (models grp) <= Z.of_nat (length (indexBuffer grp)) /\
  wrap32 (sumIndexCount (models grp))
  = wrap32 (Z.of_nat (length (indexBuffer grp))).

(** The counters hold [uint32_t] values. *)
Definition countersInRange (grp : ModelGroup) : Prop :=
  0 <= indexCount grp < 2 ^ 32 /\ 0 <= vertexCount grp < 2 ^ 32.

(** The [int] that a call of [addModel] returned. *)
Definition returned (r : option (ModelGroup * Z * list Event)) : option Z :=
  option_map (fun r => snd (fst r)) r.


(** [q] is not yet in the lookup table [mapDic]. *)
Definition absent (mapDic : list string) (q : string) : bool :=
  match std_find mapDic q with
  | None => true
  | Some _ => false
  end.

(** ** Example data *)

Definition exampleModels : list Model.t :=
  [Model.mk [ModelPart.mk 0 3 0 3 0] Dimension.init;
   Model.mk [ModelPart.mk 3 4 3 6 0; ModelPart.mk 7 3 9 3 1] Dimension.init].

Definition exampleInstances : list DrawCommand.t :=
  [DrawCommand.mk 0 0; DrawCommand.mk 0 0; DrawCommand.mk 1 1;
   DrawCommand.mk 0 0].

Definition vec (a b c : Z) : aiVector3D.t :=
  aiVector3D.mk (F32.of_Z a) (F32.of_Z b) (F32.of_Z c).

Definition wallMaterial : aiMaterial.t :=
  aiMaterial.mk None None None None (Some (F32.of_Z 20)) (Some "wall.dds"%string).

Definition plainMaterial : aiMaterial.t :=
  aiMaterial.mk None None None None None None.

Definition floorMaterial : aiMaterial.t :=
  aiMaterial.mk None None None None (Some F32.zero) (Some "floor.dds"%string).

(** Two meshes; the first has a face of four and a face of two indices. *)
Definition exampleScene : aiScene.t :=
  aiScene.mk [wallMaterial; plainMaterial]
    [aiMesh.mk [vec 1 2 3; vec 0 (-1) 0; vec 4 0 (-2)]
       (Some [vec 0 1 0; vec 0 1 0; vec 0 1 0]) None None None
       [aiFace.mk [0; 1; 2]; aiFace.mk [0; 1; 2; 3]; aiFace.mk [0; 1]] 0;
     aiMesh.mk [vec 5 5 5; vec 6 5 5; vec 5 6 5]
       (Some [vec 0 0 1; vec 0 0 1; vec 0 0 1])
       (Some [vec 0 0 0; vec 1 0 0; vec 0 1 0]) None None
       [aiFace.mk [0; 1; 2]; aiFace.mk [2; 1; 0]] 1].

Definition secondScene : aiScene.t :=
  aiScene.mk [floorMaterial; wallMaterial] [].

(** A scene whose only vertex is (1, 2, 3). *)
Definition pointScene : aiScene.t :=
  aiScene.mk [plainMaterial]
    [aiMesh.mk [vec 1 2 3] (Some [vec 0 1 0]) None None None [] 0].

Definition loaded (filename : string) (pScene : aiScene.t) (grp : ModelGroup)
  : ModelGroup :=
  match addModel filename (Scene pScene) grp with
  | Some (grp', _, _) => grp'
  | None => grp
  end.

Definition exampleGroup : ModelGroup :=
  loaded "scene.obj" exampleScene (newGroup defaultLayout).

Definition twoAssetGroup : ModelGroup :=
  loaded "second.obj" secondScene exampleGroup.

Definition pointGroup : ModelGroup :=
  loaded "point.obj" pointScene (newGroup defaultLayout).

(** A group with an instance and no textured material. *)
Definition untexturedGroup : ModelGroup :=
  fst (addInstance_data 0 0 (InstanceData.mk 0 []) pointGroup).

(** An asset with 257 textured materials, loaded and prepared. *)
Definition crowdedScene : aiScene.t :=
  aiScene.mk (repeat wallMaterial 257) [].

Definition crowdedLoaded : ModelGroup :=
  loaded "crowd.obj" crowdedScene (newGroup defaultLayout).

Definition crowdedGroup : ModelGroup := fst (fst (prepare crowdedLoaded)).

(** ** Scenes on which [addModel] does not fault *)

Definition arrayFits {A : Type} (array : option (list A)) (n : nat) : Prop :=
  forall a, array = Some a -> length a = n.

(** The material index is in range, the normals are present, and every
    per-vertex array that is present has one entry per vertex. *)
Definition wellFormedMesh (pScene : aiScene.t) (m : aiMesh.t) : Prop :=
  at_ (aiScene.mMaterials pScene) (aiMesh.mMaterialIndex m) <> None /\
  aiMesh.mNormals m <> None /\
  arrayFits (aiMesh.mNormals m) (length (aiMesh.mVertices m)) /\
  arrayFits (aiMesh.mTextureCoords0 m) (length (aiMesh.mVertices m)) /\
  arrayFits (aiMesh.mTangents m) (length (aiMesh.mVertices m)) /\
  arrayFits (aiMesh.mBitangents m) (length (aiMesh.mVertices m)).

Definition wellFormedScene (pScene : aiScene.t) : Prop :=
  Forall (wellFormedMesh pScene) (aiScene.mMeshes pScene).

(** ** Further notions: draws and instances *)

(** The draws cover consecutive instance ranges starting at [first], none
    of them empty. *)
Fixpoint consecutiveFrom (first : Z) (ds : list DrawIndexed) : Prop :=
  match ds with
  | [] => True
  | d :: ds' =>
      di_firstInstance d = first /\
      0 < di_instanceCount d /\
      consecutiveFrom (first + di_instanceCount d) ds'
  end.

(** A block is a key together with the number of further instances of it. *)
Definition blockInstances (blocks : list (DrawCommand.t * nat))
  : list DrawCommand.t :=
  flat_map (fun b => repeat (fst b) (S (snd b))) blocks.

(** The runs of a sequence given by blocks, the first at offset [s]. *)
Fixpoint blockRuns (s : nat) (blocks : list (DrawCommand.t * nat))
  : list Run :=
  match blocks with
  | [] => []
  | (k, c) :: blocks' =>
      mkRun (DrawCommand.modelIndex k) (DrawCommand.partIndex k) s (S c)
      :: blockRuns (s + S c) blocks'
  end.

(** The groups obtained from a new group by loading assets and placing
    instances through the overload that takes a transform. *)
Inductive placed (components : list Component) : ModelGroup -> Prop :=
| placed_new : placed components (newGroup components)
| placed_addModel (grp grp' : ModelGroup) (filename : string)
    (pScene : ReadFile) (ret : Z) (out : list Event) :
    placed components grp ->
    addModel filename pScene grp = Some (grp', ret, out) ->
    placed components grp'
| placed_addInstance (grp grp' : ModelGroup) (modelIdx partIdx : Z)
    (modelMat : list float) (idx : Z) :
    placed components grp ->
    addInstance_modelMat modelIdx partIdx modelMat grp = Some (grp', idx) ->
    placed components grp'.

(** The material index stored with an instance is the one of its part. *)
Definition InstanceMaterial (models : list Model.t) (inst : DrawCommand.t)
    (data : InstanceData.t) : Prop :=
  exists part,
    partAt models (DrawCommand.modelIndex inst) (DrawCommand.partIndex inst)
    = Some part /\
    InstanceData.materialIndex data = ModelPart.materialIdx part.

(** The groups obtained from a new group by any of the operations of
    [ModelGroup] that change it.  The loop of the overload of [addInstance]
    that takes a list counts with an [int]. *)
Inductive operated (components : list Component) : ModelGroup -> Prop :=
| op_new : operated components (newGroup components)
| op_addModel (grp grp' : ModelGroup) (filename : string) (pScene : ReadFile)
    (ret : Z) (out : list Event) :
    operated components grp ->
    addModel filename pScene grp = Some (grp', ret, out) ->
    operated components grp'
| op_addInstance_datas (grp : ModelGroup) (modelIdx partIdx : Z)
    (datas : list InstanceData.t) :
    operated components grp ->
    Z.of_nat (length datas) < 2 ^ 31 ->
    operated components (fst (addInstance_datas modelIdx partIdx datas grp))
| op_addInstance_data (grp : ModelGroup) (modelIdx partIdx : Z)
    (data : InstanceData.t) :
    operated components grp ->
    operated components (fst (addInstance_data modelIdx partIdx data grp))
| op_addInstance_modelMat (grp grp' : ModelGroup) (modelIdx partIdx : Z)
    (modelMat : list float) (idx : Z) :
    operated components grp ->
    addInstance_modelMat modelIdx partIdx modelMat grp = Some (grp', idx) ->
    operated components grp'
| op_prepare (grp : ModelGroup) :
    operated components grp ->
    operated components (fst (fst (prepare grp)))
| op_buildInstanceBuffer (grp : ModelGroup) :
    operated components grp ->
    operated components (fst (fst (buildInstanceBuffer grp)))
| op_buildMaterialBuffer (grp : ModelGroup) :
    operated components grp ->
    operated components (fst (fst (buildMaterialBuffer grp))).

Definition black : aiColor3D.t := aiColor3D.mk F32.zero F32.zero F32.zero.

Definition isPrint (e : Event) : Prop :=
  match e with
  | PrintErrorParsing _ _ | PrintMaterialMap _ _ _ => True
  | _ => False
  end.

(** The four buffers that the staged upload asks the device for, [vBytes]
    and [iBytes] being the sizes asked for the vertex and index buffers. *)
Definition bufferRequests (vBytes iBytes : Z) : list Event :=
  [CreateBuffer vertexStaging vBytes;
   CreateBuffer indexStaging iBytes;
   CreateBuffer vertices vBytes;
   CreateBuffer indices iBytes].

(** ** Further notions: parts and their ranges *)

(** [count] elements of [l] from position [base]. *)
Definition slice {A : Type} (base count : nat) (l : list A) : list A :=
  firstn count (skipn base l).

(** The parts lie one after the other in the two shared buffers, the first
    at vertex [vb] and index [ib]. *)
Fixpoint PartsContiguous (vb ib : Z) (parts : list ModelPart.t) : Prop :=
  match parts with
  | [] => True
  | p :: parts' =>
      ModelPart.vertexBase p = vb /\
      ModelPart.indexBase p = ib /\
      0 <= ModelPart.vertexCount p /\
      0 <= ModelPart.indexCount p /\
      PartsContiguous (vb + ModelPart.vertexCount p)
        (ib + ModelPart.indexCount p) parts'
  end.

(** The element [j] of a per-vertex array of the importer; zero when the
    array is null or shorter. *)
Definition attributeAt (array : option (list aiVector3D.t)) (j : nat)
  : aiVector3D.t :=
  match array with
  | Some a => nth j a Zero3D
  | None => Zero3D
  end.

(** The floats of one layout component of vertex [j] of [mesh], [pPos]
    being its position and [pColor] the diffuse colour of the material of
    [mesh]: position and normal with the second coordinate negated;
    texture coordinates, tangent and bitangent zero when the mesh has
    none; padding zero. *)
Definition componentFloats (pColor : aiColor3D.t) (mesh : aiMesh.t) (j : nat)
    (pPos : aiVector3D.t) (component : Component) : list float :=
  let normal := attributeAt (aiMesh.mNormals mesh) j in
  let uv :=
    if aiMesh.HasTextureCoords0 mesh
    then attributeAt (aiMesh.mTextureCoords0 mesh) j else Zero3D in
  let tangent :=
    if aiMesh.HasTangentsAndBitangents mesh
    then attributeAt (aiMesh.mTangents mesh) j else Zero3D in
  let bitangent :=
    if aiMesh.HasTangentsAndBitangents mesh
    then attributeAt (aiMesh.mBitangents mesh) j else Zero3D in
  match component with
  | VERTEX_COMPONENT_POSITION =>
      [aiVector3D.x pPos; F32.opp (aiVector3D.y pPos); aiVector3D.z pPos]
  | VERTEX_COMPONENT_NORMAL =>
      [aiVector3D.x normal; F32.opp (aiVector3D.y normal);
       aiVector3D.z normal]
  | VERTEX_COMPONENT_COLOR =>
      [aiColor3D.r pColor; aiColor3D.g pColor; aiColor3D.b pColor]
  | VERTEX_COMPONENT_UV => [aiVector3D.x uv; aiVector3D.y uv]
  | VERTEX_COMPONENT_TANGENT =>
      [aiVector3D.x tangent; aiVector3D.y tangent; aiVector3D.z tangent]
  | VERTEX_COMPONENT_BITANGENT =>
      [aiVector3D.x bitangent; aiVector3D.y bitangent;
       aiVector3D.z bitangent]
  | VERTEX_COMPONENT_DUMMY_FLOAT => [F32.zero]
  | VERTEX_COMPONENT_DUMMY_VEC4 => [F32.zero; F32.zero; F32.zero; F32.zero]
  end.

(** The interleaved floats of vertex [j] of [mesh]. *)
Definition vertexFloats (components : list Component) (pColor : aiColor3D.t)
    (mesh : aiMesh.t) (j : nat) (pPos : aiVector3D.t) : list float :=
  flat_map (componentFloats pColor mesh j pPos) components.

(** The floats of the vertices [j], [j + 1], ... of [mesh], [vs] being
    their positions. *)
Fixpoint verticesFrom (components : list Component) (pColor : aiColor3D.t)
    (mesh : aiMesh.t) (j : nat) (vs : list aiVector3D.t) : list float :=
  match vs with
  | [] => []
  | pPos :: vs' =>
      vertexFloats components pColor mesh j pPos
      ++ verticesFrom components pColor mesh (S j) vs'
  end.

(** The diffuse colour of the material that [mesh] names in [pScene];
    black when the material has none. *)
Definition meshColour (pScene : aiScene.t) (mesh : aiMesh.t) : aiColor3D.t :=
  match at_ (aiScene.mMaterials pScene) (aiMesh.mMaterialIndex mesh) with
  | Some {| aiMaterial.COLOR_DIFFUSE := Some colour |} => colour
  | _ => black
  end.

(** The floats of all vertices of [mesh], in order. *)
Definition meshFloats (components : list Component) (pScene : aiScene.t)
    (mesh : aiMesh.t) : list float :=
  verticesFrom components (meshColour pScene mesh) mesh 0
    (aiMesh.mVertices mesh).

(** The ranges of [part] in the buffers hold the geometry of [mesh]: the
    index range its three-index faces, the vertex range the floats of its
    vertices; and the material index of [part] is the place of the
    material of [mesh] in the shared list, [materialOffset] being the
    place of the first material of the asset. *)
Definition PartAddresses (components : list Component) (materialOffset : Z)
    (pScene : aiScene.t) (vertexBuffer : list float) (indexBuffer : list Z)
    (part : ModelPart.t) (mesh : aiMesh.t) : Prop :=
  ModelPart.vertexCount part = aiMesh.mNumVertices mesh /\
  ModelPart.indexCount part = 3 * numTriangles (aiMesh.mFaces mesh) /\
  ModelPart.materialIdx part
  = wrap32 (aiMesh.mMaterialIndex mesh + materialOffset) /\
  slice (Z.to_nat (ModelPart.indexBase part))
    (Z.to_nat (ModelPart.indexCount part)) indexBuffer
  = triangleIndices (aiMesh.mFaces mesh) /\
  slice (Z.to_nat (ModelPart.vertexBase part) * floatsPerVertex components)
    (Z.to_nat (ModelPart.vertexCount part) * floatsPerVertex components)
    vertexBuffer
  = meshFloats components pScene mesh.

(** Every index stored in the range of a part is the place, in the shared
    vertex buffer, of a vertex of that part. *)
Definition indicesGlobal (grp : ModelGroup) : bool :=
  forallb
    (fun part =>
       forallb
         (fun k =>
            (ModelPart.vertexBase part <=? k)
            && (k <? ModelPart.vertexBase part + ModelPart.vertexCount part))
         (slice (Z.to_nat (ModelPart.indexBase part))
            (Z.to_nat (ModelPart.indexCount part)) (indexBuffer grp)))
    (allParts (models grp)).

(** The indices of [part] are those of [mesh], counted from the first
    vertex of [mesh]: the index range of [part] holds the three-index
    faces of [mesh] as the importer gives them, and vertex [k] of [mesh]
    is at place [vertexBase + k] of the shared vertex buffer. *)
Definition IndicesMeshLocal (components : list Component)
    (pScene : aiScene.t) (vertexBuffer : list float) (indexBuffer : list Z)
    (part : ModelPart.t) (mesh : aiMesh.t) : Prop :=
  slice (Z.to_nat (ModelPart.indexBase part))
    (Z.to_nat (ModelPart.indexCount part)) indexBuffer
  = triangleIndices (aiMesh.mFaces mesh) /\
  forall k pPos,
    nth_error (aiMesh.mVertices mesh) k = Some pPos ->
    slice ((Z.to_nat (ModelPart.vertexBase part) + k)
           * floatsPerVertex components)
      (floatsPerVertex components) vertexBuffer
    = vertexFloats components (meshColour pScene mesh) mesh k pPos.

(** The part's material index resolves to the material of its mesh, in the
    shared list of imported materials [aiMats] and, after packing from
    position [base] on, in the packed [mats]. *)
Definition MaterialResolves (pScene : aiScene.t) (aiMats : list aiMaterial.t)
    (mats : list Material.t) (base : nat) (mapDic : list string)
    (part : ModelPart.t) (mesh : aiMesh.t) : Prop :=
  exists mat,
    0 <= aiMesh.mMaterialIndex mesh /\
    nth_error (aiScene.mMaterials pScene)
      (Z.to_nat (aiMesh.mMaterialIndex mesh)) = Some mat /\
    nth_error aiMats (Z.to_nat (ModelPart.materialIdx part)) = Some mat /\
    nth_error mats (base + Z.to_nat (ModelPart.materialIdx part))
    = Some (packMaterial mapDic mat).

(** The coordinate is a number between [-FLT_MAX] and [FLT_MAX]. *)
Definition inRange (c : float) : Prop :=
  F32.leb (F32.opp F32.FLT_MAX) c = true /\ F32.leb c F32.FLT_MAX = true.

Definition positionInRange (p : aiVector3D.t) : Prop :=
  inRange (aiVector3D.x p) /\ inRange (aiVector3D.y p) /\
  inRange (aiVector3D.z p).

(** Some position has the coordinate [c]. *)
Definition attained (coord : aiVector3D.t -> float) (ps : list aiVector3D.t)
    (c : float) : Prop :=
  exists p, In p ps /\ c = coord p.

(** ** [Model::compareNoCase] ([VulkanModel.hpp]) *)

(** The value of a [char] read as [unsigned char]. *)
Definition byte (c : ascii) : Z := Z.of_N (N_of_ascii c).

(** [s.c_str ()] as a C function reads it: the text before the first
    NUL. *)
Fixpoint c_str (s : string) : string :=
  match s with
  | EmptyString => EmptyString
  | String c s' => if byte c =? 0 then EmptyString else String c (c_str s')
  end.

(** [tolower] of <ctype.h> in the "C" locale, the locale of a program that
    does not call [setlocale]. *)
Definition tolower (c : Z) : Z :=
  if (65 <=? c) && (c <=? 90) then c + 32 else c.

(** [strcasecmp] of <strings.h> on two C strings: the difference of the
    first pair of lower-cased bytes that differ, the terminator counting
    as 0. *)
Fixpoint strcasecmp (p1 p2 : string) : Z :=
  match p1, p2 with
  | EmptyString, EmptyString => 0
  | EmptyString, String c2 _ => 0 - tolower (byte c2)
  | String c1 _, EmptyString => tolower (byte c1) - 0
  | String c1 p1', String c2 p2' =>
      let result := tolower (byte c1) - tolower (byte c2) in
      if result =? 0 then strcasecmp p1' p2' else result
  end.

Definition compareNoCase (s1 s2 : string) : bool :=
  strcasecmp (c_str s1) (c_str s2) <=? 0.

(** The lower-cased bytes of the C string of [s]. *)
Definition lowered (s : string) : list Z :=
  map (fun c => tolower (byte c)) (list_ascii_of_string (c_str s)).

(** No byte of [s] is NUL. *)
Fixpoint terminatedText (s : string) : Prop :=
  match s with
  | EmptyString => True
  | String c s' => byte c <> 0 /\ terminatedText s'
  end.

(** ** [vks::Model] and [loadFromFile] ([VulkanModel.hpp])

    Only the non-Android branch is embedded.  The product of
    [pPos->x * scale.x + center.x] is rounded before the sum.  Of the calls
    that build the texture array, the image layout transitions, the memory
    allocations and the command buffer allocations are not recorded. *)

Definition fmul : float -> float -> float := SFmul F32.prec F32.emax.
Definition fadd : float -> float -> float := SFadd F32.prec F32.emax.

Module glm2.
Record vec2 : Type := mkvec2 { s : float; t : float }.
End glm2.

Module ModelCreateInfo.
Record t : Type := mk {
  center : glm.vec3;
  scale : glm.vec3;
  uvscale : glm2.vec2
}.
(** [ModelCreateInfo (float scale, float uvscale, float center)] *)
Definition of_floats (scale uvscale center : float) : t :=
  mk (glm.splat center) (glm.splat scale) (glm2.mkvec2 uvscale uvscale).
(** the values of [scale], [uvscale] and [center] when [createInfo] is
    null *)
Definition unit : t :=
  mk (glm.splat F32.zero) (glm.splat (F32.of_Z 1))
     (glm2.mkvec2 (F32.of_Z 1) (F32.of_Z 1)).
End ModelCreateInfo.

Module vksMaterial.
Record t : Type := mk {
  Ka : glm4.vec4;
  Kd : glm4.vec4;
  Ks : glm4.vec4;
  Ke : glm4.vec4;
  Ma : Z;
  Md : Z;
  Me : Z;
  Ns : float;
  Ni : float;
  d : float;
  pad1 : float;
  pad2 : float
}.
(** the element that [materials.resize] inserts: the struct has no
    initialisers and is value-initialised *)
Definition zeroed : t :=
  mk glm4.zero glm4.zero glm4.zero glm4.zero 0 0 0
     F32.zero F32.zero F32.zero F32.zero F32.zero.
End vksMaterial.

Module Texture2DArray.
Record t : Type := mk {
  layerCount : Z;
  width : Z;
  height : Z;
  mipLevels : Z
}.
End Texture2DArray.

Module vksModel.
(** [device] is whether the handle is set; [texArray] is [None] until
    [loadFromFile] fills it. *)
Record t : Type := mk {
  device : bool;
  indexCount : Z;
  vertexCount : Z;
  materials : list vksMaterial.t;
  texArray : option Texture2DArray.t;
  parts : list ModelPart.t;
  dim : Dimension.t
}.
(** the default member initialisers *)
Definition init : t := mk false 0 0 [] None [] Dimension.init.
End vksModel.

(** The calls of [loadFromFile]: those that it shares with [ModelGroup],
    and those on the texture array and the staging buffers, which are
    created from host data. *)
Inductive LoadEvent : Type :=
| Did (e : Event)
| CreateImage (arrayLayers mipLevels width height : Z)
| LoadStbLinearNoSampling (path : string)
| BlitFromTexture (baseArrayLayer dstWidth dstHeight : Z)
| DestroyTextureImage
| BlitMip (baseArrayLayer srcMipLevel dstMipLevel : Z)
    (srcWidth srcHeight dstWidth dstHeight : Z)
| CreateSampler (maxLod : Z)
| CreateImageView (layerCount levelCount : Z)
| CreateVertexStaging (size : Z) (data : list float)
| CreateIndexStaging (size : Z) (data : list Z).

(** [floor (log2 (std::max (width, height))) + 1] *)
Definition mipLevelsOf (width height : Z) : Z :=
  Z.log2 (Z.max width height) + 1.

(** [for (int32_t i = 1; i < texArray.mipLevels; i++)]: the blit of level
    [i - 1] into level [i] of layer [l]. *)
Definition mipLoop (tex : Texture2DArray.t) (l : Z) : list LoadEvent :=
  map (fun i =>
         BlitMip l (i - 1) i
           (Z.shiftr (Texture2DArray.width tex) (i - 1))
           (Z.shiftr (Texture2DArray.height tex) (i - 1))
           (Z.shiftr (Texture2DArray.width tex) i)
           (Z.shiftr (Texture2DArray.height tex) i))
      (map Z.of_nat (seq 1 (Z.to_nat (Texture2DArray.mipLevels tex - 1)))).

(** [for (int l = 0; l < mapDic.size (); l++)]; [rest] holds
    [mapDic[l..]]. *)
Fixpoint layerLoop (tex : Texture2DArray.t) (rest : list string) (l : Z)
  : list LoadEvent :=
  match rest with
  | [] => []
  | path :: rest' =>
      [LoadStbLinearNoSampling path;
       BlitFromTexture l (Texture2DArray.width tex) (Texture2DArray.height tex);
       Did FlushCommandBuffer;
       DestroyTextureImage]
      ++ mipLoop tex l ++ [Did FlushCommandBuffer]
      ++ layerLoop tex rest' (l + 1)
  end.

(** The body of [if (mapDic.size () > 0)]. *)
Definition buildTextureArray (mapDic : list string)
  : Texture2DArray.t * list LoadEvent :=
  let texSize := 1024 in
  let tex :=
    Texture2DArray.mk (wrap32 (Z.of_nat (length mapDic))) texSize texSize
      (mipLevelsOf texSize texSize) in
  (tex,
   [CreateImage (Texture2DArray.layerCount tex) (Texture2DArray.mipLevels tex)
      (Texture2DArray.width tex) (Texture2DArray.height tex)]
   ++ layerLoop tex mapDic 0
   ++ [CreateSampler (Texture2DArray.mipLevels tex);
       CreateImageView (Texture2DArray.layerCount tex)
         (Texture2DArray.mipLevels tex)]).

(** The body of the loop over the materials: what slot [i] of [materials]
    holds after it.  [pColor] is one variable for the four colour
    queries. *)
Definition loadMaterial (mapDic : list string) (mat : aiMaterial.t)
  : vksMaterial.t :=
  let slot := vksMaterial.zeroed in
  let pColor := aiColor3D.mk F32.zero F32.zero F32.zero in
  let pColor := aiMaterial.GetColor (aiMaterial.COLOR_AMBIENT mat) pColor in
  let Ka := glm4.set_xyz (vksMaterial.Ka slot) pColor in
  let pColor := aiMaterial.GetColor (aiMaterial.COLOR_DIFFUSE mat) pColor in
  let Kd := glm4.set_xyz (vksMaterial.Kd slot) pColor in
  let pColor := aiMaterial.GetColor (aiMaterial.COLOR_SPECULAR mat) pColor in
  let Ks := glm4.set_xyz (vksMaterial.Ks slot) pColor in
  let pColor := aiMaterial.GetColor (aiMaterial.COLOR_EMISSIVE mat) pColor in
  let Ke := glm4.set_xyz (vksMaterial.Ke slot) pColor in
  let Ns := aiMaterial.Get (aiMaterial.SHININESS mat) (vksMaterial.Ns slot) in
  let mapFile := aiMaterial.GetTexture mat in
  let Md :=
    match std_find mapDic mapFile with
    | Some distance => wrap32 (Z.of_nat distance)
    | None => vksMaterial.Md slot
    end in
  vksMaterial.mk Ka Kd Ks Ke (vksMaterial.Ma slot) Md (vksMaterial.Me slot) Ns
    (vksMaterial.Ni slot) (vksMaterial.d slot) (vksMaterial.pad1 slot)
    (vksMaterial.pad2 slot).

(** The loop over the materials.  [materials] was resized to the number of
    materials and slot [i] is assigned in iteration [i]: the slots assigned
    so far are kept as a list that the iteration extends. *)
Fixpoint loadMaterials (mapDic : list string) (mats : list aiMaterial.t)
    (i : Z) (materials : list vksMaterial.t) (out : list Event)
  : list vksMaterial.t * list Event :=
  match mats with
  | [] => (materials, out)
  | mat :: mats' =>
      loadMaterials mapDic mats' (i + 1)
        (materials ++ [loadMaterial mapDic mat])
        (out ++ printMaterial mapDic i mat)
  end.

(** One [case] of the [switch] over the layout components. *)
Definition pushScaled (createInfo : ModelCreateInfo.t) (component : Component)
    (pPos : aiVector3D.t)
    (pNormal pTexCoord pTangent pBiTangent : option aiVector3D.t)
    (pColor : aiColor3D.t) (vertexBuffer : list float) : option (list float) :=
  let scale := ModelCreateInfo.scale createInfo in
  let uvscale := ModelCreateInfo.uvscale createInfo in
  let center := ModelCreateInfo.center createInfo in
  match component with
  | VERTEX_COMPONENT_POSITION =>
      Some (vertexBuffer
            ++ [fadd (fmul (aiVector3D.x pPos) (glm.x scale)) (glm.x center);
                fadd (fmul (F32.opp (aiVector3D.y pPos)) (glm.y scale))
                  (glm.y center);
                fadd (fmul (aiVector3D.z pPos) (glm.z scale)) (glm.z center)])
  | VERTEX_COMPONENT_NORMAL =>
      n <- pNormal ;;
      Some (vertexBuffer ++ [aiVector3D.x n; F32.opp (aiVector3D.y n);
                             aiVector3D.z n])
  | VERTEX_COMPONENT_UV =>
      t <- pTexCoord ;;
      Some (vertexBuffer ++ [fmul (aiVector3D.x t) (glm2.s uvscale);
                             fmul (aiVector3D.y t) (glm2.t uvscale)])
  | VERTEX_COMPONENT_COLOR =>
      Some (vertexBuffer ++ [aiColor3D.r pColor; aiColor3D.g pColor;
                             aiColor3D.b pColor])
  | VERTEX_COMPONENT_TANGENT =>
      t <- pTangent ;;
      Some (vertexBuffer ++ [aiVector3D.x t; aiVector3D.y t; aiVector3D.z t])
  | VERTEX_COMPONENT_BITANGENT =>
      t <- pBiTangent ;;
      Some (vertexBuffer ++ [aiVector3D.x t; aiVector3D.y t; aiVector3D.z t])
  | VERTEX_COMPONENT_DUMMY_FLOAT =>
      Some (vertexBuffer ++ [F32.zero])
  | VERTEX_COMPONENT_DUMMY_VEC4 =>
      Some (vertexBuffer ++ [F32.zero; F32.zero; F32.zero; F32.zero])
  end.

(** [for (auto& component : layout.components)] *)
Fixpoint scaledLayoutLoop (createInfo : ModelCreateInfo.t)
    (components : list Component) (pPos : aiVector3D.t)
    (pNormal pTexCoord pTangent pBiTangent : option aiVector3D.t)
    (pColor : aiColor3D.t) (vertexBuffer : list float) : option (list float) :=
  match components with
  | [] => Some vertexBuffer
  | component :: components' =>
      vertexBuffer' <- pushScaled createInfo component pPos pNormal pTexCoord
                         pTangent pBiTangent pColor vertexBuffer ;;
      scaledLayoutLoop createInfo components' pPos pNormal pTexCoord pTangent
        pBiTangent pColor vertexBuffer'
  end.

(** [for (unsigned int j = 0; j < paiMesh->mNumVertices; j++)]; [vs] holds
    [mVertices[j..]].  The position is folded into [dim] as the importer
    gives it. *)
Fixpoint scaledVertexLoop (createInfo : ModelCreateInfo.t)
    (components : list Component) (paiMesh : aiMesh.t)
    (pColor : aiColor3D.t) (vs : list aiVector3D.t) (j : nat)
    (vertexBuffer : list float) (dim : Dimension.t)
  : option (list float * Dimension.t) :=
  match vs with
  | [] => Some (vertexBuffer, dim)
  | pPos :: vs' =>
      let pNormal := aiMesh.elem (aiMesh.mNormals paiMesh) j in
      let pTexCoord :=
        if aiMesh.HasTextureCoords0 paiMesh
        then aiMesh.elem (aiMesh.mTextureCoords0 paiMesh) j
        else Some Zero3D in
      let pTangent :=
        if aiMesh.HasTangentsAndBitangents paiMesh
        then aiMesh.elem (aiMesh.mTangents paiMesh) j
        else Some Zero3D in
      let pBiTangent :=
        if aiMesh.HasTangentsAndBitangents paiMesh
        then aiMesh.elem (aiMesh.mBitangents paiMesh) j
        else Some Zero3D in
      vertexBuffer' <- scaledLayoutLoop createInfo components pPos pNormal
                         pTexCoord pTangent pBiTangent pColor vertexBuffer ;;
      scaledVertexLoop createInfo components paiMesh pColor vs' (S j)
        vertexBuffer' (foldPosition pPos dim)
  end.

Module Loading.
(** The local buffers and the members that the loop over the meshes
    updates. *)
Record t : Type := mk {
  vertexBuffer : list float;
  indexBuffer : list Z;
  vertexCount : Z;
  indexCount : Z;
  parts : list ModelPart.t;
  dim : Dimension.t
}.
End Loading.

(** The body of the loop over the meshes.  [parts] was resized to the
    number of meshes and slot [i] is assigned in iteration [i]: the parts
    assigned so far are kept as a list that the iteration extends. *)
Definition loadPart (components : list Component)
    (createInfo : ModelCreateInfo.t) (pScene : aiScene.t) (st : Loading.t)
    (paiMesh : aiMesh.t) : option Loading.t :=
  let part_vertexBase := Loading.vertexCount st in
  let part_indexBase := Loading.indexCount st in
  let part_materialIdx := aiMesh.mMaterialIndex paiMesh in
  let vertexCount' :=
    wrap32 (Loading.vertexCount st + aiMesh.mNumVertices paiMesh) in
  mat <- at_ (aiScene.mMaterials pScene) (aiMesh.mMaterialIndex paiMesh) ;;
  let pColor :=
    aiMaterial.GetColor (aiMaterial.COLOR_DIFFUSE mat)
      (aiColor3D.mk F32.zero F32.zero F32.zero) in
  '(vertexBuffer', dim') <-
     scaledVertexLoop createInfo components paiMesh pColor
       (aiMesh.mVertices paiMesh) 0 (Loading.vertexBuffer st)
       (Loading.dim st) ;;
  let dim'' :=
    Dimension.mk (Dimension.min dim') (Dimension.max dim')
      (Some (glm.sub (Dimension.max dim') (Dimension.min dim'))) in
  let part_vertexCount := aiMesh.mNumVertices paiMesh in
  let '(indexBuffer', part_indexCount, indexCount') :=
    faceLoop (aiMesh.mFaces paiMesh) (Loading.indexBuffer st) 0
      (Loading.indexCount st) in
  Some (Loading.mk vertexBuffer' indexBuffer' vertexCount' indexCount'
          (Loading.parts st ++
             [ModelPart.mk part_vertexBase part_vertexCount part_indexBase
                part_indexCount part_materialIdx])
          dim'').

(** [for (unsigned int i = 0; i < pScene->mNumMeshes; i++)] *)
Fixpoint partLoop (components : list Component)
    (createInfo : ModelCreateInfo.t) (pScene : aiScene.t)
    (meshes : list aiMesh.t) (st : Loading.t) : option Loading.t :=
  match meshes with
  | [] => Some st
  | paiMesh :: meshes' =>
      st' <- loadPart components createInfo pScene st paiMesh ;;
      partLoop components createInfo pScene meshes' st'
  end.

(** Modelled from the spec: [VulkanDevice::createBuffer] is not among the
    sources; buffer creation by the device resource manager is taken to
    give a buffer of the size asked for, which the [size] field that the
    two copies read then holds.  The staged upload of the local buffers. *)
Definition stagedCopy (vertexBuffer : list float) (indexBuffer : list Z)
  : list LoadEvent :=
  let vBufferSize :=
    wrap32 (wrap32 (Z.of_nat (length vertexBuffer)) * sizeof_float) in
  let iBufferSize :=
    wrap32 (wrap32 (Z.of_nat (length indexBuffer)) * 4) in
  [CreateVertexStaging vBufferSize vertexBuffer;
   CreateIndexStaging iBufferSize indexBuffer;
   Did (CreateBuffer vertices vBufferSize);
   Did (CreateBuffer indices iBufferSize);
   Did (CmdCopyBuffer vertexStaging vertices vBufferSize);
   Did (CmdCopyBuffer indexStaging indices iBufferSize);
   Did FlushCommandBuffer;
   Did (DestroyBuffer vertexStaging);
   Did (DestroyBuffer indexStaging)].

(** [loadFromFile (filename, layout, createInfo, device, copyQueue,
    flags)], given what [Importer.ReadFile] returned.  The result is the
    model, the returned [bool] and the console output and device calls in
    order; [None] is a fault.  Device calls are taken to succeed
    ([VK_CHECK_RESULT]). *)
Definition loadFromFile (filename : string) (components : list Component)
    (createInfo : option ModelCreateInfo.t) (pScene : ReadFile)
    (model : vksModel.t) : option (vksModel.t * bool * list LoadEvent) :=
  match pScene with
  | Scene pScene =>
      let mapDic := mapDicLoop (aiScene.mMaterials pScene) [] in
      let '(texArray', texEvents) :=
        if 0 <? Z.of_nat (length mapDic)
        then let '(tex, events) := buildTextureArray mapDic in
             (Some tex, events)
        else (vksModel.texArray model, []) in
      let createInfo' :=
        match createInfo with
        | Some info => info
        | None => ModelCreateInfo.unit
        end in
      let '(materials', out) :=
        loadMaterials mapDic (aiScene.mMaterials pScene) 0 [] [] in
      st <- partLoop components createInfo' pScene (aiScene.mMeshes pScene)
              (Loading.mk [] [] 0 0 [] (vksModel.dim model)) ;;
      Some (vksModel.mk true (Loading.indexCount st) (Loading.vertexCount st)
              materials' texArray' (Loading.parts st) (Loading.dim st),
            true,
            texEvents ++ map Did out
            ++ stagedCopy (Loading.vertexBuffer st) (Loading.indexBuffer st))
  | Null errorString =>
      Some (vksModel.mk true (vksModel.indexCount model)
              (vksModel.vertexCount model) (vksModel.materials model)
              (vksModel.texArray model) (vksModel.parts model)
              (vksModel.dim model),
            false,
            [Did (PrintErrorParsing filename errorString)])
  end.

(** [loadFromFile (filename, layout, float scale, device, copyQueue,
    flags)] *)
Definition loadFromFile_scale (filename : string)
    (components : list Component) (scale : float) (pScene : ReadFile)
    (model : vksModel.t) : option (vksModel.t * bool * list LoadEvent) :=
  loadFromFile filename components
    (Some (ModelCreateInfo.of_floats scale (F32.of_Z 1) F32.zero)) pScene
    model.

(** ** Notions used to state the properties of [loadFromFile] *)

(** Both computations fault, or both return and the results are related. *)
Definition agree {A B : Type} (R : A -> B -> Prop) (x : option A)
    (y : option B) : Prop :=
  match x, y with
  | Some a, Some b => R a b
  | None, None => True
  | _, _ => False
  end.

(** Two states of the loop over the meshes that differ at most in the
    contents of the vertex buffer and in the box. *)
Definition SameGeometry (st1 st2 : Loading.t) : Prop :=
  length (Loading.vertexBuffer st1) = length (Loading.vertexBuffer st2) /\
  Loading.indexBuffer st1 = Loading.indexBuffer st2 /\
  Loading.vertexCount st1 = Loading.vertexCount st2 /\
  Loading.indexCount st1 = Loading.indexCount st2 /\
  Loading.parts st1 = Loading.parts st2.

(** Two states of the loop over the meshes that differ at most in the
    box. *)
Definition SameButBox (st1 st2 : Loading.t) : Prop :=
  Loading.vertexBuffer st1 = Loading.vertexBuffer st2 /\
  Loading.indexBuffer st1 = Loading.indexBuffer st2 /\
  Loading.vertexCount st1 = Loading.vertexCount st2 /\
  Loading.indexCount st1 = Loading.indexCount st2 /\
  Loading.parts st1 = Loading.parts st2.

(** [vb1'] has grown from [vb1] by as much as [vb2'] from [vb2]. *)
Definition sameGrowth (vb1 vb2 vb1' vb2' : list float) : Prop :=
  (length vb1' + length vb2 = length vb2' + length vb1)%nat.

(** The group and model that [addModel] works on and the state of
    [loadFromFile] agree on all but the contents of the vertex buffer. *)
Definition Shadows (components : list Component)
    (acc : ModelGroup * Model.t) (st : Loading.t) : Prop :=
  layout (fst acc) = components /\
  length (vertexBuffer (fst acc)) = length (Loading.vertexBuffer st) /\
  indexBuffer (fst acc) = Loading.indexBuffer st /\
  vertexCount (fst acc) = Loading.vertexCount st /\
  indexCount (fst acc) = Loading.indexCount st /\
  Model.parts (snd acc) = Loading.parts st /\
  Model.dim (snd acc) = Loading.dim st.

(** The paths of the images loaded, in the order of the calls. *)
Definition layerPaths (trace : list LoadEvent) : list string :=
  flat_map (fun e => match e with
                     | LoadStbLinearNoSampling path => [path]
                     | _ => []
                     end) trace.

(** The array layers that the loaded images are blitted to, in the order
    of the calls. *)
Definition blitLayers (trace : list LoadEvent) : list Z :=
  flat_map (fun e => match e with
                     | BlitFromTexture l _ _ => [l]
                     | _ => []
                     end) trace.

Definition isTextureCall (e : LoadEvent) : bool :=
  match e with
  | CreateImage _ _ _ _ | LoadStbLinearNoSampling _ | BlitFromTexture _ _ _
  | DestroyTextureImage | BlitMip _ _ _ _ _ _ _ | CreateSampler _
  | CreateImageView _ _ => true
  | _ => false
  end.

(** The counts of [part] are those of [mesh], its material index is the
    one that [mesh] names, and its index range in [indexData] holds the
    three-index faces of [mesh]. *)
Definition PartStaged (indexData : list Z) (part : ModelPart.t)
    (mesh : aiMesh.t) : Prop :=
  ModelPart.vertexCount part = aiMesh.mNumVertices mesh /\
  ModelPart.indexCount part = 3 * numTriangles (aiMesh.mFaces mesh) /\
  ModelPart.materialIdx part = aiMesh.mMaterialIndex mesh /\
  slice (Z.to_nat (ModelPart.indexBase part))
    (Z.to_nat (ModelPart.indexCount part)) indexData
  = triangleIndices (aiMesh.mFaces mesh).

(** ** Further example data *)

(** [pointGroup] with one instance placed through its transform. *)
Definition placedGroup : ModelGroup :=
  match addInstance_modelMat 0 0 [] pointGroup with
  | Some (grp, _) => grp
  | None => pointGroup
  end.

(** A scene whose mesh names a material that the scene does not have. *)
Definition brokenScene : aiScene.t :=
  aiScene.mk [plainMaterial]
    [aiMesh.mk [vec 1 2 3] (Some [vec 0 1 0]) None None None [] 5].

(** [exampleScene] loaded into a new [vks::Model] with no [createInfo]. *)
Definition exampleModel : vksModel.t :=
  match loadFromFile "scene.obj" defaultLayout None (Scene exampleScene)
          vksModel.init with
  | Some (model, _, _) => model
  | None => vksModel.init
  end.

Definition exampleTrace : list LoadEvent :=
  match loadFromFile "scene.obj" defaultLayout None (Scene exampleScene)
          vksModel.init with
  | Some (_, _, trace) => trace
  | None => []
  end.

(** [pointScene] loaded into a new model and [exampleScene] loaded over
    it. *)
Definition pointModel : vksModel.t :=
  match loadFromFile "point.obj" defaultLayout None (Scene pointScene)
          vksModel.init with
  | Some (model, _, _) => model
  | None => vksModel.init
  end.

Definition pointTrace : list LoadEvent :=
  match loadFromFile "point.obj" defaultLayout None (Scene pointScene)
          vksModel.init with
  | Some (_, _, trace) => trace
  | None => []
  end.

Definition reloadedModel : vksModel.t :=
  match loadFromFile "scene.obj" defaultLayout None (Scene exampleScene)
          pointModel with
  | Some (model, _, _) => model
  | None => pointModel
  end.


(** * Properties *)

(** ** Machine integers *)

Lemma wrap32_small (n : Z) : 0 <= n < 2 ^ 32 -> wrap32 n = n.
Proof. intros H. unfold U32.wrap, U32.modulus. apply Z.mod_small. exact H. Qed.

Lemma wrap32_range (n : Z) : 0 <= wrap32 n < 2 ^ 32.
Proof. unfold U32.wrap, U32.modulus. apply Z.mod_pos_bound. lia. Qed.

(** ** Draw batching *)

Lemma differs_false (m p : Z) (d : DrawCommand.t) :
  DrawCommand.differs m p d = false -> d = DrawCommand.mk m p.
Proof.
  unfold DrawCommand.differs. destruct d as [dm dp]; simpl.
  intros H. apply orb_false_elim in H. destruct H as [H1 H2].
  apply negb_false_iff in H1, H2. apply Z.eqb_eq in H1, H2. congruence.
Qed.

Lemma differs_true (m p : Z) (d : DrawCommand.t) :
  DrawCommand.differs m p d = true -> DrawCommand.mk m p <> d.
Proof.
  unfold DrawCommand.differs. destruct d as [dm dp]; simpl.
  intros H E. injection E as -> ->. rewrite !Z.eqb_refl in H. discriminate.
Qed.

Lemma differs_self (d : DrawCommand.t) :
  DrawCommand.differs (DrawCommand.modelIndex d) (DrawCommand.partIndex d) d
  = false.
Proof. unfold DrawCommand.differs. now rewrite !Z.eqb_refl. Qed.

Lemma differs_neq (m p : Z) (d : DrawCommand.t) :
  DrawCommand.mk m p <> d -> DrawCommand.differs m p d = true.
Proof.
  intros H. destruct (DrawCommand.differs m p d) eqn:E; [reflexivity|].
  apply differs_false in E. congruence.
Qed.

(** The first run of a non-empty sequence carries the key of its head. *)
Lemma runsFrom_head (s : nat) (d : DrawCommand.t) (l : list DrawCommand.t) :
  exists r rs, runsFrom s (d :: l) = r :: rs /\ run_key r = d /\ run_start r = s.
Proof.
  simpl. destruct (runsFrom (S s) l) as [|r rs] eqn:E.
  - eexists _, _. split; [reflexivity|]. destruct d; split; reflexivity.
  - destruct (DrawCommand.differs (run_model r) (run_part r) d) eqn:D.
    + eexists _, _. split; [reflexivity|]. destruct d; split; reflexivity.
    + eexists _, _. split; [reflexivity|]. apply differs_false in D.
      subst d. split; reflexivity.
Qed.

Lemma runsFrom_repeat (k : DrawCommand.t) (c : nat) :
  forall (off : nat) (l : list DrawCommand.t),
    match l with [] => True | d :: _ => k <> d end ->
    runsFrom off (repeat k (S c) ++ l)
    = mkRun (DrawCommand.modelIndex k) (DrawCommand.partIndex k) off (S c)
      :: runsFrom (off + S c) l.
Proof.
  induction c as [|c IH]; intros off l Hl.
  - change (repeat k 1 ++ l) with (k :: l).
    replace (off + 1)%nat with (S off) by lia.
    destruct l as [|d rest].
    + reflexivity.
    + destruct (runsFrom_head (S off) d rest) as (r & rs & E & Hk & _).
      cbn [runsFrom] in E |- *. rewrite E.
      rewrite differs_neq; [reflexivity|].
      unfold run_key in Hk. rewrite Hk. congruence.
  - change (repeat k (S (S c)) ++ l) with (k :: (repeat k (S c) ++ l)).
    cbn [runsFrom]. rewrite (IH (S off) l Hl). cbn [run_model run_part run_len].
    rewrite differs_self. f_equal. f_equal. lia.
Qed.

Lemma runsFrom_expand (l : list DrawCommand.t) :
  forall s, expand (runsFrom s l) = l.
Proof.
  induction l as [|d l IH]; intros s; [reflexivity|].
  cbn [runsFrom]. specialize (IH (S s)).
  destruct (runsFrom (S s) l) as [|r rs].
  - simpl in IH. subst l. destruct d; reflexivity.
  - destruct (DrawCommand.differs (run_model r) (run_part r) d) eqn:D.
    + rewrite <- IH. destruct d; reflexivity.
    + apply differs_false in D. rewrite <- IH. subst d. reflexivity.
Qed.

Lemma runsFrom_positive (l : list DrawCommand.t) :
  forall s, Forall (fun r => (0 < run_len r)%nat) (runsFrom s l).
Proof.
  induction l as [|d l IH]; intros s; [constructor|].
  cbn [runsFrom]. specialize (IH (S s)).
  destruct (runsFrom (S s) l) as [|r rs].
  - constructor; [simpl; lia|constructor].
  - destruct (DrawCommand.differs (run_model r) (run_part r) d).
    + constructor; [simpl; lia|exact IH].
    + inversion IH; subst. constructor; [simpl; lia|assumption].
Qed.

Lemma runsFrom_starts (l : list DrawCommand.t) :
  forall s, startsFrom s (runsFrom s l).
Proof.
  induction l as [|d l IH]; intros s; [exact I|].
  cbn [runsFrom]. specialize (IH (S s)).
  destruct (runsFrom (S s) l) as [|r rs].
  - simpl. auto.
  - destruct (DrawCommand.differs (run_model r) (run_part r) d).
    + simpl. split; [reflexivity|]. replace (s + 1)%nat with (S s) by lia.
      exact IH.
    + simpl in IH |- *. destruct IH as [Hs IH]. split; [reflexivity|].
      replace (s + S (run_len r))%nat with (S s + run_len r)%nat by lia.
      rewrite <- Hs at 1. rewrite Hs. exact IH.
Qed.

Lemma runsFrom_distinct (l : list DrawCommand.t) :
  forall s, adjacentDistinct (runsFrom s l).
Proof.
  induction l as [|d l IH]; intros s; [exact I|].
  cbn [runsFrom]. specialize (IH (S s)).
  destruct (runsFrom (S s) l) as [|r rs].
  - exact I.
  - destruct (DrawCommand.differs (run_model r) (run_part r) d) eqn:D.
    + split; [|exact IH]. apply differs_true in D.
      unfold run_key; simpl. destruct d as [dm dp]; simpl.
      intros E. apply D. symmetry. exact E.
    + destruct rs as [|r2 rs']; [exact I|]. exact IH.
Qed.

Lemma runs_maximal (l : list DrawCommand.t) : MaximalRuns l (runs l).
Proof.
  unfold MaximalRuns, runs.
  auto using runsFrom_expand, runsFrom_positive, runsFrom_starts,
    runsFrom_distinct.
Qed.

Lemma expand_head (r : Run) (rs : list Run) :
  (0 < run_len r)%nat ->
  exists tl, expand (r :: rs) = run_key r :: tl.
Proof.
  intros H. unfold expand. cbn [flat_map].
  destruct (run_len r) as [|c]; [lia|]. cbn [repeat app]. eauto.
Qed.

(** The cut of a sequence into maximal runs is unique. *)
Lemma MaximalRuns_unique (rs : list Run) :
  forall (s : nat),
    Forall (fun r => (0 < run_len r)%nat) rs ->
    startsFrom s rs ->
    adjacentDistinct rs ->
    rs = runsFrom s (expand rs).
Proof.
  induction rs as [|r rs IH]; intros s Hpos Hst Hadj; [reflexivity|].
  inversion Hpos as [|? ? Hr Hrs]; subst. destruct Hst as [Hs Hst].
  assert (Htl : adjacentDistinct rs) by (destruct rs; [exact I|apply Hadj]).
  specialize (IH _ Hrs Hst Htl).
  unfold expand at 1. cbn [flat_map]. fold (expand rs).
  destruct (run_len r) as [|c] eqn:Hc; [lia|].
  rewrite runsFrom_repeat.
  - rewrite <- IH. destruct r as [m p st len]. cbn in *. subst. reflexivity.
  - destruct rs as [|r2 rs']; [exact I|].
    inversion Hrs as [|? ? Hr2 _]; subst.
    destruct (expand_head r2 rs' Hr2) as [tl ->]. apply Hadj.
Qed.

Lemma repeat_shift {A : Type} (a : A) (c : nat) (l : list A) :
  repeat a c ++ a :: l = repeat a (S c) ++ l.
Proof.
  induction c as [|c IH]; [reflexivity|]. simpl. f_equal. exact IH.
Qed.

Lemma drawPart_valid (models : list Model.t) (m p c off : Z)
    (cmdBuff : CommandBuffer) :
  partAt models m p <> None ->
  exists q,
    partAt models m p = Some q /\
    drawPart models m p c off cmdBuff
    = (cmdBuff ++ [mkDraw (ModelPart.indexCount q) c (ModelPart.indexBase q)
                          (U32.to_int32 (ModelPart.vertexBase q)) off],
       Completed).
Proof.
  intros H. unfold drawPart. destruct (partAt models m p) as [q|].
  - exists q. split; reflexivity.
  - contradiction.
Qed.

(** Loop invariant: with a pending run of [c >= 1] instances of key [k]
    starting at [off], the loop followed by the final flush records the
    draws of the runs of the pending run followed by the rest. *)
Lemma drawLoop_runs (models : list Model.t) :
  forall (rest : list DrawCommand.t) (k : DrawCommand.t) (c off : nat)
         (cmdBuff : CommandBuffer),
    Z.of_nat (off + S c + length rest) < 2 ^ 31 ->
    refsValid models (k :: rest) ->
    exists ds,
      flushLastRun models
        (drawLoop models rest (Z.of_nat (off + S c))
           (mkBatch (DrawCommand.modelIndex k) (DrawCommand.partIndex k)
                    (Z.of_nat (S c)) (Z.of_nat off))
           cmdBuff)
      = (cmdBuff ++ ds, Completed) /\
      Forall2 (DrawOfRun models) ds (runsFrom off (repeat k (S c) ++ rest)).
Proof.
  induction rest as [|d rest IH]; intros k c off cmdBuff Hlen Hval.
  - cbn [drawLoop flushLastRun instCount modIdx partIdx instOffset].
    replace (Z.of_nat (S c) =? 0) with false by (symmetry; apply Z.eqb_neq; lia).
    inversion Hval as [|? ? Hk _]; subst.
    destruct (drawPart_valid models _ _ (Z.of_nat (S c)) (Z.of_nat off)
                cmdBuff Hk) as (q & Hq & ->).
    eexists. split; [reflexivity|].
    rewrite (runsFrom_repeat k c off [] I). cbn [runsFrom].
    constructor; [|constructor]. exists q. split; [exact Hq|reflexivity].
  - inversion Hval as [|? ? Hk Hrest]; subst.
    cbn [drawLoop modIdx partIdx instCount instOffset].
    cbn [length] in Hlen.
    destruct (DrawCommand.differs (DrawCommand.modelIndex k)
                (DrawCommand.partIndex k) d) eqn:D.
    + destruct (drawPart_valid models _ _ (Z.of_nat (S c)) (Z.of_nat off)
                  cmdBuff Hk) as (q & Hq & ->).
      rewrite (wrap32_small (0 + 1)) by lia.
      rewrite (wrap32_small (Z.of_nat (off + S c))) by lia.
      replace (Z.of_nat (off + S c) + 1)
        with (Z.of_nat ((off + S c) + 1)) by lia.
      change (0 + 1) with (Z.of_nat 1).
      destruct (IH d 0%nat (off + S c)%nat
                  (cmdBuff ++ [mkDraw (ModelPart.indexCount q) (Z.of_nat (S c))
                                 (ModelPart.indexBase q)
                                 (U32.to_int32 (ModelPart.vertexBase q))
                                 (Z.of_nat off)]))
        as (ds & Hds & Hruns); [lia|exact Hrest|].
      rewrite Hds. eexists. split; [rewrite <- app_assoc; reflexivity|].
      rewrite (runsFrom_repeat k c off (d :: rest)).
      * constructor; [|exact Hruns]. exists q. split; [exact Hq|reflexivity].
      * apply differs_true in D. destruct k. exact D.
    + apply differs_false in D.
      assert (d = k) by (destruct k; exact D). clear D. subst d.
      rewrite (wrap32_small (Z.of_nat (S c) + 1)) by lia.
      replace (Z.of_nat (off + S c) + 1)
        with (Z.of_nat (off + S (S c))) by lia.
      replace (Z.of_nat (S c) + 1) with (Z.of_nat (S (S c))) by lia.
      destruct (IH k (S c) off cmdBuff) as (ds & Hds & Hruns);
        [lia|constructor; [exact Hk|exact (Forall_inv_tail Hrest)]|].
      exists ds. split; [exact Hds|]. rewrite repeat_shift. exact Hruns.
Qed.

Lemma buildCommandBuffer_runs (models : list Model.t)
    (instances : list DrawCommand.t) (cmdBuff : CommandBuffer) :
  Z.of_nat (length instances) < 2 ^ 31 ->
  refsValid models instances ->
  exists ds,
    fst (buildCommandBuffer models instances cmdBuff) = cmdBuff ++ ds /\
    Forall2 (DrawOfRun models) ds (runs instances) /\
    (instances <> [] ->
     snd (buildCommandBuffer models instances cmdBuff) = Completed).
Proof.
  intros Hlen Hval. destruct instances as [|d rest].
  - exists []. cbn. rewrite app_nil_r. repeat split; [constructor|congruence].
  - unfold buildCommandBuffer. change (at_ (d :: rest) 0) with (Some d).
    cbn [drawLoop modIdx partIdx instCount instOffset].
    rewrite differs_self. rewrite (wrap32_small (0 + 1)) by lia.
    cbn [length] in Hlen.
    destruct (drawLoop_runs models rest d 0%nat 0%nat cmdBuff)
      as (ds & Hds & Hruns); [lia|exact Hval|].
    change (Z.of_nat (0 + 1)) with (0 + 1) in Hds.
    change (Z.of_nat 1) with (0 + 1) in Hds. change (Z.of_nat 0) with 0 in Hds.
    rewrite Hds. exists ds. repeat split; assumption.
Qed.

Lemma Forall2_length3 {A B : Type} (R : A -> B -> Prop) (ds : list A) (b1 b2 b3 : B) :
  Forall2 R ds [b1; b2; b3] ->
  exists d1 d2 d3, ds = [d1; d2; d3] /\ R d1 b1 /\ R d2 b2 /\ R d3 b3.
Proof.
  intros H. inversion H as [|d1 ? t1 ? H1 T1]; subst.
  inversion T1 as [|d2 ? t2 ? H2 T2]; subst.
  inversion T2 as [|d3 ? t3 ? H3 T3]; subst.
  inversion T3; subst. exists d1, d2, d3. auto.
Qed.

(** C1. For every instance sequence of fewer than 2^31 entries (the loop
    counter is an [int]) whose entries refer to loaded parts,
    [buildCommandBuffer] records, after the commands already in the buffer,
    exactly one indexed draw per maximal contiguous run of equal
    (model, part) keys, in order, with the geometry of the run's part, the
    run length as instance count and the run's starting offset as first
    instance; runs are never merged across a different key.  For a non-empty
    sequence the function completes.  For [k0; k0; k1; k0] with [k0 <> k1]
    these are three draws with instance counts 2, 1, 1 and first instances
    0, 2, 3. *)
Theorem buildCommandBuffer_one_draw_per_run
    (models : list Model.t) (instances : list DrawCommand.t)
    (cmdBuff : CommandBuffer) :
  Z.of_nat (length instances) < 2 ^ 31 ->
  refsValid models instances ->
  MaximalRuns instances (runs instances) /\
  (exists ds,
      fst (buildCommandBuffer models instances cmdBuff) = cmdBuff ++ ds /\
      Forall2 (DrawOfRun models) ds (runs instances) /\
      (forall k0 k1, instances = [k0; k0; k1; k0] -> k0 <> k1 ->
         map di_instanceCount ds = [2; 1; 1] /\
         map di_firstInstance ds = [0; 2; 3])) /\
  (instances <> [] ->
   snd (buildCommandBuffer models instances cmdBuff) = Completed).
Proof.
  intros Hlen Hval. split; [apply runs_maximal|].
  destruct (buildCommandBuffer_runs models instances cmdBuff Hlen Hval)
    as (ds & Hds & Hruns & Hdone).
  split; [|exact Hdone]. exists ds. split; [exact Hds|]. split; [exact Hruns|].
  intros k0 k1 -> Hne.
  assert (E : runs [k0; k0; k1; k0]
              = [mkRun (DrawCommand.modelIndex k0) (DrawCommand.partIndex k0) 0 2;
                 mkRun (DrawCommand.modelIndex k1) (DrawCommand.partIndex k1) 2 1;
                 mkRun (DrawCommand.modelIndex k0) (DrawCommand.partIndex k0) 3 1]).
  { unfold runs. cbn [runsFrom run_model run_part run_len].
    rewrite (differs_neq _ _ k1) by (destruct k0; exact Hne).
    cbn [runsFrom run_model run_part run_len].
    rewrite (differs_neq _ _ k0)
      by (destruct k1; simpl; intros E; apply Hne; symmetry; exact E).
    cbn [runsFrom run_model run_part run_len].
    rewrite differs_self. reflexivity. }
  rewrite E in Hruns. apply Forall2_length3 in Hruns.
  destruct Hruns as (d1 & d2 & d3 & -> & (p1 & _ & ->) & (p2 & _ & ->)
                     & (p3 & _ & ->)).
  split; reflexivity.
Qed.

(** C2 (fails on the code). On an empty instance list [buildCommandBuffer]
    records no draw, but it reads [instances[0]] before the loop: the
    function faults on an out-of-range access instead of being a no-op. *)
Theorem buildCommandBuffer_empty_reads_out_of_bounds
    (models : list Model.t) (cmdBuff : CommandBuffer) :
  buildCommandBuffer models [] cmdBuff = (cmdBuff, OutOfBounds).
Proof. reflexivity. Qed.

(** ** Loading an asset *)

Lemma bind_Some {A B : Type} (m : option A) (k : A -> option B) (r : B) :
  bind m k = Some r -> exists a, m = Some a /\ k a = Some r.
Proof. destruct m as [a|]; simpl; [eauto|discriminate]. Qed.

Ltac inv_bind H :=
  let a := fresh "a" in
  let E := fresh "E" in
  apply bind_Some in H; destruct H as (a & E & H).

Lemma wrap32_add_l (a b : Z) : wrap32 (wrap32 a + b) = wrap32 (a + b).
Proof. unfold U32.wrap. apply Zplus_mod_idemp_l. Qed.

Lemma wrap32_idem (a : Z) : wrap32 (wrap32 a) = wrap32 a.
Proof. unfold U32.wrap. apply Zmod_mod. Qed.

Lemma pushComponent_part (component : Component) (pPos : aiVector3D.t)
    (pNormal pTexCoord pTangent pBiTangent : option aiVector3D.t)
    (pColor : aiColor3D.t) (vb vb' : list float) :
  pushComponent component pPos pNormal pTexCoord pTangent pBiTangent pColor vb
  = Some vb' ->
  exists part, vb' = vb ++ part /\ ComponentPart pPos component part.
Proof.
  unfold ComponentPart.
  destruct component; simpl; intros H;
    try inv_bind H; injection H as <-;
    (eexists; split; [reflexivity|split; [reflexivity|]]);
    try discriminate; reflexivity.
Qed.

Lemma layoutLoop_chunk (components : list Component) (pPos : aiVector3D.t)
    (pNormal pTexCoord pTangent pBiTangent : option aiVector3D.t)
    (pColor : aiColor3D.t) :
  forall vb vb',
    layoutLoop components pPos pNormal pTexCoord pTangent pBiTangent pColor vb
    = Some vb' ->
    exists chunk, vb' = vb ++ chunk /\ VertexChunk components pPos chunk.
Proof.
  induction components as [|c cs IH]; intros vb vb' H.
  - injection H as <-. exists []. split; [now rewrite app_nil_r|].
    exists []. split; [reflexivity|constructor].
  - cbn [layoutLoop] in H. inv_bind H.
    apply pushComponent_part in E. destruct E as (part & -> & Hpart).
    apply IH in H. destruct H as (chunk & -> & parts & -> & Hparts).
    exists (part ++ concat parts). split; [now rewrite app_assoc|].
    exists (part :: parts). split; [reflexivity|]. constructor; assumption.
Qed.

Lemma floatsOf_stride (components : list Component) :
  forall res,
    fold_left
      (fun res component =>
         match component with
         | VERTEX_COMPONENT_UV => wrap32 (res + 2 * sizeof_float)
         | VERTEX_COMPONENT_DUMMY_FLOAT => wrap32 (res + sizeof_float)
         | VERTEX_COMPONENT_DUMMY_VEC4 => wrap32 (res + 4 * sizeof_float)
         | _ => wrap32 (res + 3 * sizeof_float)
         end)
      components (wrap32 res)
    = wrap32 (res + sizeof_float * Z.of_nat (floatsPerVertex components)).
Proof.
  unfold floatsPerVertex, sizeof_float.
  induction components as [|c cs IH]; intros res.
  - cbn. f_equal. lia.
  - change (list_sum (map floatsOf (c :: cs)))
      with (floatsOf c + list_sum (map floatsOf cs))%nat.
    cbn [fold_left].
    destruct c; rewrite wrap32_add_l, IH; f_equal; cbn [floatsOf]; lia.
Qed.

(** [stride] is four bytes for each float that [pushComponent] pushes. *)
Lemma stride_floatsPerVertex (components : list Component) :
  stride components
  = wrap32 (sizeof_float * Z.of_nat (floatsPerVertex components)).
Proof. exact (floatsOf_stride components 0). Qed.

Lemma VertexChunk_length (components : list Component) (pPos : aiVector3D.t)
    (chunk : list float) :
  VertexChunk components pPos chunk ->
  length chunk = floatsPerVertex components.
Proof.
  intros (parts & -> & H). unfold floatsPerVertex.
  induction H as [|c part cs parts [Hlen _] _ IH]; [reflexivity|].
  simpl. rewrite length_app, Hlen, IH. reflexivity.
Qed.

Lemma chunks_length (components : list Component) (ps : list aiVector3D.t)
    (chunks : list (list float)) :
  Forall2 (VertexChunk components) ps chunks ->
  length (concat chunks) = (length ps * floatsPerVertex components)%nat.
Proof.
  induction 1 as [|p chunk ps chunks Hc _ IH]; [reflexivity|].
  simpl. rewrite length_app, IH, (VertexChunk_length _ _ _ Hc). reflexivity.
Qed.

Lemma vertexLoop_spec (components : list Component) (paiMesh : aiMesh.t)
    (pColor : aiColor3D.t) :
  forall vs j vb dim vb' dim',
    vertexLoop components paiMesh pColor vs j vb dim = Some (vb', dim') ->
    dim' = fold_left (fun d p => foldPosition p d) vs dim /\
    exists chunks,
      vb' = vb ++ concat chunks /\ Forall2 (VertexChunk components) vs chunks.
Proof.
  induction vs as [|pPos vs IH]; intros j vb dim vb' dim' H.
  - injection H as <- <-. split; [reflexivity|]. exists [].
    split; [now rewrite app_nil_r|constructor].
  - cbn [vertexLoop] in H. inv_bind H.
    apply layoutLoop_chunk in E. destruct E as (chunk & -> & Hchunk).
    apply IH in H. destruct H as (-> & chunks & -> & Hchunks).
    split; [reflexivity|]. exists (chunk :: chunks).
    split; [simpl; now rewrite app_assoc|]. constructor; assumption.
Qed.

Lemma triangle_indices (f : aiFace.t) :
  isTriangle f = true ->
  aiFace.mIndices f
  = [nth 0 (aiFace.mIndices f) 0; nth 1 (aiFace.mIndices f) 0;
     nth 2 (aiFace.mIndices f) 0].
Proof.
  unfold isTriangle, aiFace.mNumIndices. intros H. apply Z.eqb_eq in H.
  destruct (aiFace.mIndices f) as [|a [|b [|c [|d l]]]]; simpl in H; try lia.
  reflexivity.
Qed.

Lemma numTriangles_cons (f : aiFace.t) (faces : list aiFace.t) :
  numTriangles (f :: faces)
  = (if isTriangle f then 1 else 0) + numTriangles faces.
Proof.
  unfold numTriangles. cbn [filter].
  destruct (isTriangle f); cbn [length]; lia.
Qed.

Lemma numTriangles_nonneg (faces : list aiFace.t) : 0 <= numTriangles faces.
Proof. unfold numTriangles. lia. Qed.

Lemma triangleIndices_length (faces : list aiFace.t) :
  Z.of_nat (length (triangleIndices faces)) = 3 * numTriangles faces.
Proof.
  induction faces as [|f faces IH]; [reflexivity|].
  rewrite numTriangles_cons. unfold triangleIndices in *. cbn [flat_map].
  rewrite length_app, Nat2Z.inj_add, IH.
  destruct (isTriangle f) eqn:E.
  - rewrite (triangle_indices f E). cbn [length]. lia.
  - cbn [length]. lia.
Qed.

Lemma faceLoop_spec :
  forall faces ib pc ic,
    faceLoop faces ib pc ic
    = (ib ++ triangleIndices faces,
       (if numTriangles faces =? 0 then pc
        else wrap32 (pc + 3 * numTriangles faces)),
       (if numTriangles faces =? 0 then ic
        else wrap32 (ic + 3 * numTriangles faces))).
Proof.
  induction faces as [|f faces IH]; intros ib pc ic.
  - simpl. now rewrite app_nil_r.
  - cbn [faceLoop]. rewrite numTriangles_cons.
    change (aiFace.mNumIndices f =? 3) with (isTriangle f).
    pose proof (numTriangles_nonneg faces) as Hn.
    unfold triangleIndices. cbn [flat_map].
    destruct (isTriangle f) eqn:E; cbn [negb].
    + rewrite IH. rewrite <- (triangle_indices f E), <- app_assoc.
      replace (1 + numTriangles faces =? 0) with false
        by (symmetry; apply Z.eqb_neq; lia).
      destruct (numTriangles faces =? 0) eqn:Z0.
      * apply Z.eqb_eq in Z0. rewrite Z0. reflexivity.
      * rewrite !wrap32_add_l.
        replace (pc + 3 + 3 * numTriangles faces)
          with (pc + 3 * (1 + numTriangles faces)) by lia.
        replace (ic + 3 + 3 * numTriangles faces)
          with (ic + 3 * (1 + numTriangles faces)) by lia.
        reflexivity.
    + rewrite IH. reflexivity.
Qed.

Lemma faceLoop_u32 (faces : list aiFace.t) (ib : list Z) (pc ic : Z) :
  0 <= pc < 2 ^ 32 -> 0 <= ic < 2 ^ 32 ->
  faceLoop faces ib pc ic
  = (ib ++ triangleIndices faces,
     wrap32 (pc + 3 * numTriangles faces),
     wrap32 (ic + 3 * numTriangles faces)).
Proof.
  intros Hp Hi. rewrite faceLoop_spec.
  destruct (numTriangles faces =? 0) eqn:Z0; [|reflexivity].
  apply Z.eqb_eq in Z0. rewrite Z0, !Z.add_0_r, !wrap32_small by lia.
  reflexivity.
Qed.

Lemma sumZ_cons (a : Z) (l : list Z) : sumZ (a :: l) = a + sumZ l.
Proof. reflexivity. Qed.

Lemma sumZ_app (l1 l2 : list Z) : sumZ (l1 ++ l2) = sumZ l1 + sumZ l2.
Proof.
  induction l1 as [|a l1 IH]; [reflexivity|].
  cbn [app]. rewrite !sumZ_cons, IH. lia.
Qed.

Lemma foldPositions_box (ps : list aiVector3D.t) :
  forall d1 d2,
    Dimension.min d1 = Dimension.min d2 ->
    Dimension.max d1 = Dimension.max d2 ->
    Dimension.min (foldPositions ps d1) = Dimension.min (foldPositions ps d2) /\
    Dimension.max (foldPositions ps d1) = Dimension.max (foldPositions ps d2).
Proof.
  induction ps as [|p ps IH]; intros d1 d2 Hmin Hmax; [auto|].
  apply IH; unfold foldPosition; cbn [Dimension.min Dimension.max];
    rewrite ?Hmin, ?Hmax; reflexivity.
Qed.

Lemma setGeometry_twice (grp : ModelGroup) (vc ic vc' ic' : Z)
    (vb vb' : list float) (ib ib' : list Z) :
  setGeometry (setGeometry grp vc ic vb ib) vc' ic' vb' ib'
  = setGeometry grp vc' ic' vb' ib'.
Proof. reflexivity. Qed.

Lemma setGeometry_same (grp : ModelGroup) :
  setGeometry grp (vertexCount grp) (indexCount grp) (vertexBuffer grp)
    (indexBuffer grp) = grp.
Proof. destruct grp; reflexivity. Qed.

Lemma loadMesh_spec (pScene : aiScene.t) (materialOffset : Z)
    (grp grp' : ModelGroup) (model model' : Model.t) (paiMesh : aiMesh.t) :
  loadMesh pScene materialOffset (grp, model) paiMesh = Some (grp', model') ->
  0 <= indexCount grp < 2 ^ 32 ->
  exists chunks part,
    Forall2 (VertexChunk (layout grp)) (aiMesh.mVertices paiMesh) chunks /\
    PartOfMesh part paiMesh /\
    grp' = setGeometry grp
             (wrap32 (vertexCount grp + aiMesh.mNumVertices paiMesh))
             (wrap32 (indexCount grp
                      + 3 * numTriangles (aiMesh.mFaces paiMesh)))
             (vertexBuffer grp ++ concat chunks)
             (indexBuffer grp ++ triangleIndices (aiMesh.mFaces paiMesh)) /\
    Model.parts model' = Model.parts model ++ [part] /\
    Dimension.min (Model.dim model')
    = Dimension.min (foldPositions (aiMesh.mVertices paiMesh) (Model.dim model)) /\
    Dimension.max (Model.dim model')
    = Dimension.max (foldPositions (aiMesh.mVertices paiMesh) (Model.dim model)).
Proof.
  intros H Hic. unfold loadMesh in H. inv_bind H. inv_bind H.
  destruct a0 as [vb' dim']. apply vertexLoop_spec in E0.
  destruct E0 as (-> & chunks & -> & Hchunks).
  rewrite (faceLoop_u32 _ _ 0 (indexCount grp)) in H by lia.
  injection H as <- <-. eexists chunks, _.
  split; [exact Hchunks|]. split; [|repeat split].
  split; reflexivity.
Qed.

Lemma meshLoop_spec (pScene : aiScene.t) (materialOffset : Z) :
  forall (meshes : list aiMesh.t) (grp grp' : ModelGroup)
         (model model' : Model.t),
    meshLoop pScene materialOffset meshes (grp, model) = Some (grp', model') ->
    0 <= indexCount grp < 2 ^ 32 ->
    0 <= vertexCount grp < 2 ^ 32 ->
    exists chunks newParts,
      Forall2 (VertexChunk (layout grp)) (flat_map aiMesh.mVertices meshes)
        chunks /\
      Forall2 PartOfMesh newParts meshes /\
      grp' = setGeometry grp
               (wrap32 (vertexCount grp + meshesNumVertices meshes))
               (wrap32 (indexCount grp + 3 * meshesNumTriangles meshes))
               (vertexBuffer grp ++ concat chunks)
               (indexBuffer grp
                ++ flat_map (fun m => triangleIndices (aiMesh.mFaces m)) meshes) /\
      Model.parts model' = Model.parts model ++ newParts /\
      Dimension.min (Model.dim model')
      = Dimension.min
          (foldPositions (flat_map aiMesh.mVertices meshes) (Model.dim model)) /\
      Dimension.max (Model.dim model')
      = Dimension.max
          (foldPositions (flat_map aiMesh.mVertices meshes) (Model.dim model)).
Proof.
  induction meshes as [|m meshes IH]; intros grp grp' model model' H Hic Hvc.
  - injection H as <- <-. exists [], [].
    unfold meshesNumVertices, meshesNumTriangles. cbn.
    rewrite !Z.add_0_r, !wrap32_small, !app_nil_r by lia.
    rewrite setGeometry_same. repeat split; constructor.
  - cbn [meshLoop] in H. inv_bind H. destruct a as [grp1 model1].
    apply loadMesh_spec in E; [|exact Hic].
    destruct E as (chunks1 & part & Hch1 & Hpart & -> & Hparts1 & Hmin1 & Hmax1).
    apply IH in H; [|apply wrap32_range|apply wrap32_range].
    destruct H as (chunks & newParts & Hch & Hnew & -> & Hparts & Hmin & Hmax).
    exists (chunks1 ++ chunks), (part :: newParts).
    split; [cbn [flat_map]; apply Forall2_app; assumption|].
    split; [constructor; assumption|].
    split.
    { rewrite setGeometry_twice.
      cbn [vertexCount indexCount vertexBuffer indexBuffer setGeometry].
      rewrite !wrap32_add_l. unfold meshesNumVertices, meshesNumTriangles.
      cbn [map flat_map]. rewrite !sumZ_cons.
      rewrite concat_app, <- !app_assoc. f_equal; f_equal; lia. }
    split; [rewrite Hparts, Hparts1, <- app_assoc; reflexivity|].
    cbn [flat_map]. unfold foldPositions in *. rewrite fold_left_app.
    destruct (foldPositions_box (flat_map aiMesh.mVertices meshes)
                (Model.dim model1)
                (fold_left (fun d p => foldPosition p d) (aiMesh.mVertices m)
                   (Model.dim model)) Hmin1 Hmax1) as [Bmin Bmax].
    unfold foldPositions in Bmin, Bmax.
    split; [rewrite Hmin; exact Bmin|rewrite Hmax; exact Bmax].
Qed.

Lemma addModel_Scene_spec (filename : string) (pScene : aiScene.t)
    (grp grp' : ModelGroup) (ret : Z) (out : list Event) :
  addModel filename (Scene pScene) grp = Some (grp', ret, out) ->
  0 <= indexCount grp < 2 ^ 32 ->
  0 <= vertexCount grp < 2 ^ 32 ->
  exists chunks model,
    Forall2 (VertexChunk (layout grp)) (scenePositions pScene) chunks /\
    Forall2 PartOfMesh (Model.parts model) (aiScene.mMeshes pScene) /\
    grp' = setModels
             (setGeometry
                (setAiMaterials grp
                   (aiMaterials grp ++ aiScene.mMaterials pScene))
                (wrap32 (vertexCount grp
                         + meshesNumVertices (aiScene.mMeshes pScene)))
                (wrap32 (indexCount grp
                         + 3 * meshesNumTriangles (aiScene.mMeshes pScene)))
                (vertexBuffer grp ++ concat chunks)
                (indexBuffer grp ++ sceneTriangleIndices pScene))
             (models grp ++ [model]) /\
    Dimension.min (Model.dim model)
    = Dimension.min (foldPositions (scenePositions pScene) Dimension.init) /\
    Dimension.max (Model.dim model)
    = Dimension.max (foldPositions (scenePositions pScene) Dimension.init) /\
    ret = U32.to_int32 (wrap32 (Z.of_nat (length (models grp)))) /\
    out = [].
Proof.
  intros H Hic Hvc. unfold addModel in H. inv_bind H.
  destruct a as [grp2 model]. injection H as <- <- <-.
  apply meshLoop_spec in E; [|exact Hic|exact Hvc].
  destruct E as (chunks & newParts & Hch & Hnew & -> & Hparts & Hmin & Hmax).
  cbn [Model.parts app] in Hparts. cbn [Model.dim] in Hmin, Hmax.
  exists chunks, model. rewrite Hparts.
  repeat split; assumption.
Qed.

Lemma parts_vertexCount (parts : list ModelPart.t) (meshes : list aiMesh.t) :
  Forall2 PartOfMesh parts meshes ->
  sumZ (map ModelPart.vertexCount parts) = meshesNumVertices meshes.
Proof.
  unfold meshesNumVertices.
  induction 1 as [|p m ps ms [Hv _] _ IH]; [reflexivity|].
  cbn [map]. rewrite !sumZ_cons, Hv, IH. reflexivity.
Qed.

Lemma wrap32_le (a : Z) : 0 <= a -> wrap32 a <= a.
Proof.
  intros H. unfold U32.wrap, U32.modulus. apply Z.mod_le; lia.
Qed.

Lemma wrap32_add (a b : Z) : wrap32 (wrap32 a + wrap32 b) = wrap32 (a + b).
Proof. unfold U32.wrap. symmetry. apply Zplus_mod. Qed.

Lemma parts_indexCount (parts : list ModelPart.t) (meshes : list aiMesh.t) :
  Forall2 PartOfMesh parts meshes ->
  0 <= sumZ (map ModelPart.indexCount parts) <= 3 * meshesNumTriangles meshes /\
  wrap32 (sumZ (map ModelPart.indexCount parts))
  = wrap32 (3 * meshesNumTriangles meshes).
Proof.
  unfold meshesNumTriangles.
  induction 1 as [|p m ps ms [_ Hi] _ IH].
  - cbn. split; [lia|reflexivity].
  - cbn [map]. rewrite !sumZ_cons, Hi. destruct IH as [IH1 IH2].
    pose proof (numTriangles_nonneg (aiMesh.mFaces m)) as Hn.
    pose proof (wrap32_range (3 * numTriangles (aiMesh.mFaces m))) as Hr.
    pose proof (wrap32_le (3 * numTriangles (aiMesh.mFaces m))) as Hl.
    split; [lia|].
    rewrite <- wrap32_add, wrap32_idem, IH2, wrap32_add. f_equal. lia.
Qed.

Lemma meshesNumVertices_nonneg (meshes : list aiMesh.t) :
  0 <= meshesNumVertices meshes.
Proof.
  unfold meshesNumVertices, aiMesh.mNumVertices.
  induction meshes as [|m ms IH]; [cbn; lia|].
  cbn [map]. rewrite sumZ_cons. lia.
Qed.

Lemma meshesNumVertices_positions (pScene : aiScene.t) :
  Z.of_nat (length (scenePositions pScene))
  = meshesNumVertices (aiScene.mMeshes pScene).
Proof.
  unfold scenePositions, meshesNumVertices, aiMesh.mNumVertices.
  induction (aiScene.mMeshes pScene) as [|m ms IH]; [reflexivity|].
  cbn [flat_map map]. rewrite sumZ_cons, length_app, Nat2Z.inj_add, IH.
  reflexivity.
Qed.

Lemma sceneTriangleIndices_length (pScene : aiScene.t) :
  Z.of_nat (length (sceneTriangleIndices pScene))
  = 3 * meshesNumTriangles (aiScene.mMeshes pScene).
Proof.
  unfold sceneTriangleIndices, meshesNumTriangles.
  induction (aiScene.mMeshes pScene) as [|m ms IH]; [reflexivity|].
  cbn [flat_map map]. rewrite sumZ_cons, length_app, Nat2Z.inj_add, IH.
  rewrite triangleIndices_length. lia.
Qed.

Lemma allParts_snoc (models : list Model.t) (model : Model.t) :
  allParts (models ++ [model]) = allParts models ++ Model.parts model.
Proof.
  unfold allParts. rewrite flat_map_app. cbn. now rewrite app_nil_r.
Qed.

Lemma addModel_preserves_invariant (components : list Component)
    (filename : string) (pScene : ReadFile) (grp grp' : ModelGroup) (ret : Z)
    (out : list Event) :
  CountersInvariant components grp ->
  addModel filename pScene grp = Some (grp', ret, out) ->
  CountersInvariant components grp'.
Proof.
  intros (Hlay & Hic & Hvc & Hvb & Hv0 & Hsum & Hmod) H.
  destruct pScene as [pScene|err]; [|injection H as <- _ _; repeat split; tauto].
  apply addModel_Scene_spec in H;
    [|rewrite Hic; apply wrap32_range|rewrite Hvc; apply wrap32_range].
  destruct H as (chunks & model & Hch & Hparts & -> & _ & _ & _ & _).
  unfold CountersInvariant.
  cbn [layout indexCount vertexCount vertexBuffer indexBuffer models
       setModels setGeometry setAiMaterials].
  unfold sumVertexCount, sumIndexCount in *.
  rewrite allParts_snoc, !map_app, !sumZ_app.
  rewrite (parts_vertexCount _ _ Hparts).
  destruct (parts_indexCount _ _ Hparts) as [Hi1 Hi2].
  rewrite !length_app, !Nat2Z.inj_add, sceneTriangleIndices_length.
  rewrite (chunks_length _ _ _ Hch), Nat2Z.inj_mul, meshesNumVertices_positions.
  pose proof (meshesNumVertices_nonneg (aiScene.mMeshes pScene)) as Hn.
  rewrite Hlay in *.
  repeat split; try lia.
  - rewrite Hic, wrap32_add_l. reflexivity.
  - rewrite Hvc, wrap32_add_l. reflexivity.
  - rewrite <- wrap32_add, Hmod, Hi2, wrap32_add. reflexivity.
Qed.

Lemma reachable_invariant (components : list Component) (grp : ModelGroup) :
  reachable components grp -> CountersInvariant components grp.
Proof.
  induction 1 as [|grp grp' filename pScene ret out _ IH H].
  - unfold CountersInvariant. cbn. repeat split; try lia.
  - exact (addModel_preserves_invariant _ _ _ _ _ _ _ IH H).
Qed.

(** C3. In every group reached from a new group by calls of [addModel], as
    long as the index buffer and the loaded vertices are fewer than 2^32
    (the range of the counters): the index counts of all parts of all models
    add up to the length of the index buffer, which is the index counter;
    their vertex counts add up to the vertex counter; and the vertex buffer
    holds that many vertices of [floatsPerVertex] floats each. *)
Theorem addModel_counts_match_buffers (components : list Component)
    (grp : ModelGroup) :
  reachable components grp ->
  Z.of_nat (length (indexBuffer grp)) < 2 ^ 32 ->
  sumVertexCount (models grp) < 2 ^ 32 ->
  sumIndexCount (models grp) = Z.of_nat (length (indexBuffer grp)) /\
  indexCount grp = Z.of_nat (length (indexBuffer grp)) /\
  sumVertexCount (models grp) = vertexCount grp /\
  Z.of_nat (length (vertexBuffer grp))
  = vertexCount grp * Z.of_nat (floatsPerVertex (layout grp)).
Proof.
  intros Hreach Hib Hv.
  destruct (reachable_invariant _ _ Hreach)
    as (Hlay & Hic & Hvc & Hvb & Hv0 & Hsum & Hmod).
  rewrite wrap32_small in Hic by lia.
  rewrite wrap32_small in Hvc by lia.
  rewrite !wrap32_small in Hmod by lia.
  rewrite Hlay, Hvc. auto.
Qed.

(** [addModel] returns on every well-formed scene. *)

Lemma elem_fits {A : Type} (array : option (list A)) (n j : nat) :
  array <> None -> arrayFits array n -> (j < n)%nat ->
  exists a, aiMesh.elem array j = Some a.
Proof.
  intros Hsome Hfit Hj. destruct array as [l|]; [|contradiction].
  cbn. specialize (Hfit l eq_refl). subst n.
  destruct (nth_error l j) as [a|] eqn:E; [eauto|].
  apply nth_error_None in E. lia.
Qed.

Lemma layoutLoop_returns (components : list Component) (pPos : aiVector3D.t)
    (n t tg bt : aiVector3D.t) (pColor : aiColor3D.t) :
  forall vb,
    exists vb',
      layoutLoop components pPos (Some n) (Some t) (Some tg) (Some bt) pColor vb
      = Some vb'.
Proof.
  induction components as [|c cs IH]; intros vb; [eexists; reflexivity|].
  cbn [layoutLoop]. destruct c; cbn [pushComponent bind]; apply IH.
Qed.

Lemma guarded_elem {A : Type} (guard : bool) (array : option (list A))
    (n j : nat) (dflt : A) :
  (guard = true -> array <> None) -> arrayFits array n -> (j < n)%nat ->
  exists a, (if guard then aiMesh.elem array j else Some dflt) = Some a.
Proof.
  intros Hg Hfit Hj. destruct guard; [|eauto].
  apply (elem_fits array n j); auto.
Qed.

Lemma non_null_Some {A : Type} (p : option A) :
  aiMesh.non_null p = true -> p <> None.
Proof. destruct p; [discriminate|discriminate]. Qed.

Lemma vertexLoop_returns (components : list Component) (pScene : aiScene.t)
    (paiMesh : aiMesh.t) (pColor : aiColor3D.t) :
  wellFormedMesh pScene paiMesh ->
  forall vs j vb dim,
    (j + length vs = length (aiMesh.mVertices paiMesh))%nat ->
    exists r, vertexLoop components paiMesh pColor vs j vb dim = Some r.
Proof.
  intros (_ & Hn & Fn & Ft & Ftg & Fbt).
  induction vs as [|pPos vs IH]; intros j vb dim Hj; [eexists; reflexivity|].
  cbn [vertexLoop length] in *.
  destruct (elem_fits (aiMesh.mNormals paiMesh) (length (aiMesh.mVertices paiMesh)) j Hn Fn) as [n ->]; [lia|].
  destruct (guarded_elem (aiMesh.HasTextureCoords0 paiMesh)
              (aiMesh.mTextureCoords0 paiMesh)
              (length (aiMesh.mVertices paiMesh)) j Zero3D) as [t ->];
    [|exact Ft|lia|].
  { unfold aiMesh.HasTextureCoords0. intros H.
    apply andb_prop in H. apply non_null_Some, H. }
  destruct (guarded_elem (aiMesh.HasTangentsAndBitangents paiMesh)
              (aiMesh.mTangents paiMesh)
              (length (aiMesh.mVertices paiMesh)) j Zero3D) as [tg ->];
    [|exact Ftg|lia|].
  { unfold aiMesh.HasTangentsAndBitangents. intros H.
    apply andb_prop in H. destruct H as [H _]. apply andb_prop in H.
    apply non_null_Some, H. }
  destruct (guarded_elem (aiMesh.HasTangentsAndBitangents paiMesh)
              (aiMesh.mBitangents paiMesh)
              (length (aiMesh.mVertices paiMesh)) j Zero3D) as [bt ->];
    [|exact Fbt|lia|].
  { unfold aiMesh.HasTangentsAndBitangents. intros H.
    apply andb_prop in H. destruct H as [H _]. apply andb_prop in H.
    apply non_null_Some, H. }
  destruct (layoutLoop_returns components pPos n t tg bt pColor vb)
    as [vb' ->].
  cbn [bind]. apply IH. lia.
Qed.

Lemma meshLoop_returns (pScene : aiScene.t) (materialOffset : Z) :
  forall meshes acc,
    Forall (wellFormedMesh pScene) meshes ->
    exists r, meshLoop pScene materialOffset meshes acc = Some r.
Proof.
  induction meshes as [|m meshes IH]; intros acc H; [eexists; reflexivity|].
  inversion H as [|? ? Hm Hrest]; subst. cbn [meshLoop].
  assert (E : exists acc', loadMesh pScene materialOffset acc m = Some acc').
  { destruct acc as [grp model]. unfold loadMesh.
    destruct (at_ (aiScene.mMaterials pScene) (aiMesh.mMaterialIndex m))
      as [mat|] eqn:Emat; [|destruct Hm as [Hm _]; contradiction].
    cbn [bind].
    destruct (vertexLoop_returns (layout grp) pScene m
                (aiMaterial.GetColor (aiMaterial.COLOR_DIFFUSE mat)
                   (aiColor3D.mk F32.zero F32.zero F32.zero))
                Hm (aiMesh.mVertices m) 0%nat (vertexBuffer grp)
                (Model.dim model) eq_refl) as [[vb' dim'] ->].
    cbn [bind].
    destruct (faceLoop (aiMesh.mFaces m) (indexBuffer grp) 0 (indexCount grp))
      as [[ib pc] ic].
    eexists. reflexivity. }
  destruct E as [acc' ->]. cbn [bind]. apply IH, Hrest.
Qed.

Lemma addModel_returns (filename : string) (pScene : aiScene.t)
    (grp : ModelGroup) :
  wellFormedScene pScene ->
  exists grp' ret,
    addModel filename (Scene pScene) grp = Some (grp', ret, []).
Proof.
  intros H. unfold addModel.
  destruct (meshLoop_returns pScene
              (wrap32 (Z.of_nat (length (aiMaterials grp))))
              (aiScene.mMeshes pScene)
              (setAiMaterials grp
                 (aiMaterials grp ++ aiScene.mMaterials pScene),
               Model.mk [] Dimension.init) H) as [[grp2 model] ->].
  cbn [bind]. eexists _, _. reflexivity.
Qed.

(** C4 (as amended). When the importer returns no scene, [addModel] leaves
    the whole group as it was, returns -1 and prints the importer's error
    string; -1 differs from the index returned by a call that loads a scene
    while the group holds fewer than 2^31 models. *)
Theorem addModel_import_failure (filename errorString : string)
    (grp : ModelGroup) :
  addModel filename (Null errorString) grp
  = Some (grp, -1, [PrintErrorParsing filename errorString]) /\
  (forall pScene grp' ret out,
      addModel filename (Scene pScene) grp = Some (grp', ret, out) ->
      Z.of_nat (length (models grp)) < 2 ^ 31 ->
      ret = Z.of_nat (length (models grp)) /\ ret <> -1).
Proof.
  split; [reflexivity|]. intros pScene grp' ret out H Hlen.
  unfold addModel in H. inv_bind H. destruct a as [grp2 model].
  injection H as _ <- _.
  rewrite wrap32_small by lia. unfold U32.to_int32.
  rewrite wrap32_small by lia.
  replace (Z.of_nat (length (models grp)) <? 2 ^ 31) with true
    by (symmetry; apply Z.ltb_lt; lia).
  lia.
Qed.

(** ** Order of binary32 values *)



Lemma leb_refl (a : float) : F32.is_nan a = false -> F32.leb a a = true.
Proof.
  unfold F32.leb, SFleb.
  destruct a as [sa|sa| |sa ma ea]; cbn [SFcompare F32.is_nan];
    try destruct sa; try easy;
    change (Pos.compare_cont Eq) with Pos.compare;
    rewrite Z.compare_refl, Pos.compare_refl; reflexivity.
Qed.


Lemma compare_antisym (a b : float) :
  SFcompare b a = option_map CompOpp (SFcompare a b).
Proof.
  destruct a as [sa|sa| |sa ma ea], b as [sb|sb| |sb mb eb];
    cbn [SFcompare option_map]; try destruct sa; try destruct sb;
    try reflexivity;
    change (Pos.compare_cont Eq) with Pos.compare;
    rewrite (Z.compare_antisym ea eb), (Pos.compare_antisym ma mb);
    destruct (ea ?= eb), (ma ?= mb)%positive; reflexivity.
Qed.

Lemma fmax_not_nan (v acc : float) :
  F32.is_nan acc = false -> F32.is_nan (F32.fmax v acc) = false.
Proof.
  intros H. unfold F32.fmax. destruct (SFcompare v acc) as [[| |]|] eqn:E;
    try exact H.
  - destruct v; try reflexivity. discriminate.
  - destruct v; try reflexivity. discriminate.
  - destruct (F32.is_nan v) eqn:Ev; [exact H|exact Ev].
Qed.






Section Folds.
Variable coord : aiVector3D.t -> float.

Lemma foldMax_not_nan (ps : list aiVector3D.t) :
  forall start,
    F32.is_nan start = false -> F32.is_nan (foldMax coord ps start) = false.
Proof.
  induction ps as [|p ps IH]; intros start H; [exact H|].
  apply IH, fmax_not_nan, H.
Qed.




End Folds.


Lemma foldPositions_coords (ps : list aiVector3D.t) :
  forall d,
    let d' := foldPositions ps d in
    glm.x (Dimension.min d') = foldMin aiVector3D.x ps (glm.x (Dimension.min d)) /\
    glm.y (Dimension.min d') = foldMin aiVector3D.y ps (glm.y (Dimension.min d)) /\
    glm.z (Dimension.min d') = foldMin aiVector3D.z ps (glm.z (Dimension.min d)) /\
    glm.x (Dimension.max d') = foldMax aiVector3D.x ps (glm.x (Dimension.max d)) /\
    glm.y (Dimension.max d') = foldMax aiVector3D.y ps (glm.y (Dimension.max d)) /\
    glm.z (Dimension.max d') = foldMax aiVector3D.z ps (glm.z (Dimension.max d)).
Proof.
  induction ps as [|p ps IH]; intros d; [cbn; tauto|].
  exact (IH (foldPosition p d)).
Qed.



(** ** The texture registry and the material table *)

Lemma std_find_Some (mapDic : list string) (map : string) :
  forall k, std_find mapDic map = Some k -> nth_error mapDic k = Some map.
Proof.
  induction mapDic as [|e l IH]; intros k H; [discriminate|].
  cbn [std_find] in H. destruct (String.eqb e map) eqn:E.
  - injection H as <-. apply String.eqb_eq in E. subst. reflexivity.
  - destruct (std_find l map) as [k'|]; [|discriminate].
    injection H as <-. cbn. apply IH. reflexivity.
Qed.

Lemma std_find_None (mapDic : list string) (map : string) :
  std_find mapDic map = None <-> ~ In map mapDic.
Proof.
  induction mapDic as [|e l IH]; cbn [std_find In]; [tauto|].
  destruct (String.eqb e map) eqn:E.
  - apply String.eqb_eq in E. split; [discriminate|tauto].
  - apply String.eqb_neq in E.
    destruct (std_find l map) as [k|]; cbn [option_map].
    + split; [discriminate|]. intros H. exfalso. apply H. right.
      destruct (in_dec string_dec map l) as [Hin|Hnin]; [exact Hin|].
      apply IH in Hnin. discriminate.
    + split; [|reflexivity]. intros _ [H|H]; [congruence|].
      apply (proj1 IH); [reflexivity|exact H].
Qed.

Lemma absent_app (acc : list string) (p q : string) :
  absent (acc ++ [p]) q = absent acc q && negb (String.eqb p q).
Proof.
  unfold absent. induction acc as [|e l IH]; cbn [app std_find].
  - destruct (String.eqb p q); reflexivity.
  - destruct (String.eqb e q); [reflexivity|].
    destruct (std_find (l ++ [p]) q), (std_find l q); cbn [option_map] in *;
      exact IH.
Qed.

Lemma filter_filter_and {A : Type} (f g : A -> bool) (l : list A) :
  filter f (filter g l) = filter (fun a => f a && g a) l.
Proof.
  induction l as [|a l IH]; [reflexivity|]. cbn [filter].
  destruct (g a) eqn:G; cbn [filter]; rewrite ?andb_true_r, ?andb_false_r;
    [destruct (f a)|]; rewrite IH; reflexivity.
Qed.

Lemma length_zero_empty (s : string) :
  (Z.of_nat (String.length s) =? 0) = String.eqb s EmptyString.
Proof. destruct s; reflexivity. Qed.

Lemma mapDicLoop_firstSeen (mats : list aiMaterial.t) :
  forall acc,
    mapDicLoop mats acc
    = acc ++ filter (absent acc) (firstSeen (diffusePaths mats)).
Proof.
  induction mats as [|mat mats IH]; intros acc.
  - cbn. now rewrite app_nil_r.
  - cbn [mapDicLoop]. unfold diffusePaths in *. cbn [map filter].
    rewrite length_zero_empty.
    destruct (String.eqb (aiMaterial.GetTexture mat) EmptyString) eqn:E;
      cbn [negb]; [apply IH|].
    cbn [firstSeen filter].
    destruct (std_find acc (aiMaterial.GetTexture mat)) as [k|] eqn:F.
    + replace (absent acc (aiMaterial.GetTexture mat)) with false
        by (unfold absent; now rewrite F).
      rewrite IH, filter_filter_and. f_equal. apply filter_ext. intros q.
      destruct (absent acc q) eqn:Q; [|reflexivity]. cbn [andb].
      destruct (String.eqb (aiMaterial.GetTexture mat) q) eqn:P;
        [|reflexivity].
      apply String.eqb_eq in P. subst q. unfold absent in Q. rewrite F in Q.
      discriminate.
    + replace (absent acc (aiMaterial.GetTexture mat)) with true
        by (unfold absent; now rewrite F).
      rewrite IH, <- app_assoc. cbn [app]. do 2 f_equal.
      rewrite filter_filter_and. apply filter_ext. intros q.
      apply absent_app.
Qed.

Lemma mapDicLoop_registry (mats : list aiMaterial.t) :
  mapDicLoop mats [] = firstSeen (diffusePaths mats).
Proof.
  rewrite mapDicLoop_firstSeen. cbn [app].
  induction (firstSeen (diffusePaths mats)) as [|p l IH]; [reflexivity|].
  cbn. f_equal. exact IH.
Qed.

Lemma firstSeen_In (l : list string) (p : string) :
  In p (firstSeen l) <-> In p l.
Proof.
  induction l as [|q l IH]; [tauto|]. cbn [firstSeen In].
  rewrite filter_In, IH. destruct (String.eqb q p) eqn:E.
  - apply String.eqb_eq in E. cbn. intuition congruence.
  - apply String.eqb_neq in E. cbn. intuition congruence.
Qed.

Lemma firstSeen_NoDup (l : list string) : NoDup (firstSeen l).
Proof.
  induction l as [|q l IH]; [constructor|]. cbn [firstSeen]. constructor.
  - rewrite filter_In. intros [_ H]. rewrite String.eqb_refl in H.
    discriminate.
  - apply NoDup_filter, IH.
Qed.

Lemma diffusePaths_In (mats : list aiMaterial.t) (p : string) :
  In p (diffusePaths mats) <->
  p <> EmptyString /\ exists m, In m mats /\ aiMaterial.GetTexture m = p.
Proof.
  unfold diffusePaths. rewrite filter_In, in_map_iff, negb_true_iff.
  rewrite String.eqb_neq. split.
  - intros [(m & Hm & Hin) Hne]. split; [exact Hne|]. exists m. auto.
  - intros [Hne (m & Hin & Hm)]. split; [|exact Hne]. exists m. auto.
Qed.

Lemma materialLoop_spec (mapDic : list string) (mats : list aiMaterial.t) :
  forall i materials out,
    fst (materialLoop mapDic mats i materials out)
    = materials ++ map (packMaterial mapDic) mats.
Proof.
  induction mats as [|m mats IH]; intros i materials out.
  - cbn. now rewrite app_nil_r.
  - cbn [materialLoop map]. rewrite IH, <- app_assoc. reflexivity.
Qed.

Lemma prepare_materials (grp : ModelGroup) :
  materials (fst (fst (prepare grp)))
  = materials grp
    ++ map (packMaterial (mapDicLoop (aiMaterials grp) [])) (aiMaterials grp).
Proof.
  unfold prepare.
  pose proof (materialLoop_spec (mapDicLoop (aiMaterials grp) [])
                (aiMaterials grp) 0 (materials grp) []) as H.
  destruct (materialLoop _ _ _ _ _) as [materials' out]. cbn [fst] in H.
  subst materials'.
  destruct (Z.of_nat (length (mapDicLoop (aiMaterials grp) [])) =? 0);
    [reflexivity|].
  unfold buildInstanceBuffer, updateInstancesBuffer, memcpyMapped.
  cbn [instanceBuff_size setInstanceBuffSize instanceDatas setMaterials].
  rewrite Z.leb_refl. reflexivity.
Qed.

Lemma packed_material (grp : ModelGroup) (i : nat) (m : Material.t) :
  nth_error (materials (fst (fst (prepare grp)))) (length (materials grp) + i)
  = Some m ->
  exists aiMat,
    nth_error (aiMaterials grp) i = Some aiMat /\
    m = packMaterial (mapDicLoop (aiMaterials grp) []) aiMat.
Proof.
  rewrite prepare_materials, nth_error_app2 by lia.
  replace (length (materials grp) + i - length (materials grp))%nat with i
    by lia.
  rewrite nth_error_map.
  destruct (nth_error (aiMaterials grp) i) as [aiMat|]; [|discriminate].
  cbn. intros H. injection H as <-. eauto.
Qed.

(** C6. The lookup table of map paths built by [prepare] has no duplicate;
    it lists the non-empty diffuse paths of the materials of all loaded
    assets in the order in which the scan first meets them; it is the list
    handed to the texture array; and two materials with the same non-empty
    diffuse path are packed with the same [Md], the position of that path in
    the table. *)
Theorem prepare_texture_registry (grp : ModelGroup) :
  let mapDic := mapDicLoop (aiMaterials grp) [] in
  let grp' := fst (fst (prepare grp)) in
  NoDup mapDic /\
  mapDic = firstSeen (diffusePaths (aiMaterials grp)) /\
  (forall p,
      In p mapDic <->
      p <> EmptyString /\
      exists m, In m (aiMaterials grp) /\ aiMaterial.GetTexture m = p) /\
  (mapDic <> [] ->
   In (BuildFromImages mapDic (texSize grp)) (snd (fst (prepare grp)))) /\
  forall i j ai aj mi mj,
    nth_error (aiMaterials grp) i = Some ai ->
    nth_error (aiMaterials grp) j = Some aj ->
    nth_error (materials grp') (length (materials grp) + i) = Some mi ->
    nth_error (materials grp') (length (materials grp) + j) = Some mj ->
    aiMaterial.GetTexture ai = aiMaterial.GetTexture aj ->
    aiMaterial.GetTexture ai <> EmptyString ->
    Material.Md mi = Material.Md mj /\
    exists k,
      nth_error mapDic k = Some (aiMaterial.GetTexture ai) /\
      Material.Md mi = wrap32 (Z.of_nat k).
Proof.
  cbv zeta. rewrite mapDicLoop_registry.
  split; [apply firstSeen_NoDup|]. split; [reflexivity|].
  split; [intros p; rewrite firstSeen_In; apply diffusePaths_In|].
  split.
  { intros Hne. unfold prepare. rewrite mapDicLoop_registry.
    destruct (materialLoop _ _ _ _ _) as [materials' out].
    destruct (firstSeen (diffusePaths (aiMaterials grp))) as [|p l] eqn:E;
      [contradiction|].
    cbn [length]. replace (Z.of_nat (S (length l)) =? 0) with false
      by (symmetry; apply Z.eqb_neq; lia).
    unfold buildInstanceBuffer, updateInstancesBuffer, memcpyMapped.
    cbn [instanceBuff_size setInstanceBuffSize instanceDatas setMaterials].
    rewrite Z.leb_refl. cbn [buildMaterialBuffer fst snd texSize].
    unfold buildMaterialBuffer.
    destruct (updateMaterialBuffer _) as [copy st]. cbn [fst snd].
    apply in_or_app. left. apply in_or_app. right. left. reflexivity. }
  intros i j ai aj mi mj Hai Haj Hmi Hmj Hsame Hne.
  apply packed_material in Hmi, Hmj.
  destruct Hmi as (ai' & Hai' & ->). destruct Hmj as (aj' & Haj' & ->).
  rewrite Hai in Hai'. rewrite Haj in Haj'.
  injection Hai' as <-. injection Haj' as <-.
  rewrite mapDicLoop_registry. unfold packMaterial. cbn [Material.Md].
  rewrite <- Hsame.
  destruct (std_find (firstSeen (diffusePaths (aiMaterials grp)))
              (aiMaterial.GetTexture ai)) as [k|] eqn:F.
  - split; [reflexivity|]. exists k. split; [|reflexivity].
    apply std_find_Some, F.
  - exfalso. apply std_find_None in F. apply F.
    rewrite firstSeen_In, diffusePaths_In. split; [exact Hne|].
    exists ai. split; [|reflexivity]. eapply nth_error_In, Hai.
Qed.

(** C8. Every material that [prepare] packs has the roughness 0.2f when its
    shininess compares equal to zero and [10.0f / Ns] otherwise (0.5f for a
    shininess of 20), and has [Nm] 0.9f; its shininess is the one of the
    imported material, or zero when that has none. *)
Theorem prepare_roughness_from_shininess (grp : ModelGroup) (i : nat)
    (m : Material.t) :
  nth_error (materials (fst (fst (prepare grp)))) (length (materials grp) + i)
  = Some m ->
  (exists aiMat,
      nth_error (aiMaterials grp) i = Some aiMat /\
      Material.Ns m = aiMaterial.Get (aiMaterial.SHININESS aiMat) F32.zero) /\
  (F32.eqb (Material.Ns m) F32.zero = true ->
   Material.Nr m = S754_finite false 13421773 (-26)) /\
  (F32.eqb (Material.Ns m) F32.zero = false ->
   Material.Nr m = F32.div (F32.of_Z 10) (Material.Ns m)) /\
  (Material.Ns m = F32.of_Z 20 ->
   Material.Nr m = S754_finite false 8388608 (-24)) /\
  Material.Nm m = S754_finite false 15099494 (-24).
Proof.
  intros H. apply packed_material in H. destruct H as (aiMat & Hai & ->).
  split; [exists aiMat; split; [exact Hai|reflexivity]|].
  unfold packMaterial. cbn [Material.Ns Material.Nr Material.Nm].
  change (Material.Ns Material.default) with F32.zero.
  set (Ns := aiMaterial.Get (aiMaterial.SHININESS aiMat) F32.zero).
  split; [intros ->; reflexivity|].
  split; [intros ->; reflexivity|].
  split; [intros ->; reflexivity|reflexivity].
Qed.

Lemma materialLoop_silent (mats : list aiMaterial.t) :
  forall i materials out,
    snd (materialLoop [] mats i materials out) = out.
Proof.
  induction mats as [|m mats IH]; intros i materials out; [reflexivity|].
  cbn [materialLoop]. rewrite IH. unfold printMaterial. cbn [std_find].
  apply app_nil_r.
Qed.

(** C9 (fails on the code). When the lookup table of map paths is empty,
    [prepare] packs the materials and uploads the vertex and index buffers,
    and then returns: nothing is done to the instance buffer or to the
    material buffer. *)
Theorem prepare_without_textures_returns_early (grp : ModelGroup) :
  mapDicLoop (aiMaterials grp) [] = [] ->
  let grp' := fst (fst (prepare grp)) in
  let trace := snd (fst (prepare grp)) in
  materials grp'
  = materials grp ++ map (packMaterial []) (aiMaterials grp) /\
  trace = uploadGeometry grp' /\
  forallb (fun e => negb (touches instanceBuff e || touches materialsBuff e))
    trace = true /\
  instanceBuff_size grp' = instanceBuff_size grp /\
  materialsBuff_size grp' = materialsBuff_size grp.
Proof.
  intros H. cbv zeta. unfold prepare. rewrite H.
  pose proof (materialLoop_spec [] (aiMaterials grp) 0 (materials grp) [])
    as Hm.
  pose proof (materialLoop_silent (aiMaterials grp) 0 (materials grp) [])
    as Ho.
  destruct (materialLoop _ _ _ _ _) as [materials' out].
  cbn [fst snd] in Hm, Ho. subst. cbn. tauto.
Qed.

(** C7 (fails on the code). [buildMaterialBuffer] creates a buffer for 256
    materials and copies every material of the group into it without
    comparing their number with 256: with more than 256 materials the copy
    runs past the end of the buffer, and no failure is raised before it. *)
Theorem buildMaterialBuffer_overruns_table (grp : ModelGroup) :
  256 < Z.of_nat (length (materials grp)) ->
  buildMaterialBuffer grp
  = (setMaterialsBuffSize grp (sizeof_Material * 256),
     [CreateBuffer materialsBuff (sizeof_Material * 256);
      MapBuffer materialsBuff;
      Memcpy materialsBuff
        (sizeof_Material * Z.of_nat (length (materials grp)))],
     OutOfBounds).
Proof.
  intros H. unfold buildMaterialBuffer, updateMaterialBuffer, memcpyMapped.
  cbn [materialsBuff_size materials setMaterialsBuffSize app].
  replace (sizeof_Material * Z.of_nat (length (materials grp))
           <=? sizeof_Material * 256) with false; [reflexivity|].
  symmetry. apply Z.leb_gt. unfold sizeof_Material. lia.
Qed.

(** ** The properties on the example data *)

Lemma exampleGroup_loaded :
  addModel "scene.obj" (Scene exampleScene) (newGroup defaultLayout)
  = Some (exampleGroup, 0, []).
Proof. vm_compute. reflexivity. Defined.

Lemma twoAssetGroup_loaded :
  addModel "second.obj" (Scene secondScene) exampleGroup
  = Some (twoAssetGroup, 1, []).
Proof. vm_compute. reflexivity. Defined.

Lemma pointGroup_loaded :
  addModel "point.obj" (Scene pointScene) (newGroup defaultLayout)
  = Some (pointGroup, 0, []).
Proof. vm_compute. reflexivity. Defined.

Lemma newGroup_countersInRange (components : list Component) :
  countersInRange (newGroup components).
Proof. unfold countersInRange. cbn. lia. Defined.

Lemma buildCommandBuffer_one_draw_per_run_example :
  Z.of_nat (length exampleInstances) < 2 ^ 31 /\
  refsValid exampleModels exampleInstances /\
  buildCommandBuffer exampleModels exampleInstances []
  = ([mkDraw 3 2 0 0 0; mkDraw 3 1 9 7 2; mkDraw 3 1 0 0 3], Completed) /\
  MaximalRuns exampleInstances (runs exampleInstances) /\
  (exists ds,
      fst (buildCommandBuffer exampleModels exampleInstances []) = [] ++ ds /\
      Forall2 (DrawOfRun exampleModels) ds (runs exampleInstances) /\
      (forall k0 k1, exampleInstances = [k0; k0; k1; k0] -> k0 <> k1 ->
         map di_instanceCount ds = [2; 1; 1] /\
         map di_firstInstance ds = [0; 2; 3])) /\
  (exampleInstances <> [] ->
   snd (buildCommandBuffer exampleModels exampleInstances []) = Completed).
Proof.
  assert (H1 : Z.of_nat (length exampleInstances) < 2 ^ 31)
    by (vm_compute; reflexivity).
  assert (H2 : refsValid exampleModels exampleInstances)
    by (repeat constructor; discriminate).
  split; [exact H1|]. split; [exact H2|]. split; [reflexivity|].
  exact (buildCommandBuffer_one_draw_per_run exampleModels exampleInstances
           [] H1 H2).
Defined.

Lemma addModel_counts_match_buffers_example :
  reachable defaultLayout twoAssetGroup /\
  Z.of_nat (length (indexBuffer twoAssetGroup)) < 2 ^ 32 /\
  sumVertexCount (models twoAssetGroup) < 2 ^ 32 /\
  length (indexBuffer twoAssetGroup) = 9%nat /\
  length (vertexBuffer twoAssetGroup) = 48%nat /\
  sumIndexCount (models twoAssetGroup)
  = Z.of_nat (length (indexBuffer twoAssetGroup)) /\
  indexCount twoAssetGroup = Z.of_nat (length (indexBuffer twoAssetGroup)) /\
  sumVertexCount (models twoAssetGroup) = vertexCount twoAssetGroup /\
  Z.of_nat (length (vertexBuffer twoAssetGroup))
  = vertexCount twoAssetGroup
    * Z.of_nat (floatsPerVertex (layout twoAssetGroup)).
Proof.
  assert (H1 : reachable defaultLayout twoAssetGroup).
  { eapply reach_addModel; [|exact twoAssetGroup_loaded].
    eapply reach_addModel; [|exact exampleGroup_loaded].
    apply reach_new. }
  assert (H2 : Z.of_nat (length (indexBuffer twoAssetGroup)) < 2 ^ 32)
    by (vm_compute; reflexivity).
  assert (H3 : sumVertexCount (models twoAssetGroup) < 2 ^ 32)
    by (vm_compute; reflexivity).
  split; [exact H1|]. split; [exact H2|]. split; [exact H3|].
  split; [vm_compute; reflexivity|]. split; [vm_compute; reflexivity|].
  exact (addModel_counts_match_buffers defaultLayout twoAssetGroup H1 H2 H3).
Defined.

Lemma addModel_import_failure_example :
  addModel "scene.obj" (Null "unknown format") exampleGroup
  = Some (exampleGroup, -1,
          [PrintErrorParsing "scene.obj" "unknown format"]) /\
  Z.of_nat (length (models exampleGroup)) < 2 ^ 31 /\
  1 = Z.of_nat (length (models exampleGroup)) /\ 1 <> -1.
Proof.
  destruct (addModel_import_failure "second.obj" "unknown format" exampleGroup)
    as [_ Hok].
  destruct (addModel_import_failure "scene.obj" "unknown format" exampleGroup)
    as [Hfail _].
  assert (H : Z.of_nat (length (models exampleGroup)) < 2 ^ 31)
    by (vm_compute; reflexivity).
  split; [exact Hfail|]. split; [exact H|].
  exact (Hok secondScene twoAssetGroup 1 [] twoAssetGroup_loaded H).
Defined.

(** C4 as first stated does not hold: the returned [int] is the same for
    every error string of the importer, so the error string cannot be
    recovered from it. *)
Lemma addModel_failure_return_hides_diagnostic :
  ~ (exists decode : Z -> string,
        forall errorString,
          option_map decode
            (returned (addModel "scene.obj" (Null errorString)
                         (newGroup defaultLayout)))
          = Some errorString).
Proof.
  intros [decode H].
  pose proof (H "unknown format"%string) as H1.
  pose proof (H "file not found"%string) as H2.
  cbn in H1, H2. rewrite H1 in H2. discriminate.
Qed.

Lemma prepare_texture_registry_example :
  mapDicLoop (aiMaterials twoAssetGroup) [] = ["wall.dds"; "floor.dds"]%string /\
  map Material.Md (materials (fst (fst (prepare twoAssetGroup))))
  = [0; 0; 1; 0] /\
  exists mi mj,
    nth_error (materials (fst (fst (prepare twoAssetGroup))))
      (length (materials twoAssetGroup) + 0) = Some mi /\
    nth_error (materials (fst (fst (prepare twoAssetGroup))))
      (length (materials twoAssetGroup) + 3) = Some mj /\
    Material.Md mi = Material.Md mj /\
    exists k,
      nth_error (mapDicLoop (aiMaterials twoAssetGroup) []) k
      = Some (aiMaterial.GetTexture wallMaterial) /\
      Material.Md mi = wrap32 (Z.of_nat k).
Proof.
  split; [vm_compute; reflexivity|]. split; [vm_compute; reflexivity|].
  destruct (prepare_texture_registry twoAssetGroup) as (_ & _ & _ & _ & H).
  eexists _, _.
  assert (Hi : nth_error (materials (fst (fst (prepare twoAssetGroup))))
                 (length (materials twoAssetGroup) + 0)
               = Some (packMaterial ["wall.dds"; "floor.dds"]%string
                         wallMaterial))
    by (vm_compute; reflexivity).
  assert (Hj : nth_error (materials (fst (fst (prepare twoAssetGroup))))
                 (length (materials twoAssetGroup) + 3)
               = Some (packMaterial ["wall.dds"; "floor.dds"]%string
                         wallMaterial))
    by (vm_compute; reflexivity).
  split; [exact Hi|]. split; [exact Hj|].
  refine (H 0%nat 3%nat wallMaterial wallMaterial _ _ _ _ Hi Hj _ _).
  - vm_compute; reflexivity.
  - vm_compute; reflexivity.
  - reflexivity.
  - discriminate.
Defined.

Lemma prepare_roughness_from_shininess_example :
  nth_error (materials (fst (fst (prepare twoAssetGroup))))
    (length (materials twoAssetGroup) + 0)
  = Some (packMaterial ["wall.dds"; "floor.dds"]%string wallMaterial) /\
  map Material.Nr (materials (fst (fst (prepare twoAssetGroup))))
  = [S754_finite false 8388608 (-24); S754_finite false 13421773 (-26);
     S754_finite false 13421773 (-26); S754_finite false 8388608 (-24)] /\
  Material.Nm (packMaterial ["wall.dds"; "floor.dds"]%string wallMaterial)
  = S754_finite false 15099494 (-24).
Proof.
  assert (Hi : nth_error (materials (fst (fst (prepare twoAssetGroup))))
                 (length (materials twoAssetGroup) + 0)
               = Some (packMaterial ["wall.dds"; "floor.dds"]%string
                         wallMaterial))
    by (vm_compute; reflexivity).
  split; [exact Hi|]. split; [vm_compute; reflexivity|].
  exact (proj2 (proj2 (proj2 (proj2
           (prepare_roughness_from_shininess twoAssetGroup 0 _ Hi))))).
Defined.

Lemma prepare_without_textures_returns_early_example :
  mapDicLoop (aiMaterials untexturedGroup) [] = [] /\
  length (instanceDatas untexturedGroup) = 1%nat /\
  snd (fst (prepare untexturedGroup))
  = [CreateBuffer vertexStaging 32; CreateBuffer indexStaging 0;
     CreateBuffer vertices 32; CreateBuffer indices 0;
     CmdCopyBuffer vertexStaging vertices 32;
     CmdCopyBuffer indexStaging indices 0; FlushCommandBuffer;
     DestroyBuffer vertexStaging; DestroyBuffer indexStaging] /\
  forallb (fun e => negb (touches instanceBuff e || touches materialsBuff e))
    (snd (fst (prepare untexturedGroup))) = true /\
  instanceBuff_size (fst (fst (prepare untexturedGroup))) = 0.
Proof.
  assert (H : mapDicLoop (aiMaterials untexturedGroup) [] = [])
    by (vm_compute; reflexivity).
  destruct (prepare_without_textures_returns_early untexturedGroup H)
    as (_ & _ & Hno & Hsize & _).
  split; [exact H|]. split; [reflexivity|]. split; [vm_compute; reflexivity|].
  split; [exact Hno|]. rewrite Hsize. reflexivity.
Defined.

Lemma buildMaterialBuffer_overruns_table_example :
  256 < Z.of_nat (length (materials crowdedGroup)) /\
  snd (prepare crowdedLoaded) = OutOfBounds /\
  snd (buildMaterialBuffer crowdedGroup) = OutOfBounds /\
  snd (fst (buildMaterialBuffer crowdedGroup))
  = [CreateBuffer materialsBuff 24576; MapBuffer materialsBuff;
     Memcpy materialsBuff 24672].
Proof.
  assert (H : 256 < Z.of_nat (length (materials crowdedGroup)))
    by (vm_compute; reflexivity).
  split; [exact H|]. split; [vm_compute; reflexivity|].
  rewrite (buildMaterialBuffer_overruns_table crowdedGroup H).
  split; [reflexivity|]. vm_compute. reflexivity.
Defined.


(** * Further properties *)

(** ** Draw batching *)

Lemma draws_cover (models : list Model.t) :
  forall (rs : list Run) (ds : list DrawIndexed) (s : nat),
    Forall2 (DrawOfRun models) ds rs ->
    Forall (fun r => (0 < run_len r)%nat) rs ->
    startsFrom s rs ->
    consecutiveFrom (Z.of_nat s) ds /\
    sumZ (map di_instanceCount ds) = Z.of_nat (length (expand rs)) /\
    (length ds <= length (expand rs))%nat.
Proof.
  induction rs as [|r rs IH]; intros ds s H2 Hpos Hst.
  - inversion H2; subst. cbn. auto.
  - inversion H2 as [|d ? ds' ? (p & _ & Hd) H2']; subst.
    inversion Hpos as [|? ? Hr Hpos']; subst. destruct Hst as [Hs Hst].
    destruct (IH ds' _ H2' Hpos' Hst) as (Hc & Hsum & Hlen).
    unfold expand in *. cbn [flat_map map consecutiveFrom length].
    rewrite sumZ_cons, length_app, repeat_length, Nat2Z.inj_add, Hsum.
    cbn [di_firstInstance di_instanceCount].
    rewrite Hs. rewrite Nat2Z.inj_add in Hc.
    repeat split; try lia. exact Hc.
Qed.

(** X1. Every instance is drawn exactly once: the draws that
    [buildCommandBuffer] records cover consecutive, non-empty instance
    ranges from 0, their instance counts add up to the number of instances,
    and there are at most as many draws as instances. *)
Theorem buildCommandBuffer_draws_every_instance_once
    (models : list Model.t) (instances : list DrawCommand.t)
    (cmdBuff : CommandBuffer) :
  Z.of_nat (length instances) < 2 ^ 31 ->
  refsValid models instances ->
  exists ds,
    fst (buildCommandBuffer models instances cmdBuff) = cmdBuff ++ ds /\
    consecutiveFrom 0 ds /\
    sumZ (map di_instanceCount ds) = Z.of_nat (length instances) /\
    (length ds <= length instances)%nat.
Proof.
  intros Hlen Hval.
  destruct (buildCommandBuffer_runs models instances cmdBuff Hlen Hval)
    as (ds & Hds & Hruns & _).
  destruct (runs_maximal instances) as (Hexp & Hpos & Hst & _).
  destruct (draws_cover models _ ds 0%nat Hruns Hpos Hst) as (Hc & Hsum & Hn).
  rewrite Hexp in Hsum, Hn. exists ds. auto.
Qed.

Lemma drawLoop_completed_valid (models : list Model.t) :
  forall (rest : list DrawCommand.t) (k : DrawCommand.t) (i c off : Z)
         (cmdBuff : CommandBuffer),
    1 <= c ->
    c + Z.of_nat (length rest) < 2 ^ 32 ->
    snd (flushLastRun models
           (drawLoop models rest i
              (mkBatch (DrawCommand.modelIndex k) (DrawCommand.partIndex k)
                 c off)
              cmdBuff))
    = Completed ->
    refsValid models (k :: rest).
Proof.
  induction rest as [|d rest IH]; intros k i c off cmdBuff Hc Hlen H.
  - cbn [drawLoop flushLastRun instCount modIdx partIdx instOffset] in H.
    replace (c =? 0) with false in H by (symmetry; apply Z.eqb_neq; lia).
    unfold drawPart in H. constructor; [|constructor].
    intros E. rewrite E in H. discriminate.
  - cbn [drawLoop modIdx partIdx instCount instOffset] in H.
    cbn [length] in Hlen.
    destruct (DrawCommand.differs (DrawCommand.modelIndex k)
                (DrawCommand.partIndex k) d) eqn:D.
    + unfold drawPart in H.
      destruct (partAt models (DrawCommand.modelIndex k)
                  (DrawCommand.partIndex k)) as [p|] eqn:E;
        [|discriminate].
      rewrite (wrap32_small (0 + 1)) in H by lia.
      apply IH in H; [|lia|lia].
      constructor; [rewrite E; discriminate|exact H].
    + apply differs_false in D.
      assert (d = k) by (destruct k; exact D). clear D. subst d.
      rewrite (wrap32_small (c + 1)) in H by lia.
      apply IH in H; [|lia|lia].
      constructor; [exact (Forall_inv H)|exact H].
Qed.

(** X2. [buildCommandBuffer] runs to its end exactly when there is at
    least one instance and every instance refers to a loaded part;
    otherwise it reads out of range. *)
Theorem buildCommandBuffer_completes_iff
    (models : list Model.t) (instances : list DrawCommand.t)
    (cmdBuff : CommandBuffer) :
  Z.of_nat (length instances) < 2 ^ 31 ->
  (snd (buildCommandBuffer models instances cmdBuff) = Completed <->
   instances <> [] /\ refsValid models instances).
Proof.
  intros Hlen. split.
  - destruct instances as [|d rest]; [discriminate|]. intros H.
    split; [discriminate|].
    unfold buildCommandBuffer in H. change (at_ (d :: rest) 0) with (Some d) in H.
    cbn [drawLoop modIdx partIdx instCount instOffset] in H.
    rewrite differs_self, (wrap32_small (0 + 1)) in H by lia.
    cbn [length] in Hlen.
    apply drawLoop_completed_valid in H; [exact H|lia|lia].
  - intros [Hne Hval].
    destruct (buildCommandBuffer_runs models instances cmdBuff Hlen Hval)
      as (ds & _ & _ & Hdone).
    exact (Hdone Hne).
Qed.

Lemma blockRuns_expand (blocks : list (DrawCommand.t * nat)) :
  forall s, expand (blockRuns s blocks) = blockInstances blocks.
Proof.
  induction blocks as [|[k c] blocks IH]; intros s; [reflexivity|].
  unfold expand, blockInstances in *. cbn [blockRuns flat_map fst snd].
  rewrite IH. destruct k. reflexivity.
Qed.

Lemma blockRuns_maximal (blocks : list (DrawCommand.t * nat)) :
  forall s,
    NoDup (map fst blocks) ->
    Forall (fun r => (0 < run_len r)%nat) (blockRuns s blocks) /\
    startsFrom s (blockRuns s blocks) /\
    adjacentDistinct (blockRuns s blocks).
Proof.
  induction blocks as [|[k c] blocks IH]; intros s Hnd; [cbn; auto|].
  inversion Hnd as [|? ? Hnotin Hnd']; subst.
  destruct (IH (s + S c)%nat Hnd') as (Hpos & Hst & Hadj).
  cbn [blockRuns]. split; [constructor; [cbn; lia|exact Hpos]|].
  split; [split; [reflexivity|exact Hst]|].
  destruct blocks as [|[k2 c2] blocks']; [exact I|].
  cbn [blockRuns adjacentDistinct] in *. split; [|exact Hadj].
  unfold run_key. cbn. destruct k, k2. intros E. apply Hnotin. left.
  cbn. symmetry. exact E.
Qed.

(** X3. When the instances come grouped by key (each key in one block),
    [buildCommandBuffer] records exactly one draw per distinct key, with
    the size of the block as instance count. *)
Theorem buildCommandBuffer_grouped_one_draw_per_key
    (models : list Model.t) (blocks : list (DrawCommand.t * nat))
    (cmdBuff : CommandBuffer) :
  NoDup (map fst blocks) ->
  Z.of_nat (length (blockInstances blocks)) < 2 ^ 31 ->
  refsValid models (blockInstances blocks) ->
  exists ds,
    fst (buildCommandBuffer models (blockInstances blocks) cmdBuff)
    = cmdBuff ++ ds /\
    length ds = length blocks /\
    map di_instanceCount ds = map (fun b => Z.of_nat (S (snd b))) blocks.
Proof.
  intros Hnd Hlen Hval.
  destruct (buildCommandBuffer_runs models _ cmdBuff Hlen Hval)
    as (ds & Hds & Hruns & _).
  exists ds. split; [exact Hds|].
  destruct (blockRuns_maximal blocks 0 Hnd) as (Hpos & Hst & Hadj).
  pose proof (MaximalRuns_unique _ 0 Hpos Hst Hadj) as Hu.
  rewrite blockRuns_expand in Hu. unfold runs in Hruns. rewrite <- Hu in Hruns.
  clear Hu Hpos Hst Hadj Hds Hval Hlen Hnd. revert ds Hruns.
  generalize 0%nat.
  induction blocks as [|[k c] blocks IH]; intros s ds H.
  - inversion H; subst. auto.
  - cbn [blockRuns] in H.
    inversion H as [|d ? ds' ? (p & _ & Hd) H']; subst.
    destruct (IH _ _ H') as [Hl Hm]. cbn [length map snd di_instanceCount].
    rewrite Hl, Hm. auto.
Qed.

(** ** Instances *)

Lemma addInstance_datas_fold (modelIdx partIdx : Z)
    (datas : list InstanceData.t) :
  forall grp,
    fold_left
      (fun g' data =>
         setInstances g'
           (instances g' ++ [DrawCommand.mk modelIdx partIdx])
           (instanceDatas g' ++ [data]))
      datas grp
    = setInstances grp
        (instances grp
         ++ repeat (DrawCommand.mk modelIdx partIdx) (length datas))
        (instanceDatas grp ++ datas).
Proof.
  induction datas as [|data datas IH]; intros grp.
  - cbn. rewrite !app_nil_r. destruct grp; reflexivity.
  - cbn [fold_left]. rewrite IH. cbn [instances instanceDatas setInstances].
    rewrite <- !app_assoc. reflexivity.
Qed.

(** X4. The overload of [addInstance] that takes a list appends one
    instance of the given key per element, and the elements, in order, to
    the instance data; everything else is left alone.  It returns the index
    of the first appended instance, at which (and after which) the two
    sequences hold the appended key and data.  (The list has fewer than
    2^31 elements, the loop counting with an [int], and the group fewer
    than 2^32 instances.) *)
Theorem addInstance_datas_appends_run (modelIdx partIdx : Z)
    (datas : list InstanceData.t) (grp : ModelGroup) :
  Z.of_nat (length datas) < 2 ^ 31 ->
  Z.of_nat (length (instances grp)) < 2 ^ 32 ->
  length (instances grp) = length (instanceDatas grp) ->
  let grp' := fst (addInstance_datas modelIdx partIdx datas grp) in
  let idx := snd (addInstance_datas modelIdx partIdx datas grp) in
  grp' = setInstances grp
           (instances grp
            ++ repeat (DrawCommand.mk modelIdx partIdx) (length datas))
           (instanceDatas grp ++ datas) /\
  idx = Z.of_nat (length (instances grp)) /\
  forall j data,
    nth_error datas j = Some data ->
    nth_error (instances grp') (Z.to_nat idx + j)
    = Some (DrawCommand.mk modelIdx partIdx) /\
    nth_error (instanceDatas grp') (Z.to_nat idx + j) = Some data.
Proof.
  intros _ Hlen Hpair. cbv zeta. unfold addInstance_datas. cbn [fst snd].
  rewrite addInstance_datas_fold, wrap32_small by lia.
  split; [reflexivity|]. split; [reflexivity|]. intros j data Hj.
  cbn [instances instanceDatas setInstances]. rewrite Nat2Z.id.
  split.
  - rewrite nth_error_app2 by lia.
    replace (length (instances grp) + j - length (instances grp))%nat
      with j by lia.
    apply nth_error_repeat. apply nth_error_Some. congruence.
  - rewrite Hpair, nth_error_app2 by lia.
    replace (length (instanceDatas grp) + j - length (instanceDatas grp))%nat
      with j by lia.
    exact Hj.
Qed.

Lemma loadMesh_frame (pScene : aiScene.t) (materialOffset : Z)
    (grp grp' : ModelGroup) (model model' : Model.t) (paiMesh : aiMesh.t) :
  loadMesh pScene materialOffset (grp, model) paiMesh = Some (grp', model') ->
  exists vc ic vb ib, grp' = setGeometry grp vc ic vb ib.
Proof.
  intros H. unfold loadMesh in H. inv_bind H. inv_bind H.
  destruct a0 as [vb' dim'].
  destruct (faceLoop _ _ _ _) as [[ib pc] ic]. injection H as <- _.
  eexists _, _, _, _. reflexivity.
Qed.

Lemma meshLoop_frame (pScene : aiScene.t) (materialOffset : Z) :
  forall meshes grp grp' model model',
    meshLoop pScene materialOffset meshes (grp, model) = Some (grp', model') ->
    exists vc ic vb ib, grp' = setGeometry grp vc ic vb ib.
Proof.
  induction meshes as [|m meshes IH]; intros grp grp' model model' H.
  - injection H as <- _. eexists _, _, _, _. symmetry.
    apply setGeometry_same.
  - cbn [meshLoop] in H. inv_bind H. destruct a as [grp1 model1].
    apply loadMesh_frame in E. destruct E as (vc & ic & vb & ib & ->).
    apply IH in H. destruct H as (vc' & ic' & vb' & ib' & ->).
    eexists _, _, _, _. apply setGeometry_twice.
Qed.

(** What [addModel] leaves alone. *)
Lemma addModel_frame (filename : string) (pScene : ReadFile)
    (grp grp' : ModelGroup) (ret : Z) (out : list Event) :
  addModel filename pScene grp = Some (grp', ret, out) ->
  instances grp' = instances grp /\
  instanceDatas grp' = instanceDatas grp /\
  layout grp' = layout grp /\
  texSize grp' = texSize grp /\
  materials grp' = materials grp /\
  instanceBuff_size grp' = instanceBuff_size grp /\
  materialsBuff_size grp' = materialsBuff_size grp /\
  exists newMaterials newModels,
    aiMaterials grp' = aiMaterials grp ++ newMaterials /\
    models grp' = models grp ++ newModels.
Proof.
  intros H. destruct pScene as [pScene|err].
  - unfold addModel in H. inv_bind H. destruct a as [grp2 model].
    injection H as <- _ _. apply meshLoop_frame in E.
    destruct E as (vc & ic & vb & ib & ->). cbn.
    repeat split. eexists _, _. split; reflexivity.
  - injection H as <- _ _. repeat split. exists [], [].
    rewrite !app_nil_r. split; reflexivity.
Qed.

Lemma prepare_frame (grp : ModelGroup) :
  let grp' := fst (fst (prepare grp)) in
  instances grp' = instances grp /\
  instanceDatas grp' = instanceDatas grp /\
  layout grp' = layout grp /\
  indexCount grp' = indexCount grp /\
  vertexCount grp' = vertexCount grp /\
  vertexBuffer grp' = vertexBuffer grp /\
  indexBuffer grp' = indexBuffer grp /\
  aiMaterials grp' = aiMaterials grp /\
  texSize grp' = texSize grp /\
  models grp' = models grp.
Proof.
  cbv zeta. unfold prepare.
  destruct (materialLoop _ _ _ _ _) as [materials' out].
  destruct (Z.of_nat (length (mapDicLoop (aiMaterials grp) [])) =? 0);
    [cbn; tauto|].
  unfold buildInstanceBuffer, updateInstancesBuffer, memcpyMapped.
  cbn [instanceBuff_size setInstanceBuffSize instanceDatas setMaterials].
  rewrite Z.leb_refl. unfold buildMaterialBuffer.
  destruct (updateMaterialBuffer _) as [copy st]. cbn. tauto.
Qed.

(** X5. The two instance sequences stay paired: after any sequence of
    operations on a new group, [instances] and [instanceDatas] have the
    same length. *)
Theorem instances_stay_paired (components : list Component)
    (grp : ModelGroup) :
  operated components grp ->
  length (instances grp) = length (instanceDatas grp).
Proof.
  induction 1 as [|grp grp' filename pScene ret out _ IH H
                  |grp modelIdx partIdx datas _ IH _
                  |grp modelIdx partIdx data _ IH
                  |grp grp' modelIdx partIdx modelMat idx _ IH H
                  |grp _ IH|grp _ IH|grp _ IH].
  - reflexivity.
  - apply addModel_frame in H. destruct H as (-> & -> & _). exact IH.
  - unfold addInstance_datas. cbn [fst]. rewrite addInstance_datas_fold.
    cbn [instances instanceDatas setInstances].
    rewrite !length_app, repeat_length. lia.
  - cbn. rewrite !length_app. cbn. lia.
  - unfold addInstance_modelMat in H. inv_bind H. injection H as <- _.
    cbn. rewrite !length_app. cbn. lia.
  - destruct (prepare_frame grp) as (-> & -> & _). exact IH.
  - exact IH.
  - exact IH.
Qed.

Lemma partAt_app (models newModels : list Model.t) (modelIdx partIdx : Z)
    (part : ModelPart.t) :
  partAt models modelIdx partIdx = Some part ->
  partAt (models ++ newModels) modelIdx partIdx = Some part.
Proof.
  unfold partAt, at_. destruct (modelIdx <? 0); [discriminate|].
  intros H. inv_bind H. rewrite (nth_error_app1 _ _) by
    (apply nth_error_Some; congruence).
  rewrite E. exact H.
Qed.

Lemma placed_invariant (components : list Component) (grp : ModelGroup) :
  placed components grp ->
  Forall2 (InstanceMaterial (models grp)) (instances grp) (instanceDatas grp).
Proof.
  induction 1 as [|grp grp' filename pScene ret out _ IH H
                  |grp grp' modelIdx partIdx modelMat idx _ IH H].
  - constructor.
  - apply addModel_frame in H.
    destruct H as (-> & -> & _ & _ & _ & _ & _ & nm & new & _ & ->).
    eapply Forall2_impl; [|exact IH].
    intros inst data (part & Hp & Hm). exists part.
    split; [apply partAt_app, Hp|exact Hm].
  - unfold addInstance_modelMat in H. inv_bind H. injection H as <- _.
    cbn [instances instanceDatas models setInstances].
    apply Forall2_app; [exact IH|]. constructor; [|constructor].
    exists a. split; [exact E|reflexivity].
Qed.

(** X6. Instances placed through the overload of [addInstance] that takes
    a transform always refer to a loaded part, also after further assets
    are loaded, and carry the material index of that part; so
    [buildCommandBuffer] on such a group with at least one instance runs
    to its end. *)
Theorem placed_instances_are_valid (components : list Component)
    (grp : ModelGroup) (cmdBuff : CommandBuffer) :
  placed components grp ->
  refsValid (models grp) (instances grp) /\
  Forall2 (InstanceMaterial (models grp)) (instances grp) (instanceDatas grp) /\
  (instances grp <> [] ->
   Z.of_nat (length (instances grp)) < 2 ^ 31 ->
   snd (buildCommandBuffer (models grp) (instances grp) cmdBuff) = Completed).
Proof.
  intros H. pose proof (placed_invariant _ _ H) as Hinv.
  assert (Hval : refsValid (models grp) (instances grp)).
  { unfold refsValid. clear H.
    induction Hinv as [|inst data insts datas (part & Hp & _) _ IH];
      constructor.
    - rewrite Hp. discriminate.
    - exact IH. }
  split; [exact Hval|]. split; [exact Hinv|]. intros Hne Hlen.
  destruct (buildCommandBuffer_runs (models grp) (instances grp) cmdBuff
              Hlen Hval) as (ds & _ & _ & Hdone).
  exact (Hdone Hne).
Qed.

(** X7. On a group without instances, adding a run of instance data for a
    loaded part and building the command buffer records exactly one draw:
    the geometry of the part, as many instances as there are data, from
    instance 0. *)
Theorem first_run_is_one_draw (modelIdx partIdx : Z)
    (datas : list InstanceData.t) (grp : ModelGroup) (part : ModelPart.t)
    (cmdBuff : CommandBuffer) :
  instances grp = [] ->
  partAt (models grp) modelIdx partIdx = Some part ->
  datas <> [] ->
  Z.of_nat (length datas) < 2 ^ 31 ->
  let grp' := fst (addInstance_datas modelIdx partIdx datas grp) in
  buildCommandBuffer (models grp') (instances grp') cmdBuff
  = (cmdBuff
     ++ [mkDraw (ModelPart.indexCount part) (Z.of_nat (length datas))
           (ModelPart.indexBase part)
           (U32.to_int32 (ModelPart.vertexBase part)) 0],
     Completed).
Proof.
  intros Hnone Hpart Hne Hlen. cbv zeta. unfold addInstance_datas.
  cbn [fst]. rewrite addInstance_datas_fold.
  cbn [instances models setInstances]. rewrite Hnone. cbn [app].
  destruct datas as [|data datas]; [contradiction|]. cbn [length] in *.
  set (k := DrawCommand.mk modelIdx partIdx).
  assert (Hval : refsValid (models grp) (repeat k (S (length datas)))).
  { apply Forall_forall. intros d Hd. apply repeat_spec in Hd. subst d.
    cbn. rewrite Hpart. discriminate. }
  assert (Hl : Z.of_nat (length (repeat k (S (length datas)))) < 2 ^ 31)
    by (rewrite repeat_length; exact Hlen).
  destruct (buildCommandBuffer_runs (models grp) _ cmdBuff Hl Hval)
    as (ds & Hds & Hruns & Hdone).
  unfold runs in Hruns.
  rewrite <- (app_nil_r (repeat k (S (length datas)))) in Hruns.
  rewrite (runsFrom_repeat k (length datas) 0 [] I) in Hruns.
  cbn [runsFrom] in Hruns.
  inversion Hruns as [|d ? ds' ? (p & Hp & Hd) Hnil]; subst.
  inversion Hnil; subst. cbn [run_model run_part DrawCommand.modelIndex
    DrawCommand.partIndex k] in Hp.
  rewrite Hpart in Hp. injection Hp as <-.
  destruct (buildCommandBuffer _ _ _) as [c s]. cbn [fst snd] in *.
  rewrite Hds, Hdone by discriminate. reflexivity.
Qed.

(** ** The instance buffer *)

(** X8. [buildInstanceBuffer] sizes the buffer for the instance data of
    the moment, so its own copy fits; after an instance is added,
    [updateInstancesBuffer] without a rebuild copies past the end of the
    buffer; a rebuild first waits for the device and destroys the old
    buffer (when that had a size) and the copy fits again. *)
Theorem instance_buffer_goes_stale (modelIdx partIdx : Z)
    (data : InstanceData.t) (grp : ModelGroup) :
  let built := fst (fst (buildInstanceBuffer grp)) in
  let grown := fst (addInstance_data modelIdx partIdx data built) in
  let rebuilt := fst (fst (buildInstanceBuffer grown)) in
  snd (buildInstanceBuffer grp) = Completed /\
  snd (updateInstancesBuffer built) = Completed /\
  snd (updateInstancesBuffer grown) = OutOfBounds /\
  snd (buildInstanceBuffer grown) = Completed /\
  snd (updateInstancesBuffer rebuilt) = Completed /\
  (instanceDatas grp <> [] ->
   exists rest,
     snd (fst (buildInstanceBuffer grown))
     = DeviceWaitIdle :: DestroyBuffer instanceBuff :: rest).
Proof.
  cbv zeta.
  unfold buildInstanceBuffer, updateInstancesBuffer, memcpyMapped,
    addInstance_data.
  cbn [fst snd instanceBuff_size instanceDatas setInstanceBuffSize
       setInstances].
  rewrite length_app. cbn [length]. rewrite !Z.leb_refl.
  replace (Z.of_nat (length (instanceDatas grp) + 1) * sizeof_InstanceData
           <=? Z.of_nat (length (instanceDatas grp)) * sizeof_InstanceData)
    with false
    by (symmetry; apply Z.leb_gt; unfold sizeof_InstanceData; lia).
  repeat split.
  intros Hne.
  destruct (instanceDatas grp) as [|d ds]; [contradiction|].
    cbn [length].
    replace (0 <? Z.of_nat (S (length ds)) * sizeof_InstanceData) with true
      by (symmetry; apply Z.ltb_lt; unfold sizeof_InstanceData; lia).
    eexists. reflexivity.
Qed.

(** ** [prepare] *)

(** X9. [prepare] appends the packed materials to [materials] without
    clearing it: a second call appends the same packed materials again. *)
Theorem prepare_twice_appends_twice (grp : ModelGroup) :
  let packed :=
    map (packMaterial (mapDicLoop (aiMaterials grp) [])) (aiMaterials grp) in
  let once := fst (fst (prepare grp)) in
  let twice := fst (fst (prepare once)) in
  materials once = materials grp ++ packed /\
  materials twice = materials grp ++ packed ++ packed.
Proof.
  cbv zeta. rewrite (prepare_materials (fst (fst (prepare grp)))).
  destruct (prepare_frame grp) as (_ & _ & _ & _ & _ & _ & _ & -> & _).
  rewrite prepare_materials, <- app_assoc. auto.
Qed.

Lemma std_find_bound (mapDic : list string) (map : string) (k : nat) :
  std_find mapDic map = Some k -> (k < length mapDic)%nat.
Proof.
  intros H. apply std_find_Some in H. apply nth_error_Some. congruence.
Qed.

(** X10. The [Md] of a packed material is a position in the lookup table:
    for a material with a diffuse path it is the position at which the
    table holds that path; for a material without one it is 0, the
    position of the first path (there is no value set apart for "no
    texture"); with a non-empty table it is always below the table's
    length. *)
Theorem prepare_Md_is_a_table_position (grp : ModelGroup) (i : nat)
    (m : Material.t) (aiMat : aiMaterial.t) :
  let mapDic := mapDicLoop (aiMaterials grp) [] in
  Z.of_nat (length mapDic) < 2 ^ 32 ->
  nth_error (aiMaterials grp) i = Some aiMat ->
  nth_error (materials (fst (fst (prepare grp)))) (length (materials grp) + i)
  = Some m ->
  (aiMaterial.GetTexture aiMat = EmptyString -> Material.Md m = 0) /\
  (aiMaterial.GetTexture aiMat <> EmptyString ->
   nth_error mapDic (Z.to_nat (Material.Md m))
   = Some (aiMaterial.GetTexture aiMat)) /\
  (mapDic <> [] -> 0 <= Material.Md m < Z.of_nat (length mapDic)).
Proof.
  cbv zeta. intros Hlen Hai Hm. apply packed_material in Hm.
  destruct Hm as (aiMat' & Hai' & ->). rewrite Hai in Hai'.
  injection Hai' as <-. unfold packMaterial. cbn [Material.Md].
  change (Material.Md Material.default) with 0.
  destruct (std_find (mapDicLoop (aiMaterials grp) [])
              (aiMaterial.GetTexture aiMat)) as [k|] eqn:F.
  - pose proof (std_find_bound _ _ _ F) as Hk.
    pose proof (std_find_Some _ _ _ F) as Hnth.
    rewrite wrap32_small by lia. rewrite Nat2Z.id.
    split; [|split; [auto|lia]].
    intros Hempty. exfalso. apply nth_error_In in Hnth.
    rewrite mapDicLoop_registry, firstSeen_In, diffusePaths_In in Hnth.
    tauto.
  - split; [reflexivity|]. split.
    + intros Hne. exfalso. apply std_find_None in F. apply F.
      rewrite mapDicLoop_registry, firstSeen_In, diffusePaths_In.
      split; [exact Hne|]. exists aiMat. split; [|reflexivity].
      eapply nth_error_In, Hai.
    + intros Hne. destruct (mapDicLoop (aiMaterials grp) []);
        [contradiction|]. cbn [length]. lia.
Qed.

Lemma materialLoop_prints (mapDic : list string) (mats : list aiMaterial.t) :
  forall i materials out,
    Forall isPrint out ->
    Forall isPrint (snd (materialLoop mapDic mats i materials out)).
Proof.
  induction mats as [|m mats IH]; intros i materials out H; [exact H|].
  cbn [materialLoop]. apply IH. apply Forall_app. split; [exact H|].
  unfold printMaterial. destruct (std_find mapDic (aiMaterial.GetTexture m));
    repeat constructor.
Qed.

Lemma prepare_trace (grp : ModelGroup) :
  exists out rest,
    snd (fst (prepare grp))
    = out ++ uploadGeometry (fst (fst (prepare grp))) ++ rest /\
    Forall isPrint out.
Proof.
  unfold prepare.
  pose proof (materialLoop_prints (mapDicLoop (aiMaterials grp) [])
                (aiMaterials grp) 0 (materials grp) [] (Forall_nil _)) as Hp.
  destruct (materialLoop _ _ _ _ _) as [materials' out]. cbn [snd] in Hp.
  exists out.
  destruct (Z.of_nat (length (mapDicLoop (aiMaterials grp) [])) =? 0).
  - exists []. cbn [fst snd]. rewrite app_nil_r. auto.
  - unfold buildInstanceBuffer, updateInstancesBuffer, memcpyMapped.
    cbn [instanceBuff_size setInstanceBuffSize instanceDatas setMaterials].
    rewrite Z.leb_refl. unfold buildMaterialBuffer.
    destruct (updateMaterialBuffer _) as [copy st]. cbn [fst snd].
    eexists. split; [|exact Hp].
    unfold uploadGeometry.
    cbn [vertexBuffer indexBuffer setMaterialsBuffSize setInstanceBuffSize
         setMaterials].
    rewrite <- !app_assoc. reflexivity.
Qed.

(** X12. After assets were loaded, [prepare] asks the device for buffers
    that hold the whole of both shared buffers: the staging and the
    device-local vertex buffer with [stride () * vertexCount] bytes, the
    staging and the device-local index buffer with [4 * indexCount] bytes,
    as long as these sizes fit 32 bits; only console output precedes these
    requests. *)
Theorem prepare_uploads_stride_bytes (components : list Component)
    (grp : ModelGroup) :
  reachable components grp ->
  4 * Z.of_nat (length (vertexBuffer grp)) < 2 ^ 32 ->
  4 * Z.of_nat (length (indexBuffer grp)) < 2 ^ 32 ->
  stride components * vertexCount grp
  = 4 * Z.of_nat (length (vertexBuffer grp)) /\
  4 * indexCount grp = 4 * Z.of_nat (length (indexBuffer grp)) /\
  exists out rest,
    snd (fst (prepare grp))
    = out
      ++ bufferRequests (stride components * vertexCount grp)
           (4 * indexCount grp)
      ++ rest /\
    Forall isPrint out.
Proof.
  intros Hreach Hvb Hib.
  destruct (reachable_invariant _ _ Hreach)
    as (Hlay & Hic & Hvc & Hlen & Hv0 & Hsum & Hmod).
  assert (Ei : indexCount grp = Z.of_nat (length (indexBuffer grp)))
    by (rewrite Hic; apply wrap32_small; lia).
  assert (Ev : stride components * vertexCount grp
               = 4 * Z.of_nat (length (vertexBuffer grp))).
  { rewrite stride_floatsPerVertex, Hvc, Hlen. unfold sizeof_float.
    set (n := sumVertexCount (models grp)) in *.
    set (f := Z.of_nat (floatsPerVertex components)) in *.
    assert (Hf : 0 <= f) by (unfold f; lia).
    destruct (Z.eq_dec n 0) as [->|Hn].
    - rewrite (wrap32_small 0) by lia. lia.
    - destruct (Z.eq_dec f 0) as [->|Hf0].
      + rewrite (wrap32_small (4 * 0)) by lia. lia.
      + assert (f <= n * f) by nia. assert (n <= n * f) by nia.
        rewrite !wrap32_small by lia. lia. }
  split; [exact Ev|]. split; [lia|].
  destruct (prepare_trace grp) as (out & rest & Htrace & Hprint).
  eexists out, _. split; [|exact Hprint]. rewrite Htrace.
  unfold uploadGeometry, bufferRequests.
  destruct (prepare_frame grp) as (_ & _ & _ & _ & _ & -> & -> & _).
  rewrite Ev, Ei. unfold sizeof_float.
  rewrite !(wrap32_small (Z.of_nat _)) by lia.
  rewrite !(Z.mul_comm (Z.of_nat _) 4), !wrap32_small by lia.
  cbn [app]. reflexivity.
Qed.

(** X13. With an empty lookup table [prepare] runs to its end whatever
    the number of materials (nothing is copied to the material buffer);
    with a non-empty one it runs to its end exactly when the materials
    already held plus the ones packed are at most 256, and it leaves the
    instance buffer sized for the instance data and the material buffer
    sized for 256 materials. *)
Theorem prepare_completes_iff (grp : ModelGroup) :
  let mapDic := mapDicLoop (aiMaterials grp) [] in
  let grp' := fst (fst (prepare grp)) in
  (mapDic = [] -> snd (prepare grp) = Completed) /\
  (mapDic <> [] ->
   (snd (prepare grp) = Completed <->
    Z.of_nat (length (materials grp) + length (aiMaterials grp)) <= 256) /\
   instanceBuff_size grp'
   = Z.of_nat (length (instanceDatas grp)) * sizeof_InstanceData /\
   materialsBuff_size grp' = sizeof_Material * 256).
Proof.
  cbv zeta. unfold prepare.
  pose proof (materialLoop_spec (mapDicLoop (aiMaterials grp) [])
                (aiMaterials grp) 0 (materials grp) []) as Hm.
  destruct (materialLoop _ _ _ _ _) as [materials' out]. cbn [fst] in Hm.
  split.
  - intros ->. reflexivity.
  - intros Hne.
    destruct (mapDicLoop (aiMaterials grp) []) as [|p l] eqn:E;
      [contradiction|].
    cbn [length]. replace (Z.of_nat (S (length l)) =? 0) with false
      by (symmetry; apply Z.eqb_neq; lia).
    unfold buildInstanceBuffer, updateInstancesBuffer, memcpyMapped.
    cbn [instanceBuff_size setInstanceBuffSize instanceDatas setMaterials].
    rewrite Z.leb_refl.
    unfold buildMaterialBuffer, updateMaterialBuffer, memcpyMapped.
    cbn [fst snd materialsBuff_size materials setMaterialsBuffSize
         setInstanceBuffSize setMaterials instanceBuff_size].
    split; [|split; reflexivity].
    rewrite Hm, length_app, length_map. unfold sizeof_Material.
    destruct (_ <=? _) eqn:L.
    + apply Z.leb_le in L. split; [lia|reflexivity].
    + apply Z.leb_gt in L. split; [discriminate|lia].
Qed.

(** ** Loading an asset: what the parts address *)

Lemma slice_app_here {A : Type} (l more rest : list A) :
  slice (length l) (length more) (l ++ more ++ rest) = more.
Proof.
  unfold slice. rewrite skipn_app, skipn_all, Nat.sub_diag. cbn [app skipn].
  rewrite firstn_app, firstn_all, Nat.sub_diag. cbn. apply app_nil_r.
Qed.

Lemma slice_app_before {A : Type} (base count : nat) (l more : list A) :
  (base + count <= length l)%nat ->
  slice base count (l ++ more) = slice base count l.
Proof.
  intros H. unfold slice. rewrite skipn_app, firstn_app, length_skipn.
  replace (count - (length l - base))%nat with 0%nat by lia.
  cbn [firstn]. apply app_nil_r.
Qed.

Lemma slice_slice {A : Type} (base m off n : nat) (l : list A) :
  (off + n <= m)%nat ->
  slice off n (slice base m l) = slice (base + off) n l.
Proof.
  intros H. unfold slice.
  rewrite skipn_firstn_comm, firstn_firstn, skipn_skipn.
  rewrite Nat.min_l by lia. f_equal. f_equal. lia.
Qed.

Lemma attributeAt_elem (array : option (list aiVector3D.t)) (j : nat)
    (v : aiVector3D.t) :
  aiMesh.elem array j = Some v -> attributeAt array j = v.
Proof.
  unfold aiMesh.elem, attributeAt. destruct array as [a|]; cbn [bind];
    [|discriminate].
  intros H. apply nth_error_nth. exact H.
Qed.

Lemma attributeAt_guarded (guard : bool) (array : option (list aiVector3D.t))
    (j : nat) (v : aiVector3D.t) :
  (if guard then aiMesh.elem array j else Some Zero3D) = Some v ->
  (if guard then attributeAt array j else Zero3D) = v.
Proof.
  destruct guard; [apply attributeAt_elem|congruence].
Qed.

Lemma pushComponent_exact (component : Component) (pColor : aiColor3D.t)
    (mesh : aiMesh.t) (j : nat) (pPos : aiVector3D.t) (vb vb' : list float) :
  pushComponent component pPos
    (aiMesh.elem (aiMesh.mNormals mesh) j)
    (if aiMesh.HasTextureCoords0 mesh
     then aiMesh.elem (aiMesh.mTextureCoords0 mesh) j else Some Zero3D)
    (if aiMesh.HasTangentsAndBitangents mesh
     then aiMesh.elem (aiMesh.mTangents mesh) j else Some Zero3D)
    (if aiMesh.HasTangentsAndBitangents mesh
     then aiMesh.elem (aiMesh.mBitangents mesh) j else Some Zero3D)
    pColor vb = Some vb' ->
  vb' = vb ++ componentFloats pColor mesh j pPos component.
Proof.
  unfold componentFloats.
  destruct component; cbn [pushComponent]; intros H;
    try (injection H as <-; reflexivity);
    inv_bind H; injection H as <-.
  - rewrite (attributeAt_elem _ _ _ E). reflexivity.
  - rewrite (attributeAt_guarded _ _ _ _ E). reflexivity.
  - rewrite (attributeAt_guarded _ _ _ _ E). reflexivity.
  - rewrite (attributeAt_guarded _ _ _ _ E). reflexivity.
Qed.

Lemma layoutLoop_exact (pColor : aiColor3D.t) (mesh : aiMesh.t) (j : nat)
    (pPos : aiVector3D.t) :
  forall components vb vb',
    layoutLoop components pPos
      (aiMesh.elem (aiMesh.mNormals mesh) j)
      (if aiMesh.HasTextureCoords0 mesh
       then aiMesh.elem (aiMesh.mTextureCoords0 mesh) j else Some Zero3D)
      (if aiMesh.HasTangentsAndBitangents mesh
       then aiMesh.elem (aiMesh.mTangents mesh) j else Some Zero3D)
      (if aiMesh.HasTangentsAndBitangents mesh
       then aiMesh.elem (aiMesh.mBitangents mesh) j else Some Zero3D)
      pColor vb = Some vb' ->
    vb' = vb ++ vertexFloats components pColor mesh j pPos.
Proof.
  induction components as [|c components IH]; intros vb vb' H.
  - injection H as <-. cbn. now rewrite app_nil_r.
  - cbn [layoutLoop] in H. inv_bind H. apply pushComponent_exact in E.
    apply IH in H. subst. unfold vertexFloats. cbn [flat_map].
    now rewrite app_assoc.
Qed.

Lemma vertexLoop_exact (components : list Component) (mesh : aiMesh.t)
    (pColor : aiColor3D.t) :
  forall vs j vb dim vb' dim',
    vertexLoop components mesh pColor vs j vb dim = Some (vb', dim') ->
    vb' = vb ++ verticesFrom components pColor mesh j vs.
Proof.
  induction vs as [|pPos vs IH]; intros j vb dim vb' dim' H.
  - injection H as <- _. cbn. now rewrite app_nil_r.
  - cbn [vertexLoop] in H. inv_bind H. apply layoutLoop_exact in E.
    apply IH in H. subst. cbn [verticesFrom]. now rewrite app_assoc.
Qed.

Lemma componentFloats_length (pColor : aiColor3D.t) (mesh : aiMesh.t)
    (j : nat) (pPos : aiVector3D.t) (component : Component) :
  length (componentFloats pColor mesh j pPos component) = floatsOf component.
Proof. destruct component; reflexivity. Qed.

Lemma vertexFloats_length (components : list Component)
    (pColor : aiColor3D.t) (mesh : aiMesh.t) (j : nat) (pPos : aiVector3D.t) :
  length (vertexFloats components pColor mesh j pPos)
  = floatsPerVertex components.
Proof.
  unfold vertexFloats, floatsPerVertex.
  induction components as [|c components IH]; [reflexivity|].
  cbn [flat_map map list_sum]. rewrite length_app, componentFloats_length, IH.
  reflexivity.
Qed.

Lemma verticesFrom_length (components : list Component)
    (pColor : aiColor3D.t) (mesh : aiMesh.t) :
  forall vs j,
    length (verticesFrom components pColor mesh j vs)
    = (length vs * floatsPerVertex components)%nat.
Proof.
  induction vs as [|pPos vs IH]; intros j; [reflexivity|].
  cbn [verticesFrom length]. rewrite length_app, vertexFloats_length, IH.
  lia.
Qed.

Lemma verticesFrom_slice (components : list Component)
    (pColor : aiColor3D.t) (mesh : aiMesh.t) :
  forall vs j k pPos,
    nth_error vs k = Some pPos ->
    slice (k * floatsPerVertex components) (floatsPerVertex components)
      (verticesFrom components pColor mesh j vs)
    = vertexFloats components pColor mesh (j + k) pPos.
Proof.
  induction vs as [|p vs IH]; intros j k pPos H; [destruct k; discriminate|].
  cbn [verticesFrom]. destruct k as [|k].
  - injection H as <-. rewrite Nat.add_0_r. unfold slice. cbn [Nat.mul skipn].
    rewrite <- (vertexFloats_length components pColor mesh j p) at 1.
    rewrite firstn_app, firstn_all, Nat.sub_diag. cbn [firstn].
    apply app_nil_r.
  - cbn [nth_error] in H.
    replace (j + S k)%nat with (S j + k)%nat by lia.
    rewrite <- (IH (S j) k pPos H).
    unfold slice. f_equal. cbn [Nat.mul].
    rewrite <- (vertexFloats_length components pColor mesh j p) at 1.
    rewrite skipn_app, skipn_all2 by lia.
    replace (length (vertexFloats components pColor mesh j p)
             + k * floatsPerVertex components
             - length (vertexFloats components pColor mesh j p))%nat
      with (k * floatsPerVertex components)%nat by lia.
    reflexivity.
Qed.

Lemma loadMesh_exact (pScene : aiScene.t) (materialOffset : Z)
    (grp grp' : ModelGroup) (model model' : Model.t) (paiMesh : aiMesh.t) :
  loadMesh pScene materialOffset (grp, model) paiMesh = Some (grp', model') ->
  0 <= indexCount grp < 2 ^ 32 ->
  at_ (aiScene.mMaterials pScene) (aiMesh.mMaterialIndex paiMesh) <> None /\
  grp' = setGeometry grp
           (wrap32 (vertexCount grp + aiMesh.mNumVertices paiMesh))
           (wrap32 (indexCount grp
                    + 3 * numTriangles (aiMesh.mFaces paiMesh)))
           (vertexBuffer grp ++ meshFloats (layout grp) pScene paiMesh)
           (indexBuffer grp ++ triangleIndices (aiMesh.mFaces paiMesh)) /\
  Model.parts model'
  = Model.parts model
    ++ [ModelPart.mk (vertexCount grp) (aiMesh.mNumVertices paiMesh)
          (indexCount grp)
          (wrap32 (3 * numTriangles (aiMesh.mFaces paiMesh)))
          (wrap32 (aiMesh.mMaterialIndex paiMesh + materialOffset))] /\
  Dimension.size (Model.dim model')
  = Some (glm.sub (Dimension.max (Model.dim model'))
            (Dimension.min (Model.dim model'))).
Proof.
  intros H Hic. unfold loadMesh in H. inv_bind H. inv_bind H.
  destruct a0 as [vb' dim']. apply vertexLoop_exact in E0. subst vb'.
  rewrite (faceLoop_u32 _ _ 0 (indexCount grp)) in H by lia.
  injection H as <- <-.
  split; [rewrite E; discriminate|].
  unfold meshFloats, meshColour. rewrite E. destruct a as [ka kd ks ke ns md].
  destruct kd; repeat split.
Qed.

Lemma PartsContiguous_app (parts1 parts2 : list ModelPart.t) :
  forall vb ib,
    PartsContiguous vb ib parts1 ->
    PartsContiguous
      (vb + sumZ (map ModelPart.vertexCount parts1))
      (ib + sumZ (map ModelPart.indexCount parts1)) parts2 ->
    PartsContiguous vb ib (parts1 ++ parts2).
Proof.
  induction parts1 as [|p ps IH]; intros vb ib H1 H2.
  - cbn in H2. rewrite !Z.add_0_r in H2. exact H2.
  - destruct H1 as (Hv & Hi & Hvc & Hic & H1). cbn [app PartsContiguous].
    repeat split; try assumption. apply IH; [exact H1|].
    cbn [map] in H2. rewrite !sumZ_cons in H2.
    rewrite <- !Z.add_assoc. exact H2.
Qed.

Lemma meshesNumTriangles_nonneg (meshes : list aiMesh.t) :
  0 <= meshesNumTriangles meshes.
Proof.
  unfold meshesNumTriangles. induction meshes as [|m ms IH]; [cbn; lia|].
  cbn [map]. rewrite sumZ_cons.
  pose proof (numTriangles_nonneg (aiMesh.mFaces m)). lia.
Qed.

Lemma meshLoop_addresses (pScene : aiScene.t) (materialOffset : Z) :
  forall (meshes : list aiMesh.t) (grp grp' : ModelGroup)
         (model model' : Model.t),
    meshLoop pScene materialOffset meshes (grp, model) = Some (grp', model') ->
    indexCount grp = Z.of_nat (length (indexBuffer grp)) ->
    0 <= vertexCount grp ->
    Z.of_nat (length (vertexBuffer grp))
    = vertexCount grp * Z.of_nat (floatsPerVertex (layout grp)) ->
    vertexCount grp + meshesNumVertices meshes < 2 ^ 32 ->
    indexCount grp + 3 * meshesNumTriangles meshes < 2 ^ 32 ->
    exists newParts,
      Model.parts model' = Model.parts model ++ newParts /\
      PartsContiguous (vertexCount grp) (indexCount grp) newParts /\
      Forall2
        (PartAddresses (layout grp) materialOffset pScene (vertexBuffer grp')
           (indexBuffer grp'))
        newParts meshes /\
      Forall (fun m => at_ (aiScene.mMaterials pScene)
                         (aiMesh.mMaterialIndex m) <> None) meshes /\
      (meshes <> [] ->
       Dimension.size (Model.dim model')
       = Some (glm.sub (Dimension.max (Model.dim model'))
                 (Dimension.min (Model.dim model')))).
Proof.
  induction meshes as [|m meshes IH];
    intros grp grp' model model' H Hic Hvc Hvb Hv Hi.
  - injection H as <- <-. exists []. rewrite app_nil_r.
    repeat split; try constructor. congruence.
  - cbn [meshLoop] in H. inv_bind H. destruct a as [grp1 model1].
    unfold meshesNumVertices, meshesNumTriangles in Hv, Hi.
    cbn [map] in Hv, Hi. rewrite !sumZ_cons in Hv, Hi.
    fold (meshesNumVertices meshes) in Hv.
    fold (meshesNumTriangles meshes) in Hi.
    pose proof (meshesNumVertices_nonneg meshes) as Hn1.
    pose proof (meshesNumTriangles_nonneg meshes) as Hn2.
    pose proof (numTriangles_nonneg (aiMesh.mFaces m)) as Hn3.
    assert (Hn4 : 0 <= aiMesh.mNumVertices m)
      by (unfold aiMesh.mNumVertices; lia).
    apply loadMesh_exact in E; [|lia].
    destruct E as (Hmat & -> & Hparts1 & Hsize1).
    assert (Hfl : length (meshFloats (layout grp) pScene m)
                  = (Z.to_nat (aiMesh.mNumVertices m)
                     * floatsPerVertex (layout grp))%nat)
      by (unfold meshFloats; rewrite verticesFrom_length;
          unfold aiMesh.mNumVertices; rewrite Nat2Z.id; reflexivity).
    rewrite (wrap32_small (vertexCount grp + _)) in H by lia.
    rewrite (wrap32_small (indexCount grp + _)) in H by lia.
    pose proof H as Hshape. pose proof H as Hlast.
    apply meshLoop_spec in Hshape;
      cbn [indexCount vertexCount setGeometry]; [|lia|lia].
    destruct Hshape as (chunks' & _ & _ & _ & Hgrp' & _).
    cbn [indexCount vertexCount vertexBuffer indexBuffer layout setGeometry]
      in Hgrp'.
    apply IH in H; cbn [indexCount vertexCount vertexBuffer indexBuffer
                        layout setGeometry];
      [|rewrite length_app, Nat2Z.inj_add, triangleIndices_length; lia
       |lia
       |rewrite length_app, Nat2Z.inj_add, Hfl, Nat2Z.inj_mul, Z2Nat.id;
          lia
       |lia|lia].
    destruct H as (newParts & Hparts & Hcont & Haddr & Hmats & Hsize).
    eexists (_ :: newParts).
    split; [rewrite Hparts, Hparts1, <- app_assoc; reflexivity|].
    rewrite (wrap32_small (3 * _)) by lia.
    split; [cbn [PartsContiguous ModelPart.vertexBase ModelPart.indexBase
                 ModelPart.vertexCount ModelPart.indexCount];
            repeat split; try lia; exact Hcont|].
    split; [|split; [constructor; assumption|]].
    + constructor; [|exact Haddr].
      unfold PartAddresses.
      cbn [ModelPart.vertexBase ModelPart.indexBase ModelPart.vertexCount
           ModelPart.indexCount ModelPart.materialIdx].
      split; [reflexivity|]. split; [reflexivity|]. split; [reflexivity|].
      rewrite Hgrp'. cbn [vertexBuffer indexBuffer setGeometry].
      rewrite <- !app_assoc. split.
      * rewrite Hic, Nat2Z.id.
        replace (Z.to_nat (3 * numTriangles (aiMesh.mFaces m)))
          with (length (triangleIndices (aiMesh.mFaces m)))
          by (apply Nat2Z.inj; rewrite triangleIndices_length, Z2Nat.id; lia).
        apply slice_app_here.
      * replace (Z.to_nat (vertexCount grp) * floatsPerVertex (layout grp))%nat
          with (length (vertexBuffer grp)) by nia.
        rewrite <- Hfl. apply slice_app_here.
    + intros _. destruct meshes as [|m2 meshes'];
        [|apply Hsize; discriminate].
      cbn [meshLoop] in Hlast. injection Hlast as _ <-. exact Hsize1.
Qed.

Lemma reachable_materials (components : list Component) (grp : ModelGroup) :
  reachable components grp -> materials grp = [].
Proof.
  induction 1 as [|grp grp' filename pScene ret out _ IH H]; [reflexivity|].
  apply addModel_frame in H. destruct H as (_ & _ & _ & _ & -> & _).
  exact IH.
Qed.

Lemma addModel_addresses (components : list Component) (filename : string)
    (pScene : aiScene.t) (grp grp' : ModelGroup) (ret : Z)
    (out : list Event) :
  reachable components grp ->
  addModel filename (Scene pScene) grp = Some (grp', ret, out) ->
  Z.of_nat (length (indexBuffer grp')) < 2 ^ 32 ->
  sumVertexCount (models grp') < 2 ^ 32 ->
  exists model,
    models grp' = models grp ++ [model] /\
    indexCount grp = Z.of_nat (length (indexBuffer grp)) /\
    vertexCount grp = sumVertexCount (models grp) /\
    PartsContiguous (vertexCount grp) (indexCount grp) (Model.parts model) /\
    Forall2
      (PartAddresses components (wrap32 (Z.of_nat (length (aiMaterials grp))))
         pScene (vertexBuffer grp') (indexBuffer grp'))
      (Model.parts model) (aiScene.mMeshes pScene) /\
    (aiScene.mMeshes pScene <> [] ->
     Dimension.size (Model.dim model)
     = Some (glm.sub (Dimension.max (Model.dim model))
               (Dimension.min (Model.dim model)))) /\
    Z.of_nat (length (indexBuffer grp)) < 2 ^ 32 /\
    sumVertexCount (models grp) < 2 ^ 32.
Proof.
  intros Hreach H Hib Hv.
  destruct (reachable_invariant _ _ Hreach)
    as (Hlay & Hic & Hvc & Hvb & Hv0 & Hsum & Hmod).
  pose proof H as Hspec.
  apply addModel_Scene_spec in Hspec;
    [|rewrite Hic; apply wrap32_range|rewrite Hvc; apply wrap32_range].
  destruct Hspec as (chunks & model0 & Hch & Hparts0 & Hgrp' & _).
  assert (Hib' : Z.of_nat (length (indexBuffer grp'))
                 = Z.of_nat (length (indexBuffer grp))
                   + 3 * meshesNumTriangles (aiScene.mMeshes pScene)).
  { rewrite Hgrp'. cbn [indexBuffer setModels setGeometry].
    rewrite length_app, Nat2Z.inj_add, sceneTriangleIndices_length.
    reflexivity. }
  assert (Hv' : sumVertexCount (models grp')
                = sumVertexCount (models grp)
                  + meshesNumVertices (aiScene.mMeshes pScene)).
  { rewrite Hgrp'. cbn [models setModels]. unfold sumVertexCount.
    rewrite allParts_snoc, map_app, sumZ_app,
      (parts_vertexCount _ _ Hparts0). reflexivity. }
  pose proof (meshesNumTriangles_nonneg (aiScene.mMeshes pScene)) as Hn1.
  pose proof (meshesNumVertices_nonneg (aiScene.mMeshes pScene)) as Hn2.
  rewrite wrap32_small in Hic by lia. rewrite wrap32_small in Hvc by lia.
  unfold addModel in H. inv_bind H. destruct a as [grp2 model].
  injection H as <- _ _.
  pose proof (meshLoop_frame _ _ _ _ _ _ _ E) as (vc & ic & vb & ib & Hfr).
  apply meshLoop_addresses in E;
    cbn [indexCount vertexCount vertexBuffer indexBuffer layout
         setAiMaterials]; try lia;
    [|rewrite Hlay, Hvc; exact Hvb].
  destruct E as (newParts & Hparts & Hcont & Haddr & _ & Hsize).
  cbn [Model.parts app indexCount vertexCount vertexBuffer indexBuffer
       layout setAiMaterials] in *.
  exists model. rewrite Hparts.
  split; [|split; [exact Hic|split; [exact Hvc|split; [exact Hcont|]]]].
  - cbn [models setModels]. rewrite Hfr. reflexivity.
  - rewrite Hlay in Haddr. split; [exact Haddr|].
    split; [exact Hsize|lia].
Qed.

(** C5 (as first stated) does not hold: the indices are not global.  In
    the group loaded from the example scene the second part starts at
    vertex 3 of the shared vertex buffer, and its index range holds 0, 1
    and 2. *)
Lemma addModel_indices_are_not_global :
  ~ (forall grp' ret out,
        addModel "scene.obj" (Scene exampleScene) (newGroup defaultLayout)
        = Some (grp', ret, out) ->
        indicesGlobal grp' = true).
Proof.
  intros H. specialize (H _ _ _ exampleGroup_loaded).
  vm_compute in H. discriminate.
Qed.

Lemma PartAddresses_local (components : list Component) (off : Z)
    (pScene : aiScene.t) (vb : list float) (ib : list Z)
    (part : ModelPart.t) (mesh : aiMesh.t) :
  PartAddresses components off pScene vb ib part mesh ->
  IndicesMeshLocal components pScene vb ib part mesh.
Proof.
  intros (Hv & _ & _ & Hslice & Hfloats). split; [exact Hslice|].
  intros k pPos Hk.
  assert (Hlt : (k < length (aiMesh.mVertices mesh))%nat)
    by (apply nth_error_Some; congruence).
  rewrite Nat.mul_add_distr_r.
  rewrite <- (slice_slice _
                (Z.to_nat (ModelPart.vertexCount part)
                 * floatsPerVertex components)).
  - rewrite Hfloats. unfold meshFloats.
    apply (verticesFrom_slice components _ mesh _ 0 k pPos Hk).
  - rewrite Hv. unfold aiMesh.mNumVertices. rewrite Nat2Z.id. nia.
Qed.

(** C5 (as amended). A call of [addModel] that returns has appended to the
    shared index buffer the indices of the faces with exactly three
    indices of all meshes, in order and as the importer gives them, and
    nothing for any other face; it has counted three per such face in the
    part of the mesh and in the group.  The values are not re-based and so
    are not global: they count from the first vertex of their own mesh,
    vertex [k] of the mesh of a part being at place [vertexBase + k] of
    the shared vertex buffer (for a group reached by calls of [addModel],
    as long as the counters do not overflow). *)
Theorem addModel_appends_triangle_indices (components : list Component)
    (filename : string) (pScene : aiScene.t) (grp grp' : ModelGroup)
    (ret : Z) (out : list Event) :
  addModel filename (Scene pScene) grp = Some (grp', ret, out) ->
  countersInRange grp ->
  indexBuffer grp' = indexBuffer grp ++ sceneTriangleIndices pScene /\
  indexCount grp'
  = wrap32 (indexCount grp + 3 * meshesNumTriangles (aiScene.mMeshes pScene)) /\
  exists model,
    models grp' = models grp ++ [model] /\
    Forall2
      (fun part mesh =>
         ModelPart.indexCount part
         = wrap32 (3 * numTriangles (aiMesh.mFaces mesh)))
      (Model.parts model) (aiScene.mMeshes pScene) /\
    (reachable components grp ->
     Z.of_nat (length (indexBuffer grp')) < 2 ^ 32 ->
     sumVertexCount (models grp') < 2 ^ 32 ->
     Forall2
       (IndicesMeshLocal components pScene (vertexBuffer grp')
          (indexBuffer grp'))
       (Model.parts model) (aiScene.mMeshes pScene)).
Proof.
  intros H [Hic Hvc]. pose proof H as Hspec.
  apply addModel_Scene_spec in Hspec; [|exact Hic|exact Hvc].
  destruct Hspec as (chunks & model & _ & Hparts & Hgrp' & _).
  split; [rewrite Hgrp'; reflexivity|]. split; [rewrite Hgrp'; reflexivity|].
  exists model. split; [rewrite Hgrp'; reflexivity|].
  split.
  { eapply Forall2_impl; [|exact Hparts]. intros part mesh [_ Hi]. exact Hi. }
  intros Hreach Hib Hv.
  destruct (addModel_addresses _ _ _ _ _ _ _ Hreach H Hib Hv)
    as (model2 & Hm2 & _ & _ & _ & Haddr & _).
  assert (Hsame : model2 = model).
  { rewrite Hgrp' in Hm2. cbn [models setModels] in Hm2.
    apply app_inv_head in Hm2. congruence. }
  subst model2.
  eapply Forall2_impl; [|exact Haddr].
  intros part mesh. apply PartAddresses_local.
Qed.

(** X14. When [addModel] returns, the parts of the new model lie one after
    the other in the shared buffers, starting at the vertex and index
    counters of the moment of the call; the index range of each part holds
    the three-index faces of its mesh, and its vertex range holds, vertex
    after vertex and in the order of the layout, the floats of every
    component of the vertices of its mesh: position and normal with the
    second coordinate negated, the diffuse colour of the material of the
    mesh, texture coordinates, tangent and bitangent (zero when the mesh
    has none), and zero padding (as long as the counters do not
    overflow). *)
Theorem addModel_parts_address_their_geometry (components : list Component)
    (filename : string) (pScene : aiScene.t) (grp grp' : ModelGroup)
    (ret : Z) (out : list Event) :
  reachable components grp ->
  addModel filename (Scene pScene) grp = Some (grp', ret, out) ->
  Z.of_nat (length (indexBuffer grp')) < 2 ^ 32 ->
  sumVertexCount (models grp') < 2 ^ 32 ->
  exists model,
    models grp' = models grp ++ [model] /\
    PartsContiguous (vertexCount grp) (indexCount grp) (Model.parts model) /\
    Forall2
      (PartAddresses components (wrap32 (Z.of_nat (length (aiMaterials grp))))
         pScene (vertexBuffer grp') (indexBuffer grp'))
      (Model.parts model) (aiScene.mMeshes pScene).
Proof.
  intros Hreach H Hib Hv.
  destruct (addModel_addresses _ _ _ _ _ _ _ Hreach H Hib Hv)
    as (model & Hm & _ & _ & Hc & Ha & _).
  exists model. auto.
Qed.

Lemma PartAddresses_counts (components : list Component) (off : Z)
    (pScene : aiScene.t) (vb : list float) (ib : list Z)
    (parts : list ModelPart.t) (meshes : list aiMesh.t) :
  Forall2 (PartAddresses components off pScene vb ib) parts meshes ->
  sumZ (map ModelPart.vertexCount parts) = meshesNumVertices meshes /\
  sumZ (map ModelPart.indexCount parts) = 3 * meshesNumTriangles meshes.
Proof.
  unfold meshesNumVertices, meshesNumTriangles.
  induction 1 as [|p m ps ms (Hv & Hi & _) _ [IH1 IH2]]; [split; reflexivity|].
  cbn [map]. rewrite !sumZ_cons, Hv, Hi, IH1, IH2. split; lia.
Qed.

Lemma reachable_counts_exact (components : list Component)
    (grp : ModelGroup) :
  reachable components grp ->
  Z.of_nat (length (indexBuffer grp)) < 2 ^ 32 ->
  sumVertexCount (models grp) < 2 ^ 32 ->
  sumIndexCount (models grp) = Z.of_nat (length (indexBuffer grp)) /\
  indexCount grp = Z.of_nat (length (indexBuffer grp)) /\
  vertexCount grp = sumVertexCount (models grp).
Proof.
  intros Hreach Hib Hv.
  destruct (reachable_invariant _ _ Hreach)
    as (_ & Hic & Hvc & _ & Hv0 & Hsum & Hmod).
  rewrite wrap32_small in Hic by lia.
  rewrite wrap32_small in Hvc by lia.
  rewrite !wrap32_small in Hmod by lia. auto.
Qed.

(** X15. In every group reached by calls of [addModel], as long as the
    counters do not overflow, the parts of all models, taken in order, lie
    one after the other from the start of the shared buffers: the vertex
    and index base of a part are the sums of the vertex and index counts
    of all parts before it, whichever asset they came from. *)
Theorem reachable_parts_are_contiguous (components : list Component)
    (grp : ModelGroup) :
  reachable components grp ->
  Z.of_nat (length (indexBuffer grp)) < 2 ^ 32 ->
  sumVertexCount (models grp) < 2 ^ 32 ->
  PartsContiguous 0 0 (allParts (models grp)).
Proof.
  induction 1 as [|grp grp' filename pScene ret out Hreach IH H];
    intros Hib Hv; [exact I|].
  destruct pScene as [pScene|err]; [|injection H as <- _ _; auto].
  destruct (addModel_addresses _ _ _ _ _ _ _ Hreach H Hib Hv)
    as (model & Hm & Hic & Hvc & Hc & _ & _ & Hib0 & Hv0).
  rewrite Hm, allParts_snoc. apply PartsContiguous_app; [auto|].
  destruct (reachable_counts_exact components grp Hreach Hib0 Hv0)
    as (Hsi & _).
  unfold sumVertexCount, sumIndexCount in *. cbn [Z.add].
  rewrite <- Hvc, Hsi, <- Hic. exact Hc.
Qed.

(** ** Loading an asset: materials, indices and faults *)

Lemma loadMesh_material (pScene : aiScene.t) (materialOffset : Z)
    (grp grp' : ModelGroup) (model model' : Model.t) (paiMesh : aiMesh.t) :
  loadMesh pScene materialOffset (grp, model) paiMesh = Some (grp', model') ->
  exists part,
    Model.parts model' = Model.parts model ++ [part] /\
    ModelPart.materialIdx part
    = wrap32 (aiMesh.mMaterialIndex paiMesh + materialOffset) /\
    at_ (aiScene.mMaterials pScene) (aiMesh.mMaterialIndex paiMesh) <> None.
Proof.
  intros H. unfold loadMesh in H. inv_bind H. inv_bind H.
  destruct a0 as [vb' dim'].
  destruct (faceLoop _ _ _ _) as [[ib pc] ic]. injection H as _ <-.
  eexists. split; [reflexivity|]. split; [reflexivity|].
  rewrite E. discriminate.
Qed.

Lemma meshLoop_materials (pScene : aiScene.t) (materialOffset : Z) :
  forall meshes grp grp' model model',
    meshLoop pScene materialOffset meshes (grp, model) = Some (grp', model') ->
    exists newParts,
      Model.parts model' = Model.parts model ++ newParts /\
      Forall2
        (fun part mesh =>
           ModelPart.materialIdx part
           = wrap32 (aiMesh.mMaterialIndex mesh + materialOffset) /\
           at_ (aiScene.mMaterials pScene) (aiMesh.mMaterialIndex mesh)
           <> None)
        newParts meshes.
Proof.
  induction meshes as [|m meshes IH]; intros grp grp' model model' H.
  - injection H as _ <-. exists []. rewrite app_nil_r. split; constructor.
  - cbn [meshLoop] in H. inv_bind H. destruct a as [grp1 model1].
    apply loadMesh_material in E. destruct E as (part & Hp & Hm & Ha).
    apply IH in H. destruct H as (newParts & Hps & Hall).
    exists (part :: newParts).
    split; [rewrite Hps, Hp, <- app_assoc; reflexivity|].
    constructor; auto.
Qed.

Lemma addModel_new_model (filename : string) (pScene : aiScene.t)
    (grp grp' : ModelGroup) (ret : Z) (out : list Event) :
  addModel filename (Scene pScene) grp = Some (grp', ret, out) ->
  exists model,
    models grp' = models grp ++ [model] /\
    aiMaterials grp' = aiMaterials grp ++ aiScene.mMaterials pScene /\
    materials grp' = materials grp /\
    ret = U32.to_int32 (wrap32 (Z.of_nat (length (models grp)))) /\
    Forall2
      (fun part mesh =>
         ModelPart.materialIdx part
         = wrap32 (aiMesh.mMaterialIndex mesh
                   + wrap32 (Z.of_nat (length (aiMaterials grp)))) /\
         at_ (aiScene.mMaterials pScene) (aiMesh.mMaterialIndex mesh) <> None)
      (Model.parts model) (aiScene.mMeshes pScene).
Proof.
  intros H. unfold addModel in H. inv_bind H. destruct a as [grp2 model].
  injection H as <- <- _.
  pose proof (meshLoop_frame _ _ _ _ _ _ _ E) as (vc & ic & vb & ib & ->).
  apply meshLoop_materials in E. destruct E as (newParts & Hps & Hall).
  cbn [Model.parts app] in Hps. exists model. rewrite Hps.
  repeat split. exact Hall.
Qed.

(** X16. The material index of a part of the new model is the place, in
    the shared list of imported materials, of the material that its mesh
    names within the asset; and after [prepare] it is, counted from the
    materials held before, the place of that material's packed form (as
    long as the shared list holds fewer than 2^32 materials). *)
Theorem addModel_material_index_resolves (filename : string)
    (pScene : aiScene.t) (grp grp' : ModelGroup) (ret : Z)
    (out : list Event) :
  addModel filename (Scene pScene) grp = Some (grp', ret, out) ->
  Z.of_nat (length (aiMaterials grp')) < 2 ^ 32 ->
  exists model,
    models grp' = models grp ++ [model] /\
    Forall2
      (MaterialResolves pScene (aiMaterials grp')
         (materials (fst (fst (prepare grp')))) (length (materials grp'))
         (mapDicLoop (aiMaterials grp') []))
      (Model.parts model) (aiScene.mMeshes pScene).
Proof.
  intros H Hlen.
  destruct (addModel_new_model _ _ _ _ _ _ H)
    as (model & Hm & Hai & _ & _ & Hall).
  exists model. split; [exact Hm|].
  rewrite prepare_materials, Hai in *.
  rewrite length_app, Nat2Z.inj_add in Hlen.
  rewrite wrap32_small in Hall by lia.
  eapply Forall2_impl; [|exact Hall]. intros part mesh [Hidx Hat].
  unfold at_ in Hat.
  destruct (aiMesh.mMaterialIndex mesh <? 0) eqn:Hneg; [contradiction|].
  apply Z.ltb_ge in Hneg.
  destruct (nth_error (aiScene.mMaterials pScene)
              (Z.to_nat (aiMesh.mMaterialIndex mesh))) as [mat|] eqn:Hmat;
    [|contradiction].
  assert (Hlt : (Z.to_nat (aiMesh.mMaterialIndex mesh)
                 < length (aiScene.mMaterials pScene))%nat)
    by (apply nth_error_Some; congruence).
  rewrite wrap32_small in Hidx by lia.
  assert (Hk : Z.to_nat (ModelPart.materialIdx part)
               = (length (aiMaterials grp)
                  + Z.to_nat (aiMesh.mMaterialIndex mesh))%nat) by lia.
  exists mat. split; [exact Hneg|]. split; [exact Hmat|].
  assert (Hn : nth_error (aiMaterials grp ++ aiScene.mMaterials pScene)
                 (Z.to_nat (ModelPart.materialIdx part)) = Some mat).
  { rewrite Hk, nth_error_app2 by lia.
    replace (length (aiMaterials grp)
             + Z.to_nat (aiMesh.mMaterialIndex mesh)
             - length (aiMaterials grp))%nat
      with (Z.to_nat (aiMesh.mMaterialIndex mesh)) by lia.
    exact Hmat. }
  split; [exact Hn|].
  rewrite nth_error_app2 by lia.
  replace (length (materials grp') + Z.to_nat (ModelPart.materialIdx part)
           - length (materials grp'))%nat
    with (Z.to_nat (ModelPart.materialIdx part)) by lia.
  rewrite nth_error_map, Hn. reflexivity.
Qed.

(** X17. The [int] that [addModel] returns for a loaded asset is the
    position of the new model in [models]; the new model has one part per
    mesh of the asset; and the models loaded before keep their positions. *)
Theorem addModel_returns_index_of_new_model (filename : string)
    (pScene : aiScene.t) (grp grp' : ModelGroup) (ret : Z)
    (out : list Event) :
  addModel filename (Scene pScene) grp = Some (grp', ret, out) ->
  Z.of_nat (length (models grp)) < 2 ^ 31 ->
  exists model,
    nth_error (models grp') (Z.to_nat ret) = Some model /\
    length (Model.parts model) = length (aiScene.mMeshes pScene) /\
    length (models grp') = S (length (models grp)) /\
    forall i m,
      nth_error (models grp) i = Some m -> nth_error (models grp') i = Some m.
Proof.
  intros H Hlen.
  destruct (addModel_new_model _ _ _ _ _ _ H)
    as (model & Hm & _ & _ & -> & Hall).
  exists model. rewrite Hm. unfold U32.to_int32.
  rewrite !(wrap32_small (Z.of_nat (length (models grp)))) by lia.
  replace (Z.of_nat (length (models grp)) <? 2 ^ 31) with true
    by (symmetry; apply Z.ltb_lt; lia).
  rewrite Nat2Z.id, nth_error_app2, Nat.sub_diag by lia.
  split; [reflexivity|]. split; [exact (Forall2_length Hall)|].
  split; [rewrite length_app; cbn; lia|].
  intros i m Hi. rewrite nth_error_app1; [exact Hi|].
  apply nth_error_Some. congruence.
Qed.

Lemma layoutLoop_null_normal (components : list Component)
    (pPos : aiVector3D.t) (t tg bt : option aiVector3D.t)
    (pColor : aiColor3D.t) :
  In VERTEX_COMPONENT_NORMAL components ->
  forall vb,
    layoutLoop components pPos None t tg bt pColor vb = None.
Proof.
  induction components as [|c cs IH]; intros Hin vb; [contradiction|].
  cbn [layoutLoop].
  destruct (pushComponent c pPos None t tg bt pColor vb) as [vb'|] eqn:E;
    [|reflexivity].
  cbn [bind]. destruct Hin as [->|Hin]; [discriminate|]. apply IH, Hin.
Qed.

Lemma meshLoop_faults (pScene : aiScene.t) (materialOffset : Z)
    (bad : aiMesh.t) (components : list Component) :
  (forall g model,
      layout g = components ->
      loadMesh pScene materialOffset (g, model) bad = None) ->
  forall meshes g model,
    layout g = components ->
    In bad meshes ->
    meshLoop pScene materialOffset meshes (g, model) = None.
Proof.
  intros Hbad. induction meshes as [|m meshes IH]; intros g model Hlay Hin;
    [contradiction|].
  cbn [meshLoop].
  destruct (loadMesh pScene materialOffset (g, model) m) as [[g1 model1]|]
    eqn:E; [|reflexivity].
  cbn [bind]. destruct Hin as [->|Hin].
  - rewrite (Hbad _ _ Hlay) in E. discriminate.
  - apply IH; [|exact Hin]. apply loadMesh_frame in E.
    destruct E as (vc & ic & vb & ib & ->). exact Hlay.
Qed.

(** X18. [addModel] does not check what the importer hands over: it reads
    out of range, and so faults, when a mesh names a material index that
    the scene does not have, and it dereferences a null pointer when a
    mesh with at least one vertex has no normals while the layout holds
    the normal component. *)
Theorem addModel_faults_on_malformed_mesh (filename : string)
    (pScene : aiScene.t) (grp : ModelGroup) (bad : aiMesh.t) :
  In bad (aiScene.mMeshes pScene) ->
  at_ (aiScene.mMaterials pScene) (aiMesh.mMaterialIndex bad) = None \/
  (aiMesh.mNormals bad = None /\ aiMesh.mVertices bad <> [] /\
   In VERTEX_COMPONENT_NORMAL (layout grp)) ->
  addModel filename (Scene pScene) grp = None.
Proof.
  intros Hin Hbad. unfold addModel.
  rewrite (meshLoop_faults pScene _ bad (layout grp));
    [reflexivity| |reflexivity|exact Hin].
  intros g model Hlay. unfold loadMesh.
  destruct Hbad as [Hmat|(Hnull & Hvs & Hnormal)].
  - rewrite Hmat. reflexivity.
  - destruct (at_ (aiScene.mMaterials pScene) (aiMesh.mMaterialIndex bad));
      [|reflexivity].
    cbn [bind]. destruct (aiMesh.mVertices bad) as [|p ps] eqn:Ev;
      [contradiction|].
    cbn [vertexLoop]. rewrite Hnull. cbn [aiMesh.elem bind].
    rewrite Hlay, layoutLoop_null_normal by exact Hnormal. reflexivity.
Qed.

(** ** Loading an asset: the bounding box *)

Lemma fmax_choice (v acc : float) :
  F32.fmax v acc = v \/ F32.fmax v acc = acc.
Proof.
  unfold F32.fmax. destruct (SFcompare v acc) as [[| |]|]; auto.
  destruct (F32.is_nan v); auto.
Qed.

Lemma fmin_choice (v acc : float) :
  F32.fmin v acc = v \/ F32.fmin v acc = acc.
Proof.
  unfold F32.fmin. destruct (SFcompare v acc) as [[| |]|]; auto.
  destruct (F32.is_nan v); auto.
Qed.

Lemma fmax_first (c : float) :
  inRange c -> F32.fmax c (F32.opp F32.FLT_MAX) = c.
Proof.
  intros [H _]. unfold F32.fmax, F32.leb, SFleb in *.
  rewrite compare_antisym.
  destruct (SFcompare (F32.opp F32.FLT_MAX) c) as [[| |]|];
    try discriminate; reflexivity.
Qed.

Lemma fmin_first (c : float) :
  inRange c -> F32.fmin c F32.FLT_MAX = c.
Proof.
  intros [_ H]. unfold F32.fmin, F32.leb, SFleb in *.
  destruct (SFcompare c F32.FLT_MAX) as [[| |]|];
    try discriminate; reflexivity.
Qed.

Lemma foldMax_choice (coord : aiVector3D.t -> float)
    (ps : list aiVector3D.t) :
  forall start,
    foldMax coord ps start = start \/
    attained coord ps (foldMax coord ps start).
Proof.
  induction ps as [|p ps IH]; intros start; [left; reflexivity|].
  change (foldMax coord (p :: ps) start)
    with (foldMax coord ps (F32.fmax (coord p) start)).
  destruct (IH (F32.fmax (coord p) start)) as [E|(q & Hq & E)].
  - rewrite E. destruct (fmax_choice (coord p) start) as [->| ->];
      [right; exists p; split; [left; reflexivity|reflexivity]|left; reflexivity].
  - right. exists q. split; [right; exact Hq|exact E].
Qed.

Lemma foldMin_choice (coord : aiVector3D.t -> float)
    (ps : list aiVector3D.t) :
  forall start,
    foldMin coord ps start = start \/
    attained coord ps (foldMin coord ps start).
Proof.
  induction ps as [|p ps IH]; intros start; [left; reflexivity|].
  change (foldMin coord (p :: ps) start)
    with (foldMin coord ps (F32.fmin (coord p) start)).
  destruct (IH (F32.fmin (coord p) start)) as [E|(q & Hq & E)].
  - rewrite E. destruct (fmin_choice (coord p) start) as [->| ->];
      [right; exists p; split; [left; reflexivity|reflexivity]|left; reflexivity].
  - right. exists q. split; [right; exact Hq|exact E].
Qed.

Lemma foldMax_attained (coord : aiVector3D.t -> float) (p : aiVector3D.t)
    (ps : list aiVector3D.t) :
  inRange (coord p) ->
  attained coord (p :: ps) (foldMax coord (p :: ps) (F32.opp F32.FLT_MAX)).
Proof.
  intros H.
  change (foldMax coord (p :: ps) (F32.opp F32.FLT_MAX))
    with (foldMax coord ps (F32.fmax (coord p) (F32.opp F32.FLT_MAX))).
  rewrite (fmax_first _ H).
  destruct (foldMax_choice coord ps (coord p)) as [->|(q & Hq & E)].
  - exists p. split; [left; reflexivity|reflexivity].
  - exists q. split; [right; exact Hq|exact E].
Qed.

Lemma foldMin_attained (coord : aiVector3D.t -> float) (p : aiVector3D.t)
    (ps : list aiVector3D.t) :
  inRange (coord p) ->
  attained coord (p :: ps) (foldMin coord (p :: ps) F32.FLT_MAX).
Proof.
  intros H.
  change (foldMin coord (p :: ps) F32.FLT_MAX)
    with (foldMin coord ps (F32.fmin (coord p) F32.FLT_MAX)).
  rewrite (fmin_first _ H).
  destruct (foldMin_choice coord ps (coord p)) as [->|(q & Hq & E)].
  - exists p. split; [left; reflexivity|reflexivity].
  - exists q. split; [right; exact Hq|exact E].
Qed.

(** X19. The bounding box is tight: when the asset has at least one
    vertex and the coordinates of its first position are numbers within
    [-FLT_MAX, FLT_MAX], each of the six bounds of the new model's box is
    the coordinate of one of the positions of the asset. *)
Theorem addModel_box_is_tight (filename : string) (pScene : aiScene.t)
    (grp grp' : ModelGroup) (ret : Z) (out : list Event) (p : aiVector3D.t)
    (ps : list aiVector3D.t) :
  addModel filename (Scene pScene) grp = Some (grp', ret, out) ->
  countersInRange grp ->
  scenePositions pScene = p :: ps ->
  positionInRange p ->
  exists model,
    models grp' = models grp ++ [model] /\
    let lo := Dimension.min (Model.dim model) in
    let hi := Dimension.max (Model.dim model) in
    attained aiVector3D.x (p :: ps) (glm.x lo) /\
    attained aiVector3D.y (p :: ps) (glm.y lo) /\
    attained aiVector3D.z (p :: ps) (glm.z lo) /\
    attained aiVector3D.x (p :: ps) (glm.x hi) /\
    attained aiVector3D.y (p :: ps) (glm.y hi) /\
    attained aiVector3D.z (p :: ps) (glm.z hi).
Proof.
  intros H [Hic Hvc] Hps (Rx & Ry & Rz).
  apply addModel_Scene_spec in H; [|exact Hic|exact Hvc].
  destruct H as (chunks & model & _ & _ & -> & Hmin & Hmax & _).
  exists model. split; [reflexivity|]. cbv zeta.
  destruct (foldPositions_coords (scenePositions pScene) Dimension.init)
    as (Lx & Ly & Lz & Hx & Hy & Hz).
  rewrite <- Hmin in Lx, Ly, Lz. rewrite <- Hmax in Hx, Hy, Hz.
  cbn [Dimension.init Dimension.min Dimension.max glm.splat glm.x glm.y glm.z]
    in Lx, Ly, Lz, Hx, Hy, Hz.
  rewrite Lx, Ly, Lz, Hx, Hy, Hz, Hps.
  repeat split;
    first [apply foldMin_attained; assumption
          |apply foldMax_attained; assumption].
Qed.

Lemma sub_self (c : float) : inRange c -> F32.sub c c = F32.zero.
Proof.
  intros [H1 H2]. unfold F32.sub, SFsub.
  destruct c as [s|s| |s m e].
  - destruct s; reflexivity.
  - destruct s; [discriminate H1|discriminate H2].
  - discriminate H1.
  - rewrite Z.sub_diag. reflexivity.
Qed.

Lemma loadMesh_size (pScene : aiScene.t) (materialOffset : Z)
    (acc acc' : ModelGroup * Model.t) (paiMesh : aiMesh.t) :
  loadMesh pScene materialOffset acc paiMesh = Some acc' ->
  Dimension.size (Model.dim (snd acc'))
  = Some (glm.sub (Dimension.max (Model.dim (snd acc')))
            (Dimension.min (Model.dim (snd acc')))).
Proof.
  destruct acc as [g model]. intros H. unfold loadMesh in H.
  inv_bind H. inv_bind H. destruct a0 as [vb' dim'].
  destruct (faceLoop _ _ _ _) as [[ib pc] ic]. injection H as <-.
  reflexivity.
Qed.

Lemma meshLoop_size (pScene : aiScene.t) (materialOffset : Z) :
  forall meshes acc acc',
    meshes <> [] ->
    meshLoop pScene materialOffset meshes acc = Some acc' ->
    Dimension.size (Model.dim (snd acc'))
    = Some (glm.sub (Dimension.max (Model.dim (snd acc')))
              (Dimension.min (Model.dim (snd acc')))).
Proof.
  induction meshes as [|m meshes IH]; intros acc acc' Hne H; [congruence|].
  cbn [meshLoop] in H. inv_bind H.
  destruct meshes as [|m2 meshes'].
  - injection H as <-. eapply loadMesh_size, E.
  - eapply IH; [discriminate|exact H].
Qed.

(** X20. [dim.size] is [dim.max - dim.min] once an asset with at least
    one mesh is loaded; for an asset without meshes the box keeps its
    initial bounds ([FLT_MAX] as minimum, [-FLT_MAX] as maximum), [size]
    is never assigned and the model has no part. *)
Theorem addModel_box_size (filename : string) (pScene : aiScene.t)
    (grp grp' : ModelGroup) (ret : Z) (out : list Event) :
  addModel filename (Scene pScene) grp = Some (grp', ret, out) ->
  exists model,
    models grp' = models grp ++ [model] /\
    (aiScene.mMeshes pScene <> [] ->
     Dimension.size (Model.dim model)
     = Some (glm.sub (Dimension.max (Model.dim model))
               (Dimension.min (Model.dim model)))) /\
    (aiScene.mMeshes pScene = [] -> model = Model.mk [] Dimension.init).
Proof.
  intros H. unfold addModel in H. inv_bind H. destruct a as [grp2 model].
  injection H as <- _ _.
  pose proof (meshLoop_frame _ _ _ _ _ _ _ E) as (vc & ic & vb & ib & ->).
  exists model. split; [reflexivity|]. split.
  - intros Hne. exact (meshLoop_size _ _ _ _ _ Hne E).
  - intros Hnil. rewrite Hnil in E. cbn [meshLoop] in E. congruence.
Qed.

(** X21. For an asset whose only vertex has coordinates within
    [-FLT_MAX, FLT_MAX], the box of the new model has that vertex as
    minimum and as maximum, and a size of zero. *)
Theorem addModel_one_vertex_box (filename : string) (pScene : aiScene.t)
    (grp grp' : ModelGroup) (ret : Z) (out : list Event) (p : aiVector3D.t) :
  addModel filename (Scene pScene) grp = Some (grp', ret, out) ->
  countersInRange grp ->
  scenePositions pScene = [p] ->
  positionInRange p ->
  exists model,
    models grp' = models grp ++ [model] /\
    Model.dim model
    = Dimension.mk
        (glm.mkvec3 (aiVector3D.x p) (aiVector3D.y p) (aiVector3D.z p))
        (glm.mkvec3 (aiVector3D.x p) (aiVector3D.y p) (aiVector3D.z p))
        (Some (glm.splat F32.zero)).
Proof.
  intros H [Hic Hvc] Hps (Rx & Ry & Rz).
  assert (Hne : aiScene.mMeshes pScene <> []).
  { intros E. unfold scenePositions in Hps. rewrite E in Hps. discriminate. }
  unfold addModel in H. inv_bind H. destruct a as [grp2 model].
  injection H as <- _ _.
  pose proof (meshLoop_size _ _ _ _ _ Hne E) as Hs. cbn [snd] in Hs.
  pose proof (meshLoop_frame _ _ _ _ _ _ _ E) as (vc & ic & vb & ib & Hg).
  apply meshLoop_spec in E; [|exact Hic|exact Hvc].
  destruct E as (chunks & newParts & _ & _ & _ & _ & Hmin & Hmax).
  fold (scenePositions pScene) in Hmin, Hmax. rewrite Hps in Hmin, Hmax.
  exists model. split; [rewrite Hg; reflexivity|].
  destruct (foldPositions_coords [p] Dimension.init)
    as (Lx & Ly & Lz & Hx & Hy & Hz).
  cbn [Model.dim] in Hmin, Hmax.
  rewrite <- Hmin in Lx, Ly, Lz. rewrite <- Hmax in Hx, Hy, Hz.
  cbn [Dimension.init Dimension.min Dimension.max glm.splat glm.x glm.y glm.z
       foldMin foldMax fold_left] in Lx, Ly, Lz, Hx, Hy, Hz.
  rewrite fmin_first in Lx, Ly, Lz by assumption.
  rewrite fmax_first in Hx, Hy, Hz by assumption.
  destruct (Model.dim model) as [[lx ly lz] [hx hy hz] size].
  cbn [Dimension.min Dimension.max Dimension.size glm.x glm.y glm.z] in *.
  subst. unfold glm.sub, glm.splat. cbn [glm.x glm.y glm.z].
  rewrite !sub_self by assumption. reflexivity.
Qed.

(** ** Loading an asset: what is left alone *)

Lemma loadMesh_appends (pScene : aiScene.t) (materialOffset : Z)
    (grp grp' : ModelGroup) (model model' : Model.t) (paiMesh : aiMesh.t) :
  loadMesh pScene materialOffset (grp, model) paiMesh = Some (grp', model') ->
  exists newV newI,
    vertexBuffer grp' = vertexBuffer grp ++ newV /\
    indexBuffer grp' = indexBuffer grp ++ newI.
Proof.
  intros H. unfold loadMesh in H. inv_bind H. inv_bind H.
  destruct a0 as [vb' dim']. apply vertexLoop_spec in E0.
  destruct E0 as (_ & chunks & -> & _). rewrite faceLoop_spec in H.
  injection H as <- _. cbn. eauto.
Qed.

Lemma meshLoop_appends (pScene : aiScene.t) (materialOffset : Z) :
  forall meshes grp grp' model model',
    meshLoop pScene materialOffset meshes (grp, model) = Some (grp', model') ->
    exists newV newI,
      vertexBuffer grp' = vertexBuffer grp ++ newV /\
      indexBuffer grp' = indexBuffer grp ++ newI.
Proof.
  induction meshes as [|m meshes IH]; intros grp grp' model model' H.
  - injection H as <- _. exists [], []. rewrite !app_nil_r. auto.
  - cbn [meshLoop] in H. inv_bind H. destruct a as [grp1 model1].
    apply loadMesh_appends in E. destruct E as (v1 & i1 & Hv1 & Hi1).
    apply IH in H. destruct H as (v2 & i2 & -> & ->).
    rewrite Hv1, Hi1, <- !app_assoc. eauto.
Qed.

(** X22. [addModel] only appends: the vertex buffer, the index buffer,
    the imported materials and the models of the group are kept as a
    prefix, so every range of the buffers that lay within them holds the
    same data afterwards; the instances, the instance data, the packed
    materials, the layout and the sizes of the device buffers are left as
    they were. *)
Theorem addModel_only_appends (filename : string) (pScene : ReadFile)
    (grp grp' : ModelGroup) (ret : Z) (out : list Event) :
  addModel filename pScene grp = Some (grp', ret, out) ->
  (exists newV newI newMaterials newModels,
      vertexBuffer grp' = vertexBuffer grp ++ newV /\
      indexBuffer grp' = indexBuffer grp ++ newI /\
      aiMaterials grp' = aiMaterials grp ++ newMaterials /\
      models grp' = models grp ++ newModels) /\
  (forall base count,
      (base + count <= length (indexBuffer grp))%nat ->
      slice base count (indexBuffer grp')
      = slice base count (indexBuffer grp)) /\
  (forall base count,
      (base + count <= length (vertexBuffer grp))%nat ->
      slice base count (vertexBuffer grp')
      = slice base count (vertexBuffer grp)) /\
  instances grp' = instances grp /\
  instanceDatas grp' = instanceDatas grp /\
  materials grp' = materials grp /\
  layout grp' = layout grp /\
  instanceBuff_size grp' = instanceBuff_size grp /\
  materialsBuff_size grp' = materialsBuff_size grp.
Proof.
  intros H.
  destruct (addModel_frame _ _ _ _ _ _ H)
    as (Hi & Hd & Hl & _ & Hm & Hib & Hmb & nm & new & Ham & Hmo).
  assert (Hbuf : exists newV newI,
             vertexBuffer grp' = vertexBuffer grp ++ newV /\
             indexBuffer grp' = indexBuffer grp ++ newI).
  { destruct pScene as [pScene|err].
    - unfold addModel in H. inv_bind H. destruct a as [grp2 model].
      injection H as <- _ _. apply meshLoop_appends in E. exact E.
    - injection H as <- _ _. exists [], []. rewrite !app_nil_r. auto. }
  destruct Hbuf as (newV & newI & Hv & Hx).
  split; [exists newV, newI, nm, new; auto|].
  split; [intros base count Hle; rewrite Hx; apply slice_app_before, Hle|].
  split; [intros base count Hle; rewrite Hv; apply slice_app_before, Hle|].
  auto 10.
Qed.

(** ** The vertex layout *)

(** X23. [VertexLayout::stride] is four bytes for every float that the
    loop over the layout components pushes for one vertex (while that
    stays below 2^32); for the layout a group is constructed with
    (position, normal, UV) it is 32. *)
Theorem stride_is_bytes_pushed_per_vertex (components : list Component)
    (pPos : aiVector3D.t)
    (pNormal pTexCoord pTangent pBiTangent : option aiVector3D.t)
    (pColor : aiColor3D.t) (vb vb' : list float) :
  layoutLoop components pPos pNormal pTexCoord pTangent pBiTangent pColor vb
  = Some vb' ->
  4 * Z.of_nat (floatsPerVertex components) < 2 ^ 32 ->
  stride components
  = 4 * (Z.of_nat (length vb') - Z.of_nat (length vb)) /\
  stride defaultLayout = 32.
Proof.
  intros H Hlt. split; [|reflexivity].
  apply layoutLoop_chunk in H. destruct H as (chunk & -> & Hchunk).
  rewrite length_app, Nat2Z.inj_add, (VertexChunk_length _ _ _ Hchunk).
  rewrite stride_floatsPerVertex. unfold sizeof_float.
  rewrite wrap32_small by lia. lia.
Qed.

(** ** [compareNoCase] *)

Lemma c_str_terminated (s : string) : terminatedText (c_str s).
Proof.
  induction s as [|c s IH]; cbn; [exact I|].
  destruct (Z.eqb_spec (byte c) 0) as [E|E]; cbn; auto.
Qed.

Lemma byte_range (c : ascii) : 0 <= byte c < 256.
Proof.
  unfold byte. pose proof (N_ascii_bounded c) as H. lia.
Qed.

Lemma tolower_zero (c : Z) : 0 <= c -> (tolower c = 0 <-> c = 0).
Proof.
  intros H. unfold tolower.
  destruct (Z.leb_spec 65 c), (Z.leb_spec c 90); cbn; lia.
Qed.

Lemma tolower_nonneg (c : Z) : 0 <= c -> 0 <= tolower c.
Proof.
  intros H. unfold tolower.
  destruct (Z.leb_spec 65 c), (Z.leb_spec c 90); cbn; lia.
Qed.

Lemma tolower_byte_pos (c : ascii) : byte c <> 0 -> 0 < tolower (byte c).
Proof.
  intros H. pose proof (byte_range c) as R.
  pose proof (tolower_nonneg (byte c) (proj1 R)) as N.
  pose proof (tolower_zero (byte c) (proj1 R)) as Z0. lia.
Qed.

Lemma strcasecmp_refl (p : string) : strcasecmp p p = 0.
Proof.
  induction p as [|c p IH]; cbn; [reflexivity|].
  rewrite Z.sub_diag. cbn. exact IH.
Qed.

Lemma strcasecmp_swap : forall p1 p2,
  strcasecmp p2 p1 = - strcasecmp p1 p2.
Proof.
  induction p1 as [|c1 p1 IH]; destruct p2 as [|c2 p2]; cbn; try lia.
  destruct (Z.eqb_spec (tolower (byte c1) - tolower (byte c2)) 0) as [E|E],
           (Z.eqb_spec (tolower (byte c2) - tolower (byte c1)) 0) as [F|F];
    try lia.
  apply IH.
Qed.

Lemma strcasecmp_trans : forall p1 p2 p3,
  terminatedText p1 -> terminatedText p2 ->
  strcasecmp p1 p2 <= 0 -> strcasecmp p2 p3 <= 0 -> strcasecmp p1 p3 <= 0.
Proof.
  induction p1 as [|c1 p1 IH]; intros p2 p3 T1 T2 H12 H23.
  - destruct p3 as [|c3 p3]; cbn; [lia|].
    pose proof (tolower_nonneg _ (proj1 (byte_range c3))). lia.
  - destruct T1 as [N1 T1]. pose proof (tolower_byte_pos c1 N1) as P1.
    destruct p2 as [|c2 p2]; [cbn in H12; lia|].
    destruct T2 as [N2 T2]. pose proof (tolower_byte_pos c2 N2) as P2.
    destruct p3 as [|c3 p3]; [cbn in H23; lia|].
    cbn in H12, H23 |- *.
    destruct (Z.eqb_spec (tolower (byte c1) - tolower (byte c2)) 0),
             (Z.eqb_spec (tolower (byte c2) - tolower (byte c3)) 0),
             (Z.eqb_spec (tolower (byte c1) - tolower (byte c3)) 0);
      try lia.
    exact (IH p2 p3 T1 T2 H12 H23).
Qed.

Lemma strcasecmp_zero : forall p1 p2,
  terminatedText p1 -> terminatedText p2 ->
  (strcasecmp p1 p2 = 0 <->
   map (fun c => tolower (byte c)) (list_ascii_of_string p1)
   = map (fun c => tolower (byte c)) (list_ascii_of_string p2)).
Proof.
  induction p1 as [|c1 p1 IH]; intros [|c2 p2] T1 T2; cbn.
  - tauto.
  - destruct T2 as [N2 _]. pose proof (tolower_byte_pos c2 N2).
    split; [lia|discriminate].
  - destruct T1 as [N1 _]. pose proof (tolower_byte_pos c1 N1).
    split; [lia|discriminate].
  - destruct T1 as [_ T1], T2 as [_ T2].
    destruct (Z.eqb_spec (tolower (byte c1) - tolower (byte c2)) 0) as [E|E].
    + rewrite (IH p2 T1 T2). split.
      * intros ->. f_equal. lia.
      * intros H. injection H as _ H. exact H.
    + split; [lia|]. intros H. injection H as H _. lia.
Qed.

(** X24. [compareNoCase] is a total preorder on strings: it holds of a
    string and itself, of any two strings in at least one direction, and
    it is transitive.  (Being reflexive, it is not a strict ordering.) *)
Theorem compareNoCase_total_preorder (s1 s2 s3 : string) :
  compareNoCase s1 s1 = true /\
  (compareNoCase s1 s2 = true \/ compareNoCase s2 s1 = true) /\
  (compareNoCase s1 s2 = true -> compareNoCase s2 s3 = true ->
   compareNoCase s1 s3 = true).
Proof.
  unfold compareNoCase. split; [|split].
  - rewrite strcasecmp_refl. reflexivity.
  - rewrite (strcasecmp_swap (c_str s1) (c_str s2)).
    destruct (Z.leb_spec (strcasecmp (c_str s1) (c_str s2)) 0);
      [left; reflexivity|right; apply Z.leb_le; lia].
  - rewrite !Z.leb_le.
    apply strcasecmp_trans; apply c_str_terminated.
Qed.

(** X25. [compareNoCase] holds in both directions exactly when the two
    strings, cut at their first NUL, have the same bytes after the letters
    A to Z are lower-cased: letter case and whatever follows an embedded
    NUL are ignored, every other difference is seen. *)
Theorem compareNoCase_both_ways_iff (s1 s2 : string) :
  compareNoCase s1 s2 = true /\ compareNoCase s2 s1 = true <->
  lowered s1 = lowered s2.
Proof.
  unfold compareNoCase, lowered.
  rewrite <- (strcasecmp_zero _ _ (c_str_terminated s1) (c_str_terminated s2)).
  rewrite (strcasecmp_swap (c_str s1) (c_str s2)), !Z.leb_le. lia.
Qed.

(** ** [loadFromFile] *)

Lemma agree_bind {A B A' B' : Type} (R : A -> B -> Prop)
    (S : A' -> B' -> Prop) (m1 : option A) (m2 : option B)
    (k1 : A -> option A') (k2 : B -> option B') :
  agree R m1 m2 ->
  (forall a b, R a b -> agree S (k1 a) (k2 b)) ->
  agree S (bind m1 k1) (bind m2 k2).
Proof.
  destruct m1, m2; cbn; intros H K; try contradiction; auto.
Qed.

Lemma agree_refl {A : Type} (R : A -> A -> Prop) (m : option A) :
  (forall a, R a a) -> agree R m m.
Proof. destruct m; cbn; auto. Qed.

Lemma agree_impl {A B : Type} (R S : A -> B -> Prop) (x : option A)
    (y : option B) :
  (forall a b, R a b -> S a b) -> agree R x y -> agree S x y.
Proof. destruct x, y; cbn; auto. Qed.

Lemma pushScaled_agree (info1 info2 : ModelCreateInfo.t)
    (component : Component) (pPos : aiVector3D.t)
    (pNormal pTexCoord pTangent pBiTangent : option aiVector3D.t)
    (pColor : aiColor3D.t) (vb1 vb2 : list float) :
  agree (sameGrowth vb1 vb2)
    (pushScaled info1 component pPos pNormal pTexCoord pTangent pBiTangent
       pColor vb1)
    (pushScaled info2 component pPos pNormal pTexCoord pTangent pBiTangent
       pColor vb2).
Proof.
  unfold sameGrowth.
  destruct component; cbn;
    try (destruct pNormal; cbn); try (destruct pTexCoord; cbn);
    try (destruct pTangent; cbn); try (destruct pBiTangent; cbn);
    rewrite ?length_app; cbn; try lia; exact I.
Qed.

Lemma pushComponent_agree (info : ModelCreateInfo.t)
    (component : Component) (pPos : aiVector3D.t)
    (pNormal pTexCoord pTangent pBiTangent : option aiVector3D.t)
    (pColor : aiColor3D.t) (vb1 vb2 : list float) :
  agree (sameGrowth vb1 vb2)
    (pushComponent component pPos pNormal pTexCoord pTangent pBiTangent
       pColor vb1)
    (pushScaled info component pPos pNormal pTexCoord pTangent pBiTangent
       pColor vb2).
Proof.
  unfold sameGrowth.
  destruct component; cbn;
    try (destruct pNormal; cbn); try (destruct pTexCoord; cbn);
    try (destruct pTangent; cbn); try (destruct pBiTangent; cbn);
    rewrite ?length_app; cbn; try lia; exact I.
Qed.

Lemma sameGrowth_trans (vb1 vb2 vb1' vb2' vb1'' vb2'' : list float) :
  sameGrowth vb1 vb2 vb1' vb2' -> sameGrowth vb1' vb2' vb1'' vb2'' ->
  sameGrowth vb1 vb2 vb1'' vb2''.
Proof. unfold sameGrowth. lia. Qed.

Lemma scaledLayoutLoop_agree (info1 info2 : ModelCreateInfo.t)
    (pPos : aiVector3D.t)
    (pNormal pTexCoord pTangent pBiTangent : option aiVector3D.t)
    (pColor : aiColor3D.t) :
  forall components vb1 vb2,
    agree (sameGrowth vb1 vb2)
      (scaledLayoutLoop info1 components pPos pNormal pTexCoord pTangent
         pBiTangent pColor vb1)
      (scaledLayoutLoop info2 components pPos pNormal pTexCoord pTangent
         pBiTangent pColor vb2).
Proof.
  induction components as [|c components IH]; intros vb1 vb2.
  - cbn. unfold sameGrowth. lia.
  - cbn [scaledLayoutLoop].
    eapply agree_bind; [apply pushScaled_agree|].
    intros a b Hab. eapply agree_impl; [|apply IH].
    intros a' b'. apply sameGrowth_trans, Hab.
Qed.

Lemma layoutLoop_agree (info : ModelCreateInfo.t) (pPos : aiVector3D.t)
    (pNormal pTexCoord pTangent pBiTangent : option aiVector3D.t)
    (pColor : aiColor3D.t) :
  forall components vb1 vb2,
    agree (sameGrowth vb1 vb2)
      (layoutLoop components pPos pNormal pTexCoord pTangent pBiTangent
         pColor vb1)
      (scaledLayoutLoop info components pPos pNormal pTexCoord pTangent
         pBiTangent pColor vb2).
Proof.
  induction components as [|c components IH]; intros vb1 vb2.
  - cbn. unfold sameGrowth. lia.
  - cbn [layoutLoop scaledLayoutLoop].
    eapply agree_bind; [apply pushComponent_agree|].
    intros a b Hab. eapply agree_impl; [|apply IH].
    intros a' b'. apply sameGrowth_trans, Hab.
Qed.

Lemma scaledVertexLoop_agree (info1 info2 : ModelCreateInfo.t)
    (components : list Component) (paiMesh : aiMesh.t)
    (pColor : aiColor3D.t) :
  forall vs j vb1 vb2 dim1 dim2,
    agree (fun r1 r2 => sameGrowth vb1 vb2 (fst r1) (fst r2))
      (scaledVertexLoop info1 components paiMesh pColor vs j vb1 dim1)
      (scaledVertexLoop info2 components paiMesh pColor vs j vb2 dim2).
Proof.
  induction vs as [|pPos vs IH]; intros j vb1 vb2 dim1 dim2.
  - cbn. unfold sameGrowth. lia.
  - cbn [scaledVertexLoop].
    eapply agree_bind; [apply scaledLayoutLoop_agree|].
    intros a b Hab. eapply agree_impl; [|apply IH].
    intros a' b'. apply sameGrowth_trans, Hab.
Qed.

Lemma vertexLoop_agree (info : ModelCreateInfo.t)
    (components : list Component) (paiMesh : aiMesh.t)
    (pColor : aiColor3D.t) :
  forall vs j vb1 vb2 dim,
    agree (fun r1 r2 => sameGrowth vb1 vb2 (fst r1) (fst r2)
                        /\ snd r1 = snd r2)
      (vertexLoop components paiMesh pColor vs j vb1 dim)
      (scaledVertexLoop info components paiMesh pColor vs j vb2 dim).
Proof.
  induction vs as [|pPos vs IH]; intros j vb1 vb2 dim.
  - cbn. unfold sameGrowth. split; [lia|reflexivity].
  - cbn [vertexLoop scaledVertexLoop].
    eapply agree_bind; [apply layoutLoop_agree|].
    intros a b Hab. eapply agree_impl; [|apply IH].
    intros a' b' [H1 H2]. split; [|exact H2].
    eapply sameGrowth_trans; [exact Hab|exact H1].
Qed.

Lemma scaledVertexLoop_box (info : ModelCreateInfo.t)
    (components : list Component) (paiMesh : aiMesh.t)
    (pColor : aiColor3D.t) :
  forall vs j vb dim vb' dim',
    scaledVertexLoop info components paiMesh pColor vs j vb dim
    = Some (vb', dim') ->
    dim' = foldPositions vs dim.
Proof.
  induction vs as [|pPos vs IH]; intros j vb dim vb' dim' H.
  - injection H as _ <-. reflexivity.
  - cbn [scaledVertexLoop] in H. inv_bind H. apply IH in H. exact H.
Qed.

Lemma loadPart_agree (components : list Component)
    (info1 info2 : ModelCreateInfo.t) (pScene : aiScene.t)
    (st1 st2 : Loading.t) (paiMesh : aiMesh.t) :
  SameGeometry st1 st2 ->
  agree SameGeometry (loadPart components info1 pScene st1 paiMesh)
    (loadPart components info2 pScene st2 paiMesh).
Proof.
  intros (Hvb & Hib & Hvc & Hic & Hparts). unfold loadPart.
  eapply agree_bind; [apply agree_refl; intros a; exact (eq_refl a)|].
  intros mat ? <-.
  eapply agree_bind; [apply scaledVertexLoop_agree|].
  intros [vb1' dim1'] [vb2' dim2'] Hgrow. cbn [fst] in Hgrow.
  rewrite Hib, Hic.
  destruct (faceLoop _ _ _ _) as [[ib' pic] ic']. cbn.
  unfold SameGeometry, sameGrowth in *. cbn. rewrite Hvc, Hparts.
  repeat split; lia.
Qed.

Lemma partLoop_agree (components : list Component)
    (info1 info2 : ModelCreateInfo.t) (pScene : aiScene.t) :
  forall meshes st1 st2,
    SameGeometry st1 st2 ->
    agree SameGeometry (partLoop components info1 pScene meshes st1)
      (partLoop components info2 pScene meshes st2).
Proof.
  induction meshes as [|m meshes IH]; intros st1 st2 H.
  - exact H.
  - cbn [partLoop]. eapply agree_bind; [apply loadPart_agree, H|].
    intros a b Hab. apply IH, Hab.
Qed.

Lemma loadPart_box (components : list Component)
    (info : ModelCreateInfo.t) (pScene : aiScene.t) (st st' : Loading.t)
    (paiMesh : aiMesh.t) :
  loadPart components info pScene st paiMesh = Some st' ->
  Dimension.min (Loading.dim st')
  = Dimension.min (foldPositions (aiMesh.mVertices paiMesh) (Loading.dim st)) /\
  Dimension.max (Loading.dim st')
  = Dimension.max (foldPositions (aiMesh.mVertices paiMesh) (Loading.dim st)) /\
  Dimension.size (Loading.dim st')
  = Some (glm.sub (Dimension.max (Loading.dim st'))
            (Dimension.min (Loading.dim st'))).
Proof.
  intros H. unfold loadPart in H. inv_bind H. inv_bind H.
  destruct a0 as [vb' dim']. apply scaledVertexLoop_box in E0. subst dim'.
  destruct (faceLoop _ _ _ _) as [[ib' pic] ic'].
  injection H as <-. cbn. auto.
Qed.

Lemma partLoop_box (components : list Component)
    (info : ModelCreateInfo.t) (pScene : aiScene.t) :
  forall meshes st st',
    partLoop components info pScene meshes st = Some st' ->
    Dimension.min (Loading.dim st')
    = Dimension.min
        (foldPositions (flat_map aiMesh.mVertices meshes) (Loading.dim st)) /\
    Dimension.max (Loading.dim st')
    = Dimension.max
        (foldPositions (flat_map aiMesh.mVertices meshes) (Loading.dim st)) /\
    (meshes <> [] ->
     Dimension.size (Loading.dim st')
     = Some (glm.sub (Dimension.max (Loading.dim st'))
               (Dimension.min (Loading.dim st')))) /\
    (meshes = [] -> st' = st).
Proof.
  induction meshes as [|m meshes IH]; intros st st' H.
  - injection H as <-. cbn. repeat split; congruence.
  - cbn [partLoop] in H. inv_bind H. rename a into st1.
    apply loadPart_box in E. destruct E as (Hmin1 & Hmax1 & Hsize1).
    apply IH in H. destruct H as (Hmin & Hmax & Hsize & Hsame).
    cbn [flat_map]. unfold foldPositions in *. rewrite fold_left_app.
    destruct (foldPositions_box (flat_map aiMesh.mVertices meshes)
                (Loading.dim st1)
                (fold_left (fun d p => foldPosition p d) (aiMesh.mVertices m)
                   (Loading.dim st)) Hmin1 Hmax1) as [Bmin Bmax].
    unfold foldPositions in Bmin, Bmax.
    split; [rewrite Hmin; exact Bmin|]. split; [rewrite Hmax; exact Bmax|].
    split; [|discriminate]. intros _.
    destruct meshes as [|m' meshes]; [|apply Hsize; discriminate].
    rewrite (Hsame eq_refl). exact Hsize1.
Qed.

Lemma at_range {A : Type} (v : list A) (i : Z) (a : A) :
  at_ v i = Some a -> 0 <= i < Z.of_nat (length v).
Proof.
  unfold at_. destruct (Z.ltb_spec i 0) as [Hneg|Hpos]; [discriminate|].
  intros Hnth.
  assert (Z.to_nat i < length v)%nat by (apply nth_error_Some; congruence).
  lia.
Qed.

Lemma loadMesh_shadows (components : list Component)
    (info : ModelCreateInfo.t) (pScene : aiScene.t)
    (acc : ModelGroup * Model.t) (st : Loading.t) (paiMesh : aiMesh.t) :
  Z.of_nat (length (aiScene.mMaterials pScene)) <= 2 ^ 32 ->
  Shadows components acc st ->
  agree (Shadows components) (loadMesh pScene 0 acc paiMesh)
    (loadPart components info pScene st paiMesh).
Proof.
  intros Hmats (Hlay & Hvb & Hib & Hvc & Hic & Hparts & Hdim).
  destruct acc as [grp model]. cbn [fst snd] in *.
  unfold loadMesh, loadPart.
  destruct (at_ (aiScene.mMaterials pScene) (aiMesh.mMaterialIndex paiMesh))
    as [mat|] eqn:Hat; [|exact I].
  apply at_range in Hat. cbn [bind]. rewrite Hlay, Hdim.
  eapply agree_bind; [apply (vertexLoop_agree info)|].
  intros [vb1' dim1'] [vb2' dim2'] [Hgrow Hd]. cbn [fst snd] in Hgrow, Hd.
  subst dim2'. rewrite Hib, Hic.
  destruct (faceLoop _ _ _ _) as [[ib' pic] ic']. cbn.
  unfold Shadows, sameGrowth in *. cbn.
  rewrite Hvc, Hparts, Z.add_0_r.
  rewrite (wrap32_small (aiMesh.mMaterialIndex paiMesh)) by lia.
  repeat split; try assumption; lia.
Qed.

Lemma meshLoop_shadows (components : list Component)
    (info : ModelCreateInfo.t) (pScene : aiScene.t) :
  Z.of_nat (length (aiScene.mMaterials pScene)) <= 2 ^ 32 ->
  forall meshes acc st,
    Shadows components acc st ->
    agree (Shadows components) (meshLoop pScene 0 meshes acc)
      (partLoop components info pScene meshes st).
Proof.
  intros Hmats.
  induction meshes as [|m meshes IH]; intros acc st H.
  - exact H.
  - cbn [meshLoop partLoop].
    eapply agree_bind; [apply loadMesh_shadows; [exact Hmats|exact H]|].
    intros a b Hab. apply IH, Hab.
Qed.

Lemma loadMaterials_spec (mapDic : list string) (mats : list aiMaterial.t) :
  forall i materials out,
    fst (loadMaterials mapDic mats i materials out)
    = materials ++ map (loadMaterial mapDic) mats.
Proof.
  induction mats as [|m mats IH]; intros i materials out.
  - cbn. now rewrite app_nil_r.
  - cbn [loadMaterials map]. rewrite IH, <- app_assoc. reflexivity.
Qed.

Lemma scaledVertexLoop_dim (info : ModelCreateInfo.t)
    (components : list Component) (paiMesh : aiMesh.t)
    (pColor : aiColor3D.t) :
  forall vs j vb dim1 dim2,
    agree (fun r1 r2 => fst r1 = fst r2)
      (scaledVertexLoop info components paiMesh pColor vs j vb dim1)
      (scaledVertexLoop info components paiMesh pColor vs j vb dim2).
Proof.
  induction vs as [|pPos vs IH]; intros j vb dim1 dim2.
  - reflexivity.
  - cbn [scaledVertexLoop].
    eapply agree_bind; [apply agree_refl; intros a; exact (eq_refl a)|].
    intros a ? <-. apply IH.
Qed.

Lemma loadPart_dim (components : list Component) (info : ModelCreateInfo.t)
    (pScene : aiScene.t) (st1 st2 : Loading.t) (paiMesh : aiMesh.t) :
  SameButBox st1 st2 ->
  agree SameButBox (loadPart components info pScene st1 paiMesh)
    (loadPart components info pScene st2 paiMesh).
Proof.
  intros (Hvb & Hib & Hvc & Hic & Hparts). unfold loadPart.
  eapply agree_bind; [apply agree_refl; intros a; exact (eq_refl a)|].
  intros mat ? <-. rewrite Hvb.
  eapply agree_bind; [apply scaledVertexLoop_dim|].
  intros [vb1' dim1'] [vb2' dim2'] Hsame. cbn [fst] in Hsame. subst vb2'.
  rewrite Hib, Hic.
  destruct (faceLoop _ _ _ _) as [[ib' pic] ic']. cbn.
  unfold SameButBox. cbn. rewrite Hvc, Hparts. auto.
Qed.

Lemma partLoop_dim (components : list Component) (info : ModelCreateInfo.t)
    (pScene : aiScene.t) :
  forall meshes st1 st2,
    SameButBox st1 st2 ->
    agree SameButBox (partLoop components info pScene meshes st1)
      (partLoop components info pScene meshes st2).
Proof.
  induction meshes as [|m meshes IH]; intros st1 st2 H.
  - exact H.
  - cbn [partLoop]. eapply agree_bind; [apply loadPart_dim, H|].
    intros a b Hab. apply IH, Hab.
Qed.

Lemma loadFromFile_Scene (filename : string) (components : list Component)
    (createInfo : option ModelCreateInfo.t) (pScene : aiScene.t)
    (model model' : vksModel.t) (ok : bool) (trace : list LoadEvent) :
  loadFromFile filename components createInfo (Scene pScene) model
  = Some (model', ok, trace) ->
  let mapDic := mapDicLoop (aiScene.mMaterials pScene) [] in
  let textured := 0 <? Z.of_nat (length mapDic) in
  exists st,
    partLoop components
      (match createInfo with
       | Some info => info
       | None => ModelCreateInfo.unit
       end) pScene (aiScene.mMeshes pScene)
      (Loading.mk [] [] 0 0 [] (vksModel.dim model)) = Some st /\
    ok = true /\
    model'
    = vksModel.mk true (Loading.indexCount st) (Loading.vertexCount st)
        (map (loadMaterial mapDic) (aiScene.mMaterials pScene))
        (if textured then Some (fst (buildTextureArray mapDic))
         else vksModel.texArray model)
        (Loading.parts st) (Loading.dim st) /\
    trace
    = (if textured then snd (buildTextureArray mapDic) else [])
      ++ map Did
           (snd (loadMaterials mapDic (aiScene.mMaterials pScene) 0 [] []))
      ++ stagedCopy (Loading.vertexBuffer st) (Loading.indexBuffer st).
Proof.
  intros H. cbv zeta. unfold loadFromFile in H.
  pose proof (loadMaterials_spec (mapDicLoop (aiScene.mMaterials pScene) [])
                (aiScene.mMaterials pScene) 0 [] []) as Hmat.
  destruct (loadMaterials _ _ _ _ _) as [materials' out].
  cbn [fst app] in Hmat. subst materials'.
  destruct (0 <? Z.of_nat (length (mapDicLoop (aiScene.mMaterials pScene) [])));
    [destruct (buildTextureArray _) as [tex events]|];
    inv_bind H; injection H as <- <- <-; exists a; auto.
Qed.

Lemma loadFromFile_returns (filename : string) (components : list Component)
    (createInfo : option ModelCreateInfo.t) (pScene : aiScene.t)
    (model : vksModel.t) (st : Loading.t) :
  let mapDic := mapDicLoop (aiScene.mMaterials pScene) [] in
  let textured := 0 <? Z.of_nat (length mapDic) in
  partLoop components
    (match createInfo with
     | Some info => info
     | None => ModelCreateInfo.unit
     end) pScene (aiScene.mMeshes pScene)
    (Loading.mk [] [] 0 0 [] (vksModel.dim model)) = Some st ->
  loadFromFile filename components createInfo (Scene pScene) model
  = Some
      (vksModel.mk true (Loading.indexCount st) (Loading.vertexCount st)
         (map (loadMaterial mapDic) (aiScene.mMaterials pScene))
         (if textured then Some (fst (buildTextureArray mapDic))
          else vksModel.texArray model)
         (Loading.parts st) (Loading.dim st),
       true,
       (if textured then snd (buildTextureArray mapDic) else [])
       ++ map Did
            (snd (loadMaterials mapDic (aiScene.mMaterials pScene) 0 [] []))
       ++ stagedCopy (Loading.vertexBuffer st) (Loading.indexBuffer st)).
Proof.
  cbv zeta. intros H. unfold loadFromFile.
  pose proof (loadMaterials_spec (mapDicLoop (aiScene.mMaterials pScene) [])
                (aiScene.mMaterials pScene) 0 [] []) as Hmat.
  destruct (loadMaterials _ _ _ _ _) as [materials' out].
  cbn [fst snd app] in Hmat |- *. subst materials'. rewrite H.
  destruct (0 <? Z.of_nat (length (mapDicLoop (aiScene.mMaterials pScene) [])));
    [destruct (buildTextureArray _) as [tex events]|]; reflexivity.
Qed.

Lemma dimension_eq (d1 d2 : Dimension.t) :
  Dimension.min d1 = Dimension.min d2 ->
  Dimension.max d1 = Dimension.max d2 ->
  Dimension.size d1 = Dimension.size d2 ->
  d1 = d2.
Proof. destruct d1, d2. cbn. congruence. Qed.

Lemma Forall2_Forall_r {A B : Type} (P R : A -> B -> Prop) (Q : B -> Prop)
    (l1 : list A) (l2 : list B) :
  (forall a b, P a b -> Q b -> R a b) ->
  Forall2 P l1 l2 -> Forall Q l2 -> Forall2 R l1 l2.
Proof.
  intros HPQ H. induction H as [|a b l1 l2 Hab _ IH]; intros HQ.
  - constructor.
  - inversion HQ; subst. constructor; auto.
Qed.

Lemma newGroup_shadows (components : list Component)
    (mats : list aiMaterial.t) (dim : Dimension.t) :
  Shadows components
    (setAiMaterials (newGroup components) mats, Model.mk [] dim)
    (Loading.mk [] [] 0 0 [] dim).
Proof. unfold Shadows. cbn. auto 10. Qed.

(** X26. When [loadFromFile] returns for a scene, it returns [true]; the
    model has one part per mesh, the parts lying one after the other from
    vertex 0 and index 0; the index range of each part, in the index data
    that is staged, holds the three-index faces of its mesh; the material
    index of each part is the one its mesh names and is the place of that
    material's entry in [materials]; and the counters are the totals (as
    long as these stay below 2^32). *)
Theorem loadFromFile_parts_address_staged_indices (filename : string)
    (components : list Component) (createInfo : option ModelCreateInfo.t)
    (pScene : aiScene.t) (model model' : vksModel.t) (ok : bool)
    (trace : list LoadEvent) :
  loadFromFile filename components createInfo (Scene pScene) model
  = Some (model', ok, trace) ->
  Z.of_nat (length (aiScene.mMaterials pScene)) < 2 ^ 32 ->
  meshesNumVertices (aiScene.mMeshes pScene) < 2 ^ 32 ->
  3 * meshesNumTriangles (aiScene.mMeshes pScene) < 2 ^ 32 ->
  ok = true /\
  vksModel.vertexCount model' = meshesNumVertices (aiScene.mMeshes pScene) /\
  vksModel.indexCount model'
  = 3 * meshesNumTriangles (aiScene.mMeshes pScene) /\
  PartsContiguous 0 0 (vksModel.parts model') /\
  Forall2 (PartStaged (sceneTriangleIndices pScene)) (vksModel.parts model')
    (aiScene.mMeshes pScene) /\
  Forall
    (fun part =>
       exists mat,
         nth_error (aiScene.mMaterials pScene)
           (Z.to_nat (ModelPart.materialIdx part)) = Some mat /\
         nth_error (vksModel.materials model')
           (Z.to_nat (ModelPart.materialIdx part))
         = Some (loadMaterial (mapDicLoop (aiScene.mMaterials pScene) []) mat))
    (vksModel.parts model') /\
  exists before vertexData,
    trace = before ++ stagedCopy vertexData (sceneTriangleIndices pScene) /\
    Z.of_nat (length vertexData)
    = vksModel.vertexCount model' * Z.of_nat (floatsPerVertex components).
Proof.
  intros H Hmats' Hv Hi.
  assert (Hmats : Z.of_nat (length (aiScene.mMaterials pScene)) <= 2 ^ 32)
    by lia.
  apply loadFromFile_Scene in H. cbv zeta in H.
  destruct H as (st & Hloop & -> & -> & ->).
  cbn [vksModel.vertexCount vksModel.indexCount vksModel.parts
       vksModel.materials].
  pose proof (meshLoop_shadows components
                (match createInfo with
                 | Some info => info
                 | None => ModelCreateInfo.unit
                 end) pScene Hmats (aiScene.mMeshes pScene) _ _
                (newGroup_shadows components [] (vksModel.dim model)))
    as Hsim.
  rewrite Hloop in Hsim.
  destruct (meshLoop pScene 0 (aiScene.mMeshes pScene) _)
    as [[grp md]|] eqn:Hmesh; [|contradiction].
  cbn [agree] in Hsim.
  destruct Hsim as (_ & Hvb & Hib & Hvc & Hic & Hparts & _).
  cbn [fst snd] in *.
  pose proof (meshesNumVertices_nonneg (aiScene.mMeshes pScene)) as Hv0.
  pose proof (meshesNumTriangles_nonneg (aiScene.mMeshes pScene)) as Hi0.
  pose proof Hmesh as Hspec.
  apply meshLoop_spec in Hspec; [|cbn; lia|cbn; lia].
  destruct Hspec as (chunks & newParts' & Hchunks & _ & Hgrp & _).
  apply meshLoop_addresses in Hmesh;
    try (cbn [indexCount vertexCount vertexBuffer indexBuffer layout
              setAiMaterials newGroup length]; lia).
  destruct Hmesh as (newParts & Hnew & Hcont & Haddr & Hat & _).
  cbn [Model.parts app] in Hnew. subst newParts. rewrite Hparts in *.
  subst grp.
  cbn [setGeometry setAiMaterials newGroup vertexCount indexCount vertexBuffer
       indexBuffer layout app] in *.
  rewrite !wrap32_small in * by lia.
  rewrite <- Hvc, <- Hic.
  fold (sceneTriangleIndices pScene) in Hib, Haddr.
  assert (Hstaged : Forall2 (fun part mesh =>
                       PartStaged (sceneTriangleIndices pScene) part mesh /\
                       at_ (aiScene.mMaterials pScene)
                         (ModelPart.materialIdx part) <> None)
                      (Loading.parts st) (aiScene.mMeshes pScene)).
  { eapply Forall2_Forall_r; [|exact Haddr|exact Hat].
    intros part mesh (Hpv & Hpi & Hpm & Hslice & _) Hin.
    destruct (at_ (aiScene.mMaterials pScene) (aiMesh.mMaterialIndex mesh))
      as [mat|] eqn:E; [|contradiction].
    pose proof (at_range _ _ _ E) as Hr.
    rewrite Z.add_0_r, wrap32_small in Hpm by lia.
    unfold PartStaged. rewrite Hpm, E.
    repeat split; try assumption; try discriminate. }
  split; [reflexivity|]. split; [reflexivity|]. split; [reflexivity|].
  split; [exact Hcont|].
  split; [eapply Forall2_impl; [|exact Hstaged]; intros ? ? [? _]; assumption|].
  split.
  { clear - Hstaged. induction Hstaged as [|part mesh ps ms [_ Hne] _ IH];
      constructor; [|exact IH].
    destruct (at_ (aiScene.mMaterials pScene) (ModelPart.materialIdx part))
      as [mat|] eqn:E; [|contradiction].
    exists mat. unfold at_ in E.
    destruct (ModelPart.materialIdx part <? 0); [discriminate|].
    split; [exact E|]. rewrite nth_error_map, E. reflexivity. }
  eexists _, (Loading.vertexBuffer st). rewrite <- Hib.
  split; [rewrite app_assoc; reflexivity|].
  rewrite <- Hvb, (chunks_length _ _ _ Hchunks).
  fold (scenePositions pScene).
  rewrite Nat2Z.inj_mul, meshesNumVertices_positions. reflexivity.
Qed.

Lemma partLoop_box_eq (components1 components2 : list Component)
    (info1 info2 : ModelCreateInfo.t) (pScene : aiScene.t)
    (st0 st1 st2 : Loading.t) :
  partLoop components1 info1 pScene (aiScene.mMeshes pScene) st0 = Some st1 ->
  partLoop components2 info2 pScene (aiScene.mMeshes pScene) st0 = Some st2 ->
  Loading.dim st1 = Loading.dim st2.
Proof.
  intros H1 H2.
  apply partLoop_box in H1. destruct H1 as (Hmin1 & Hmax1 & Hsize1 & Hsame1).
  apply partLoop_box in H2. destruct H2 as (Hmin2 & Hmax2 & Hsize2 & Hsame2).
  destruct (aiScene.mMeshes pScene) as [|m meshes].
  - rewrite (Hsame1 eq_refl), (Hsame2 eq_refl). reflexivity.
  - apply dimension_eq; [congruence|congruence|].
    rewrite Hsize1, Hsize2 by discriminate. congruence.
Qed.

Lemma createInfo_irrelevant (filename : string)
    (components : list Component)
    (createInfo1 createInfo2 : option ModelCreateInfo.t) (pScene : aiScene.t)
    (model model' : vksModel.t) (ok : bool) (trace1 : list LoadEvent) :
  loadFromFile filename components createInfo1 (Scene pScene) model
  = Some (model', ok, trace1) ->
  exists before vertexData1 vertexData2 indexData,
    loadFromFile filename components createInfo2 (Scene pScene) model
    = Some (model', ok, before ++ stagedCopy vertexData2 indexData) /\
    trace1 = before ++ stagedCopy vertexData1 indexData /\
    length vertexData1 = length vertexData2.
Proof.
  intros H. apply loadFromFile_Scene in H. cbv zeta in H.
  destruct H as (st & Hloop & -> & -> & ->).
  pose proof (partLoop_agree components
                (match createInfo1 with
                 | Some info => info
                 | None => ModelCreateInfo.unit
                 end)
                (match createInfo2 with
                 | Some info => info
                 | None => ModelCreateInfo.unit
                 end) pScene (aiScene.mMeshes pScene)
                (Loading.mk [] [] 0 0 [] (vksModel.dim model))
                (Loading.mk [] [] 0 0 [] (vksModel.dim model))) as Hsim.
  rewrite Hloop in Hsim.
  destruct (partLoop components
              (match createInfo2 with
               | Some info => info
               | None => ModelCreateInfo.unit
               end) pScene (aiScene.mMeshes pScene)
              (Loading.mk [] [] 0 0 [] (vksModel.dim model)))
    as [st2|] eqn:Hloop2;
    [|exfalso; apply Hsim; unfold SameGeometry; auto].
  destruct Hsim as (Hvb & Hib & Hvc & Hic & Hparts);
    [unfold SameGeometry; auto|].
  pose proof (partLoop_box_eq _ _ _ _ _ _ _ _ Hloop Hloop2) as Hdim.
  eexists _, (Loading.vertexBuffer st), (Loading.vertexBuffer st2),
    (Loading.indexBuffer st).
  split; [|split; [rewrite app_assoc; reflexivity|exact Hvb]].
  rewrite (loadFromFile_returns _ _ _ _ _ _ Hloop2).
  rewrite Hib, Hvc, Hic, Hparts, Hdim, app_assoc. reflexivity.
Qed.

(** X27. The scale, the UV scale and the centre of [createInfo] change
    nothing but the vertex data that is staged: with any other
    [createInfo] (or none), and through the overload that takes a scale,
    [loadFromFile] returns the same model and the same calls up to the
    contents of the vertex data, which keeps its length.  In particular
    the box is that of the positions as the importer gives them, folded
    into the box the model had. *)
Theorem loadFromFile_box_ignores_createInfo (filename : string)
    (components : list Component)
    (createInfo1 createInfo2 : option ModelCreateInfo.t) (pScene : aiScene.t)
    (model model' : vksModel.t) (ok : bool) (trace1 : list LoadEvent) :
  loadFromFile filename components createInfo1 (Scene pScene) model
  = Some (model', ok, trace1) ->
  (exists before vertexData1 vertexData2 indexData,
      loadFromFile filename components createInfo2 (Scene pScene) model
      = Some (model', ok, before ++ stagedCopy vertexData2 indexData) /\
      trace1 = before ++ stagedCopy vertexData1 indexData /\
      length vertexData1 = length vertexData2) /\
  (forall scale, exists trace2,
      loadFromFile_scale filename components scale (Scene pScene) model
      = Some (model', ok, trace2)) /\
  Dimension.min (vksModel.dim model')
  = Dimension.min (foldPositions (scenePositions pScene) (vksModel.dim model)) /\
  Dimension.max (vksModel.dim model')
  = Dimension.max (foldPositions (scenePositions pScene) (vksModel.dim model)).
Proof.
  intros H.
  split; [exact (createInfo_irrelevant _ _ _ createInfo2 _ _ _ _ _ H)|].
  split.
  { intros scale. unfold loadFromFile_scale.
    destruct (createInfo_irrelevant _ _ _
                (Some (ModelCreateInfo.of_floats scale (F32.of_Z 1) F32.zero))
                _ _ _ _ _ H) as (before & vd1 & vd2 & id & H2 & _).
    eauto. }
  apply loadFromFile_Scene in H. cbv zeta in H.
  destruct H as (st & Hloop & -> & -> & ->).
  cbn [vksModel.dim].
  pose proof (partLoop_box _ _ _ _ _ _ Hloop) as (Hmin & Hmax & _).
  cbn [Loading.dim] in Hmin, Hmax. split; assumption.
Qed.

(** X28. [loadFromFile] on a model that was loaded before replaces its
    parts, materials and counters: the result, the returned value and the
    calls are those of loading into a new model, except for the box, which
    is not reset and becomes the box of the positions of both assets, and
    for the texture array, which an asset without diffuse path leaves as
    it was. *)
Theorem loadFromFile_reload_keeps_box (filenameA filenameB : string)
    (componentsA componentsB : list Component)
    (createInfoA createInfoB : option ModelCreateInfo.t)
    (sceneA sceneB : aiScene.t) (modelA modelB : vksModel.t)
    (okA okB : bool) (traceA traceB : list LoadEvent) :
  loadFromFile filenameA componentsA createInfoA (Scene sceneA) vksModel.init
  = Some (modelA, okA, traceA) ->
  loadFromFile filenameB componentsB createInfoB (Scene sceneB) modelA
  = Some (modelB, okB, traceB) ->
  (exists fresh,
      loadFromFile filenameB componentsB createInfoB (Scene sceneB)
        vksModel.init
      = Some (fresh, okB, traceB) /\
      vksModel.parts modelB = vksModel.parts fresh /\
      vksModel.materials modelB = vksModel.materials fresh /\
      vksModel.vertexCount modelB = vksModel.vertexCount fresh /\
      vksModel.indexCount modelB = vksModel.indexCount fresh) /\
  Dimension.min (vksModel.dim modelB)
  = Dimension.min
      (foldPositions (scenePositions sceneA ++ scenePositions sceneB)
         Dimension.init) /\
  Dimension.max (vksModel.dim modelB)
  = Dimension.max
      (foldPositions (scenePositions sceneA ++ scenePositions sceneB)
         Dimension.init) /\
  (mapDicLoop (aiScene.mMaterials sceneB) [] = [] ->
   vksModel.texArray modelB = vksModel.texArray modelA).
Proof.
  intros HA HB.
  apply loadFromFile_Scene in HA. cbv zeta in HA.
  destruct HA as (stA & HloopA & _ & -> & _).
  apply loadFromFile_Scene in HB. cbv zeta in HB.
  destruct HB as (stB & HloopB & -> & -> & ->).
  cbn [vksModel.dim vksModel.texArray vksModel.parts vksModel.materials
       vksModel.vertexCount vksModel.indexCount] in *.
  pose proof (partLoop_box _ _ _ _ _ _ HloopA) as (HminA & HmaxA & _).
  pose proof (partLoop_box _ _ _ _ _ _ HloopB) as (HminB & HmaxB & _).
  cbn [Loading.dim] in HminA, HmaxA, HminB, HmaxB.
  split; [|split; [|split]].
  - pose proof (partLoop_dim componentsB
                  (match createInfoB with
                   | Some info => info
                   | None => ModelCreateInfo.unit
                   end) sceneB (aiScene.mMeshes sceneB)
                  (Loading.mk [] [] 0 0 [] (Loading.dim stA))
                  (Loading.mk [] [] 0 0 [] (vksModel.dim vksModel.init)))
      as Hsim.
    rewrite HloopB in Hsim.
    destruct (partLoop componentsB _ sceneB (aiScene.mMeshes sceneB)
                (Loading.mk [] [] 0 0 [] (vksModel.dim vksModel.init)))
      as [st0|] eqn:Hloop0;
      [|exfalso; apply Hsim; unfold SameButBox; auto].
    destruct Hsim as (Hvb & Hib & Hvc & Hic & Hparts);
      [unfold SameButBox; auto|].
    eexists. split.
    + rewrite (loadFromFile_returns _ _ _ _ _ _ Hloop0), Hvb, Hib.
      reflexivity.
    + cbn [vksModel.parts vksModel.materials vksModel.vertexCount
           vksModel.indexCount]. auto.
  - rewrite HminB. unfold foldPositions at 2. rewrite fold_left_app.
    apply (foldPositions_box (scenePositions sceneB)); assumption.
  - rewrite HmaxB. unfold foldPositions at 2. rewrite fold_left_app.
    apply (foldPositions_box (scenePositions sceneB)); assumption.
  - intros ->. reflexivity.
Qed.

Lemma layerPaths_app (t1 t2 : list LoadEvent) :
  layerPaths (t1 ++ t2) = layerPaths t1 ++ layerPaths t2.
Proof. apply flat_map_app. Qed.

Lemma blitLayers_app (t1 t2 : list LoadEvent) :
  blitLayers (t1 ++ t2) = blitLayers t1 ++ blitLayers t2.
Proof. apply flat_map_app. Qed.

Lemma mipLoop_silent (tex : Texture2DArray.t) (l : Z) :
  layerPaths (mipLoop tex l) = [] /\ blitLayers (mipLoop tex l) = [].
Proof.
  unfold mipLoop.
  induction (map Z.of_nat (seq 1 (Z.to_nat (Texture2DArray.mipLevels tex - 1))))
    as [|i rest IH]; [split; reflexivity|].
  cbn. exact IH.
Qed.

Lemma Did_silent (out : list Event) :
  layerPaths (map Did out) = [] /\ blitLayers (map Did out) = [] /\
  forallb (fun e => negb (isTextureCall e)) (map Did out) = true.
Proof.
  induction out as [|e out IH]; [repeat split|]. cbn. exact IH.
Qed.

Lemma layerLoop_layers (tex : Texture2DArray.t) :
  forall rest l,
    layerPaths (layerLoop tex rest l) = rest /\
    blitLayers (layerLoop tex rest l)
    = map (fun k => l + Z.of_nat k) (seq 0 (length rest)).
Proof.
  induction rest as [|path rest IH]; intros l; [split; reflexivity|].
  cbn [layerLoop]. destruct (IH (l + 1)) as [IHp IHb].
  destruct (mipLoop_silent tex l) as [Mp Mb].
  rewrite !layerPaths_app, !blitLayers_app, Mp, Mb, IHp, IHb.
  cbn [layerPaths blitLayers flat_map app length seq map].
  split; [reflexivity|]. rewrite Z.add_0_r. f_equal.
  rewrite <- seq_shift, map_map. apply map_ext. intros k. lia.
Qed.

Lemma buildTextureArray_layers (mapDic : list string) :
  layerPaths (snd (buildTextureArray mapDic)) = mapDic /\
  blitLayers (snd (buildTextureArray mapDic))
  = map Z.of_nat (seq 0 (length mapDic)).
Proof.
  unfold buildTextureArray. cbn [snd].
  destruct (layerLoop_layers
              (Texture2DArray.mk (wrap32 (Z.of_nat (length mapDic))) 1024 1024
                 (mipLevelsOf 1024 1024)) mapDic 0) as [Hp Hb].
  rewrite !layerPaths_app, !blitLayers_app, Hp, Hb.
  cbn [layerPaths blitLayers flat_map app]. rewrite !app_nil_r.
  split; [reflexivity|]. apply map_ext. intros k. lia.
Qed.

(** X29. The texture array gets one layer per distinct non-empty diffuse
    path of the scene, loaded in the order in which the materials first
    name them and blitted to the layers 0, 1, ...; [materials] gets one
    entry per material of the scene; the [Md] of a material that names a
    path is the layer loaded from that path, and that of a material
    without path is 0, the first layer.  For a scene without any path no
    call on the texture array is made and it stays as it was; otherwise
    it is 1024 by 1024 with 11 mip levels. *)
Theorem loadFromFile_Md_is_the_layer (filename : string)
    (components : list Component) (createInfo : option ModelCreateInfo.t)
    (pScene : aiScene.t) (model model' : vksModel.t) (ok : bool)
    (trace : list LoadEvent) :
  let mapDic := mapDicLoop (aiScene.mMaterials pScene) [] in
  loadFromFile filename components createInfo (Scene pScene) model
  = Some (model', ok, trace) ->
  Z.of_nat (length mapDic) < 2 ^ 32 ->
  layerPaths trace = firstSeen (diffusePaths (aiScene.mMaterials pScene)) /\
  blitLayers trace = map Z.of_nat (seq 0 (length (layerPaths trace))) /\
  length (vksModel.materials model') = length (aiScene.mMaterials pScene) /\
  (forall i mat m,
      nth_error (aiScene.mMaterials pScene) i = Some mat ->
      nth_error (vksModel.materials model') i = Some m ->
      (aiMaterial.GetTexture mat <> EmptyString ->
       nth_error (layerPaths trace) (Z.to_nat (vksMaterial.Md m))
       = Some (aiMaterial.GetTexture mat)) /\
      (aiMaterial.GetTexture mat = EmptyString -> vksMaterial.Md m = 0)) /\
  (mapDic = [] ->
   vksModel.texArray model' = vksModel.texArray model /\
   forallb (fun e => negb (isTextureCall e)) trace = true) /\
  (mapDic <> [] ->
   vksModel.texArray model'
   = Some (Texture2DArray.mk (Z.of_nat (length mapDic)) 1024 1024 11)).
Proof.
  cbv zeta. intros H Hlen. apply loadFromFile_Scene in H. cbv zeta in H.
  destruct H as (st & _ & _ & -> & ->).
  cbn [vksModel.materials vksModel.texArray].
  set (mapDic := mapDicLoop (aiScene.mMaterials pScene) []) in *.
  assert (Hpaths :
            layerPaths
              ((if 0 <? Z.of_nat (length mapDic)
                then snd (buildTextureArray mapDic) else [])
               ++ map Did
                    (snd (loadMaterials mapDic (aiScene.mMaterials pScene) 0
                            [] []))
               ++ stagedCopy (Loading.vertexBuffer st)
                    (Loading.indexBuffer st))
            = mapDic).
  { rewrite !layerPaths_app, (proj1 (Did_silent _)).
    cbn [stagedCopy layerPaths flat_map app]. rewrite app_nil_r.
    destruct mapDic as [|p rest] eqn:E; [reflexivity|].
    replace (0 <? Z.of_nat (length (p :: rest))) with true
      by (symmetry; apply Z.ltb_lt; cbn [length]; lia).
    apply buildTextureArray_layers. }
  rewrite Hpaths.
  split; [apply mapDicLoop_registry|].
  split.
  { rewrite !blitLayers_app, (proj1 (proj2 (Did_silent _))).
    cbn [stagedCopy blitLayers flat_map app]. rewrite app_nil_r.
    destruct mapDic as [|p rest] eqn:E; [reflexivity|].
    replace (0 <? Z.of_nat (length (p :: rest))) with true
      by (symmetry; apply Z.ltb_lt; cbn [length]; lia).
    apply buildTextureArray_layers. }
  split; [apply length_map|].
  split.
  { intros i mat m Hmat Hm. rewrite nth_error_map, Hmat in Hm.
    injection Hm as <-. unfold loadMaterial. cbn [vksMaterial.Md].
    change (vksMaterial.Md vksMaterial.zeroed) with 0.
    destruct (std_find mapDic (aiMaterial.GetTexture mat)) as [k|] eqn:F.
    - pose proof (std_find_bound _ _ _ F) as Hk.
      pose proof (std_find_Some _ _ _ F) as Hnth.
      rewrite wrap32_small by lia. rewrite Nat2Z.id.
      split; [auto|]. intros Hempty. exfalso. apply nth_error_In in Hnth.
      unfold mapDic in Hnth.
      rewrite mapDicLoop_registry, firstSeen_In, diffusePaths_In in Hnth.
      tauto.
    - split; [|reflexivity]. intros Hne. exfalso.
      apply std_find_None in F. apply F. unfold mapDic.
      rewrite mapDicLoop_registry, firstSeen_In, diffusePaths_In.
      split; [exact Hne|]. exists mat. split; [|reflexivity].
      eapply nth_error_In, Hmat. }
  split.
  - intros E. rewrite E. cbn [length Z.of_nat Z.ltb Z.compare app].
    split; [reflexivity|]. rewrite forallb_app.
    rewrite (proj2 (proj2 (Did_silent _))). reflexivity.
  - intros Hne.
    replace (0 <? Z.of_nat (length mapDic)) with true.
    + unfold buildTextureArray. cbn [fst]. rewrite wrap32_small by lia.
      reflexivity.
    + symmetry. apply Z.ltb_lt. destruct mapDic; [contradiction|].
      cbn [length]. lia.
Qed.

(** X30. [Model::loadFromFile] into a new model and
    [ModelGroup::addModel] into a new group with the same layout agree on
    a scene: both fault or both return; when they return, the only model
    of the group has the parts and the box of the loaded model, the
    counters are the same, the index data that is staged is the index
    buffer of the group, and the vertex data that is staged has the
    length of the vertex buffer of the group.  (The scene has fewer than
    2^31 materials, [addModel] counting them with an [int].) *)
Theorem loadFromFile_agrees_with_addModel (filename : string)
    (components : list Component) (createInfo : option ModelCreateInfo.t)
    (pScene : aiScene.t) :
  Z.of_nat (length (aiScene.mMaterials pScene)) < 2 ^ 31 ->
  agree
    (fun added loaded =>
       snd (fst added) = 0 /\ snd (fst loaded) = true /\
       models (fst (fst added))
       = [Model.mk (vksModel.parts (fst (fst loaded)))
            (vksModel.dim (fst (fst loaded)))] /\
       vertexCount (fst (fst added)) = vksModel.vertexCount (fst (fst loaded)) /\
       indexCount (fst (fst added)) = vksModel.indexCount (fst (fst loaded)) /\
       exists before vertexData,
         snd loaded
         = before ++ stagedCopy vertexData (indexBuffer (fst (fst added))) /\
         length vertexData = length (vertexBuffer (fst (fst added))))
    (addModel filename (Scene pScene) (newGroup components))
    (loadFromFile filename components createInfo (Scene pScene) vksModel.init).
Proof.
  intros Hmats'.
  assert (Hmats : Z.of_nat (length (aiScene.mMaterials pScene)) <= 2 ^ 32)
    by lia.
  pose proof (meshLoop_shadows components
                (match createInfo with
                 | Some info => info
                 | None => ModelCreateInfo.unit
                 end) pScene Hmats (aiScene.mMeshes pScene) _ _
                (newGroup_shadows components (aiScene.mMaterials pScene)
                   Dimension.init)) as Hsim.
  unfold addModel.
  change (wrap32 (Z.of_nat (length (aiMaterials (newGroup components)))))
    with 0.
  change (aiMaterials (newGroup components) ++ aiScene.mMaterials pScene)
    with (aiScene.mMaterials pScene).
  destruct (meshLoop pScene 0 (aiScene.mMeshes pScene) _)
    as [[grp md]|] eqn:Hmesh;
    destruct (partLoop components _ pScene (aiScene.mMeshes pScene) _)
      as [st|] eqn:Hloop; cbn [agree] in Hsim; try contradiction.
  - change (vksModel.dim vksModel.init) with Dimension.init.
    rewrite (loadFromFile_returns filename components createInfo pScene
               vksModel.init st Hloop).
    destruct Hsim as (_ & Hvb & Hib & Hvc & Hic & Hparts & Hdim).
    cbn [fst snd] in *.
    apply meshLoop_frame in Hmesh. destruct Hmesh as (vc & ic & vb & ib & ->).
    cbn [bind agree fst snd models setModels setGeometry setAiMaterials
         newGroup vertexCount indexCount indexBuffer vertexBuffer app
         vksModel.parts vksModel.dim vksModel.vertexCount vksModel.indexCount]
      in *.
    split; [reflexivity|]. split; [reflexivity|].
    split; [destruct md; cbn in *; congruence|].
    split; [exact Hvc|]. split; [exact Hic|].
    eexists _, (Loading.vertexBuffer st). rewrite Hib.
    split; [rewrite app_assoc; reflexivity|]. symmetry. exact Hvb.
  - unfold loadFromFile.
    destruct (loadMaterials _ _ _ _ _) as [materials' out].
    change (vksModel.dim vksModel.init) with Dimension.init.
    rewrite Hloop.
    destruct (0 <? Z.of_nat (length (mapDicLoop (aiScene.mMaterials pScene) [])));
      [destruct (buildTextureArray _) as [tex events]|]; exact I.
Qed.

(** ** The further properties on the example data *)

Lemma exampleGroup_reachable : reachable defaultLayout exampleGroup.
Proof.
  eapply reach_addModel; [apply reach_new|exact exampleGroup_loaded].
Defined.

Lemma twoAssetGroup_reachable : reachable defaultLayout twoAssetGroup.
Proof.
  eapply reach_addModel; [exact exampleGroup_reachable|].
  exact twoAssetGroup_loaded.
Defined.

Lemma placedGroup_placed :
  addInstance_modelMat 0 0 [] pointGroup = Some (placedGroup, 0).
Proof. vm_compute. reflexivity. Defined.

Lemma exampleInstances_valid : refsValid exampleModels exampleInstances.
Proof. repeat constructor; discriminate. Defined.

Lemma vec123_inRange : positionInRange (vec 1 2 3).
Proof.
  unfold positionInRange, inRange. repeat split; vm_compute; reflexivity.
Defined.

Lemma addModel_appends_triangle_indices_example :
  countersInRange (newGroup defaultLayout) /\
  reachable defaultLayout (newGroup defaultLayout) /\
  Z.of_nat (length (indexBuffer exampleGroup)) < 2 ^ 32 /\
  sumVertexCount (models exampleGroup) < 2 ^ 32 /\
  indexBuffer exampleGroup = [0; 1; 2; 0; 1; 2; 2; 1; 0] /\
  indexCount exampleGroup = 9 /\
  map Model.parts (models exampleGroup)
  = [[ModelPart.mk 0 3 0 3 0; ModelPart.mk 3 3 3 6 1]] /\
  indicesGlobal exampleGroup = false /\
  indexBuffer exampleGroup
  = indexBuffer (newGroup defaultLayout) ++ sceneTriangleIndices exampleScene /\
  indexCount exampleGroup
  = wrap32 (indexCount (newGroup defaultLayout)
            + 3 * meshesNumTriangles (aiScene.mMeshes exampleScene)) /\
  exists model,
    models exampleGroup = models (newGroup defaultLayout) ++ [model] /\
    Forall2
      (IndicesMeshLocal defaultLayout exampleScene (vertexBuffer exampleGroup)
         (indexBuffer exampleGroup))
      (Model.parts model) (aiScene.mMeshes exampleScene).
Proof.
  assert (H1 : Z.of_nat (length (indexBuffer exampleGroup)) < 2 ^ 32)
    by (vm_compute; reflexivity).
  assert (H2 : sumVertexCount (models exampleGroup) < 2 ^ 32)
    by (vm_compute; reflexivity).
  destruct (addModel_appends_triangle_indices defaultLayout "scene.obj"
              exampleScene (newGroup defaultLayout) exampleGroup 0 []
              exampleGroup_loaded (newGroup_countersInRange defaultLayout))
    as (Hib & Hic & model & Hm & _ & Hlocal).
  split; [exact (newGroup_countersInRange defaultLayout)|].
  split; [apply reach_new|]. split; [exact H1|]. split; [exact H2|].
  split; [vm_compute; reflexivity|]. split; [vm_compute; reflexivity|].
  split; [vm_compute; reflexivity|]. split; [vm_compute; reflexivity|].
  split; [exact Hib|]. split; [exact Hic|].
  exists model. split; [exact Hm|].
  exact (Hlocal (reach_new defaultLayout) H1 H2).
Defined.

Lemma buildCommandBuffer_draws_every_instance_once_example :
  Z.of_nat (length exampleInstances) < 2 ^ 31 /\
  refsValid exampleModels exampleInstances /\
  exists ds,
    fst (buildCommandBuffer exampleModels exampleInstances []) = [] ++ ds /\
    consecutiveFrom 0 ds /\
    sumZ (map di_instanceCount ds) = Z.of_nat (length exampleInstances) /\
    (length ds <= length exampleInstances)%nat.
Proof.
  assert (H1 : Z.of_nat (length exampleInstances) < 2 ^ 31)
    by (vm_compute; reflexivity).
  split; [exact H1|]. split; [exact exampleInstances_valid|].
  exact (buildCommandBuffer_draws_every_instance_once exampleModels
           exampleInstances [] H1 exampleInstances_valid).
Defined.

Lemma buildCommandBuffer_completes_iff_example :
  Z.of_nat (length exampleInstances) < 2 ^ 31 /\
  snd (buildCommandBuffer exampleModels [DrawCommand.mk 0 1] []) = OutOfBounds /\
  (snd (buildCommandBuffer exampleModels exampleInstances []) = Completed <->
   exampleInstances <> [] /\ refsValid exampleModels exampleInstances).
Proof.
  assert (H1 : Z.of_nat (length exampleInstances) < 2 ^ 31)
    by (vm_compute; reflexivity).
  split; [exact H1|]. split; [reflexivity|].
  exact (buildCommandBuffer_completes_iff exampleModels exampleInstances []
           H1).
Defined.

Lemma buildCommandBuffer_grouped_one_draw_per_key_example :
  let blocks := [(DrawCommand.mk 0 0, 1%nat); (DrawCommand.mk 1 1, 0%nat)] in
  NoDup (map fst blocks) /\
  blockInstances blocks
  = [DrawCommand.mk 0 0; DrawCommand.mk 0 0; DrawCommand.mk 1 1] /\
  exists ds,
    fst (buildCommandBuffer exampleModels (blockInstances blocks) [])
    = [] ++ ds /\
    length ds = length blocks /\
    map di_instanceCount ds = map (fun b => Z.of_nat (S (snd b))) blocks.
Proof.
  intros blocks.
  assert (H1 : NoDup (map fst blocks)).
  { cbn. constructor; [|constructor; [|constructor]].
    - intros [H|[]]. discriminate.
    - intros []. }
  assert (H2 : Z.of_nat (length (blockInstances blocks)) < 2 ^ 31)
    by (vm_compute; reflexivity).
  assert (H3 : refsValid exampleModels (blockInstances blocks))
    by (repeat constructor; discriminate).
  split; [exact H1|]. split; [reflexivity|].
  exact (buildCommandBuffer_grouped_one_draw_per_key exampleModels blocks []
           H1 H2 H3).
Defined.

Lemma addInstance_datas_appends_run_example :
  let datas := [InstanceData.mk 0 []; InstanceData.mk 1 []] in
  let grp' := fst (addInstance_datas 0 0 datas untexturedGroup) in
  Z.of_nat (length datas) < 2 ^ 31 /\
  Z.of_nat (length (instances untexturedGroup)) < 2 ^ 32 /\
  length (instances untexturedGroup) = length (instanceDatas untexturedGroup) /\
  snd (addInstance_datas 0 0 datas untexturedGroup) = 1 /\
  nth_error (instanceDatas grp') 2 = Some (InstanceData.mk 1 []) /\
  grp' = setInstances untexturedGroup
           (instances untexturedGroup
            ++ repeat (DrawCommand.mk 0 0) (length datas))
           (instanceDatas untexturedGroup ++ datas).
Proof.
  intros datas grp'.
  assert (H0 : Z.of_nat (length datas) < 2 ^ 31) by (vm_compute; reflexivity).
  assert (H1 : Z.of_nat (length (instances untexturedGroup)) < 2 ^ 32)
    by (vm_compute; reflexivity).
  assert (H2 : length (instances untexturedGroup)
               = length (instanceDatas untexturedGroup)) by reflexivity.
  destruct (addInstance_datas_appends_run 0 0 datas untexturedGroup H0 H1 H2)
    as (Hgrp & _ & _).
  split; [exact H0|]. split; [exact H1|]. split; [exact H2|]. split; [reflexivity|].
  split; [reflexivity|exact Hgrp].
Defined.

Lemma untexturedGroup_operated : operated defaultLayout untexturedGroup.
Proof.
  unfold untexturedGroup. apply op_addInstance_data.
  eapply op_addModel; [apply op_new|exact pointGroup_loaded].
Defined.

Lemma instances_stay_paired_example :
  operated defaultLayout (fst (fst (prepare untexturedGroup))) /\
  length (instances (fst (fst (prepare untexturedGroup)))) = 1%nat /\
  length (instances (fst (fst (prepare untexturedGroup))))
  = length (instanceDatas (fst (fst (prepare untexturedGroup)))).
Proof.
  assert (H : operated defaultLayout (fst (fst (prepare untexturedGroup))))
    by (apply op_prepare; exact untexturedGroup_operated).
  split; [exact H|]. split; [reflexivity|].
  exact (instances_stay_paired defaultLayout _ H).
Defined.

Lemma placedGroup_is_placed : placed defaultLayout placedGroup.
Proof.
  eapply placed_addInstance; [|exact placedGroup_placed].
  eapply placed_addModel; [apply placed_new|exact pointGroup_loaded].
Defined.

Lemma placed_instances_are_valid_example :
  placed defaultLayout placedGroup /\
  instances placedGroup = [DrawCommand.mk 0 0] /\
  refsValid (models placedGroup) (instances placedGroup) /\
  snd (buildCommandBuffer (models placedGroup) (instances placedGroup) [])
  = Completed.
Proof.
  destruct (placed_instances_are_valid defaultLayout placedGroup []
              placedGroup_is_placed) as (Hv & _ & Hc).
  split; [exact placedGroup_is_placed|]. split; [reflexivity|].
  split; [exact Hv|]. apply Hc; [discriminate|vm_compute; reflexivity].
Defined.

Lemma first_run_is_one_draw_example :
  let datas := [InstanceData.mk 0 []; InstanceData.mk 0 []] in
  let grp' := fst (addInstance_datas 1 1 datas
                     (mkGroup [] [] defaultLayout 0 0 [] [] [] 1024
                        exampleModels [] 0 0)) in
  partAt exampleModels 1 1 = Some (ModelPart.mk 7 3 9 3 1) /\
  buildCommandBuffer (models grp') (instances grp') []
  = ([] ++ [mkDraw 3 (Z.of_nat (length datas)) 9 (U32.to_int32 7) 0],
     Completed).
Proof.
  intros datas grp'. split; [reflexivity|].
  refine (first_run_is_one_draw 1 1 datas
            (mkGroup [] [] defaultLayout 0 0 [] [] [] 1024 exampleModels []
               0 0)
            (ModelPart.mk 7 3 9 3 1) [] _ _ _ _).
  - reflexivity.
  - reflexivity.
  - discriminate.
  - vm_compute. reflexivity.
Defined.

Lemma instance_buffer_goes_stale_example :
  instanceDatas untexturedGroup <> [] /\
  snd (updateInstancesBuffer
         (fst (addInstance_data 0 0 (InstanceData.mk 0 [])
                 (fst (fst (buildInstanceBuffer untexturedGroup))))))
  = OutOfBounds /\
  exists rest,
    snd (fst (buildInstanceBuffer
                (fst (addInstance_data 0 0 (InstanceData.mk 0 [])
                        (fst (fst (buildInstanceBuffer untexturedGroup)))))))
    = DeviceWaitIdle :: DestroyBuffer instanceBuff :: rest.
Proof.
  assert (H : instanceDatas untexturedGroup <> []) by discriminate.
  destruct (instance_buffer_goes_stale 0 0 (InstanceData.mk 0 [])
              untexturedGroup) as (_ & _ & Hstale & _ & _ & Hrel).
  split; [exact H|]. split; [exact Hstale|exact (Hrel H)].
Defined.

Lemma prepare_Md_is_a_table_position_example :
  let mapDic := mapDicLoop (aiMaterials twoAssetGroup) [] in
  let m := packMaterial ["wall.dds"; "floor.dds"]%string floorMaterial in
  Z.of_nat (length mapDic) < 2 ^ 32 /\
  nth_error (aiMaterials twoAssetGroup) 2 = Some floorMaterial /\
  nth_error (materials (fst (fst (prepare twoAssetGroup))))
    (length (materials twoAssetGroup) + 2) = Some m /\
  Material.Md m = 1 /\
  nth_error mapDic (Z.to_nat (Material.Md m))
  = Some (aiMaterial.GetTexture floorMaterial) /\
  0 <= Material.Md m < Z.of_nat (length mapDic).
Proof.
  intros mapDic m.
  assert (H1 : Z.of_nat (length mapDic) < 2 ^ 32) by (vm_compute; reflexivity).
  assert (H2 : nth_error (aiMaterials twoAssetGroup) 2 = Some floorMaterial)
    by reflexivity.
  assert (H3 : nth_error (materials (fst (fst (prepare twoAssetGroup))))
                 (length (materials twoAssetGroup) + 2) = Some m)
    by (vm_compute; reflexivity).
  destruct (prepare_Md_is_a_table_position twoAssetGroup 2 m floorMaterial
              H1 H2 H3) as (_ & Hpath & Hlt).
  split; [exact H1|]. split; [exact H2|]. split; [exact H3|].
  split; [reflexivity|]. split; [apply Hpath; discriminate|].
  apply Hlt. discriminate.
Defined.

Lemma prepare_uploads_stride_bytes_example :
  reachable defaultLayout twoAssetGroup /\
  4 * Z.of_nat (length (vertexBuffer twoAssetGroup)) < 2 ^ 32 /\
  4 * Z.of_nat (length (indexBuffer twoAssetGroup)) < 2 ^ 32 /\
  stride defaultLayout * vertexCount twoAssetGroup = 192 /\
  stride defaultLayout * vertexCount twoAssetGroup
  = 4 * Z.of_nat (length (vertexBuffer twoAssetGroup)) /\
  exists out rest,
    snd (fst (prepare twoAssetGroup))
    = out
      ++ bufferRequests (stride defaultLayout * vertexCount twoAssetGroup)
           (4 * indexCount twoAssetGroup)
      ++ rest /\
    Forall isPrint out.
Proof.
  assert (H1 : 4 * Z.of_nat (length (vertexBuffer twoAssetGroup)) < 2 ^ 32)
    by (vm_compute; reflexivity).
  assert (H2 : 4 * Z.of_nat (length (indexBuffer twoAssetGroup)) < 2 ^ 32)
    by (vm_compute; reflexivity).
  destruct (prepare_uploads_stride_bytes defaultLayout twoAssetGroup
              twoAssetGroup_reachable H1 H2) as (Hv & _ & Htrace).
  split; [exact twoAssetGroup_reachable|]. split; [exact H1|].
  split; [exact H2|]. split; [vm_compute; reflexivity|].
  split; [exact Hv|exact Htrace].
Defined.

Lemma prepare_completes_iff_example :
  mapDicLoop (aiMaterials crowdedLoaded) [] <> [] /\
  snd (prepare crowdedLoaded) = OutOfBounds /\
  (snd (prepare crowdedLoaded) = Completed <->
   Z.of_nat (length (materials crowdedLoaded)
             + length (aiMaterials crowdedLoaded)) <= 256).
Proof.
  assert (H : mapDicLoop (aiMaterials crowdedLoaded) [] <> [])
    by (vm_compute; discriminate).
  destruct (prepare_completes_iff crowdedLoaded) as (_ & Hfull).
  destruct (Hfull H) as (Hiff & _).
  split; [exact H|]. split; [vm_compute; reflexivity|exact Hiff].
Defined.

Lemma addModel_parts_address_their_geometry_example :
  reachable defaultLayout (newGroup defaultLayout) /\
  Z.of_nat (length (indexBuffer exampleGroup)) < 2 ^ 32 /\
  sumVertexCount (models exampleGroup) < 2 ^ 32 /\
  map Model.parts (models exampleGroup)
  = [[ModelPart.mk 0 3 0 3 0; ModelPart.mk 3 3 3 6 1]] /\
  slice (3 * 8) 8 (vertexBuffer exampleGroup)
  = [F32.of_Z 5; F32.opp (F32.of_Z 5); F32.of_Z 5;
     F32.zero; F32.opp F32.zero; F32.of_Z 1; F32.zero; F32.zero] /\
  exists model,
    models exampleGroup = models (newGroup defaultLayout) ++ [model] /\
    PartsContiguous (vertexCount (newGroup defaultLayout))
      (indexCount (newGroup defaultLayout)) (Model.parts model) /\
    Forall2
      (PartAddresses defaultLayout
         (wrap32 (Z.of_nat (length (aiMaterials (newGroup defaultLayout)))))
         exampleScene (vertexBuffer exampleGroup) (indexBuffer exampleGroup))
      (Model.parts model) (aiScene.mMeshes exampleScene).
Proof.
  assert (H1 : Z.of_nat (length (indexBuffer exampleGroup)) < 2 ^ 32)
    by (vm_compute; reflexivity).
  assert (H2 : sumVertexCount (models exampleGroup) < 2 ^ 32)
    by (vm_compute; reflexivity).
  split; [apply reach_new|]. split; [exact H1|]. split; [exact H2|].
  split; [vm_compute; reflexivity|]. split; [vm_compute; reflexivity|].
  exact (addModel_parts_address_their_geometry defaultLayout "scene.obj"
           exampleScene (newGroup defaultLayout) exampleGroup 0 []
           (reach_new defaultLayout) exampleGroup_loaded H1 H2).
Defined.

Lemma reachable_parts_are_contiguous_example :
  reachable defaultLayout twoAssetGroup /\
  Z.of_nat (length (indexBuffer twoAssetGroup)) < 2 ^ 32 /\
  sumVertexCount (models twoAssetGroup) < 2 ^ 32 /\
  PartsContiguous 0 0 (allParts (models twoAssetGroup)).
Proof.
  assert (H1 : Z.of_nat (length (indexBuffer twoAssetGroup)) < 2 ^ 32)
    by (vm_compute; reflexivity).
  assert (H2 : sumVertexCount (models twoAssetGroup) < 2 ^ 32)
    by (vm_compute; reflexivity).
  split; [exact twoAssetGroup_reachable|]. split; [exact H1|].
  split; [exact H2|].
  exact (reachable_parts_are_contiguous defaultLayout twoAssetGroup
           twoAssetGroup_reachable H1 H2).
Defined.

Lemma addModel_material_index_resolves_example :
  Z.of_nat (length (aiMaterials exampleGroup)) < 2 ^ 32 /\
  exists model,
    models exampleGroup = models (newGroup defaultLayout) ++ [model] /\
    Forall2
      (MaterialResolves exampleScene (aiMaterials exampleGroup)
         (materials (fst (fst (prepare exampleGroup))))
         (length (materials exampleGroup))
         (mapDicLoop (aiMaterials exampleGroup) []))
      (Model.parts model) (aiScene.mMeshes exampleScene).
Proof.
  assert (H1 : Z.of_nat (length (aiMaterials exampleGroup)) < 2 ^ 32)
    by (vm_compute; reflexivity).
  split; [exact H1|].
  exact (addModel_material_index_resolves "scene.obj" exampleScene
           (newGroup defaultLayout) exampleGroup 0 [] exampleGroup_loaded H1).
Defined.

Lemma addModel_returns_index_of_new_model_example :
  Z.of_nat (length (models exampleGroup)) < 2 ^ 31 /\
  exists model,
    nth_error (models twoAssetGroup) (Z.to_nat 1) = Some model /\
    length (Model.parts model) = length (aiScene.mMeshes secondScene) /\
    length (models twoAssetGroup) = S (length (models exampleGroup)) /\
    forall i m,
      nth_error (models exampleGroup) i = Some m ->
      nth_error (models twoAssetGroup) i = Some m.
Proof.
  assert (H1 : Z.of_nat (length (models exampleGroup)) < 2 ^ 31)
    by (vm_compute; reflexivity).
  split; [exact H1|].
  exact (addModel_returns_index_of_new_model "second.obj" secondScene
           exampleGroup twoAssetGroup 1 [] twoAssetGroup_loaded H1).
Defined.

Lemma addModel_faults_on_malformed_mesh_example :
  at_ (aiScene.mMaterials brokenScene) 5 = None /\
  addModel "broken.obj" (Scene brokenScene) (newGroup defaultLayout) = None.
Proof.
  split; [reflexivity|].
  refine (addModel_faults_on_malformed_mesh "broken.obj" brokenScene
            (newGroup defaultLayout)
            (aiMesh.mk [vec 1 2 3] (Some [vec 0 1 0]) None None None [] 5)
            _ _).
  - left. reflexivity.
  - left. reflexivity.
Defined.

Lemma addModel_box_is_tight_example :
  countersInRange (newGroup defaultLayout) /\
  positionInRange (vec 1 2 3) /\
  exists model,
    models exampleGroup = models (newGroup defaultLayout) ++ [model] /\
    attained aiVector3D.y (scenePositions exampleScene)
      (glm.y (Dimension.min (Model.dim model))) /\
    attained aiVector3D.y (scenePositions exampleScene)
      (glm.y (Dimension.max (Model.dim model))).
Proof.
  split; [exact (newGroup_countersInRange defaultLayout)|].
  split; [exact vec123_inRange|].
  destruct (addModel_box_is_tight "scene.obj" exampleScene
              (newGroup defaultLayout) exampleGroup 0 [] (vec 1 2 3)
              [vec 0 (-1) 0; vec 4 0 (-2); vec 5 5 5; vec 6 5 5; vec 5 6 5]
              exampleGroup_loaded (newGroup_countersInRange defaultLayout)
              eq_refl vec123_inRange)
    as (model & Hm & _ & Hlo & _ & _ & Hhi & _).
  exists model. split; [exact Hm|]. split; [exact Hlo|exact Hhi].
Defined.

Lemma addModel_box_size_example :
  aiScene.mMeshes exampleScene <> [] /\
  exists model,
    models exampleGroup = models (newGroup defaultLayout) ++ [model] /\
    Dimension.size (Model.dim model)
    = Some (glm.sub (Dimension.max (Model.dim model))
              (Dimension.min (Model.dim model))).
Proof.
  assert (H : aiScene.mMeshes exampleScene <> []) by discriminate.
  destruct (addModel_box_size "scene.obj" exampleScene
              (newGroup defaultLayout) exampleGroup 0 [] exampleGroup_loaded)
    as (model & Hm & Hsize & _).
  split; [exact H|]. exists model. split; [exact Hm|exact (Hsize H)].
Defined.

Lemma addModel_one_vertex_box_example :
  countersInRange (newGroup defaultLayout) /\
  scenePositions pointScene = [vec 1 2 3] /\
  positionInRange (vec 1 2 3) /\
  exists model,
    models pointGroup = models (newGroup defaultLayout) ++ [model] /\
    Model.dim model
    = Dimension.mk
        (glm.mkvec3 (F32.of_Z 1) (F32.of_Z 2) (F32.of_Z 3))
        (glm.mkvec3 (F32.of_Z 1) (F32.of_Z 2) (F32.of_Z 3))
        (Some (glm.splat F32.zero)).
Proof.
  split; [exact (newGroup_countersInRange defaultLayout)|].
  split; [reflexivity|]. split; [exact vec123_inRange|].
  exact (addModel_one_vertex_box "point.obj" pointScene
           (newGroup defaultLayout) pointGroup 0 [] (vec 1 2 3)
           pointGroup_loaded (newGroup_countersInRange defaultLayout)
           eq_refl vec123_inRange).
Defined.

Lemma addModel_only_appends_example :
  (forall base count,
      (base + count <= length (indexBuffer exampleGroup))%nat ->
      slice base count (indexBuffer twoAssetGroup)
      = slice base count (indexBuffer exampleGroup)) /\
  instances twoAssetGroup = instances exampleGroup /\
  materials twoAssetGroup = materials exampleGroup.
Proof.
  destruct (addModel_only_appends "second.obj" (Scene secondScene)
              exampleGroup twoAssetGroup 1 [] twoAssetGroup_loaded)
    as (_ & Hi & _ & Hinst & _ & Hmat & _).
  split; [exact Hi|]. split; [exact Hinst|exact Hmat].
Defined.

Lemma stride_is_bytes_pushed_per_vertex_example :
  let vb' :=
    [F32.of_Z 1; F32.opp (F32.of_Z 2); F32.of_Z 3;
     F32.zero; F32.opp (F32.of_Z 1); F32.zero; F32.zero; F32.zero] in
  layoutLoop defaultLayout (vec 1 2 3) (Some (vec 0 1 0)) (Some Zero3D)
    (Some Zero3D) (Some Zero3D) black []
  = Some vb' /\
  4 * Z.of_nat (floatsPerVertex defaultLayout) < 2 ^ 32 /\
  stride defaultLayout = 4 * (Z.of_nat (length vb') - Z.of_nat 0).
Proof.
  intros vb'.
  assert (H1 : layoutLoop defaultLayout (vec 1 2 3) (Some (vec 0 1 0))
                 (Some Zero3D) (Some Zero3D) (Some Zero3D) black []
               = Some vb') by reflexivity.
  assert (H2 : 4 * Z.of_nat (floatsPerVertex defaultLayout) < 2 ^ 32)
    by (vm_compute; reflexivity).
  split; [exact H1|]. split; [exact H2|].
  exact (proj1 (stride_is_bytes_pushed_per_vertex defaultLayout (vec 1 2 3)
                  (Some (vec 0 1 0)) (Some Zero3D) (Some Zero3D)
                  (Some Zero3D) black [] vb' H1 H2)).
Defined.

Lemma compareNoCase_total_preorder_example :
  compareNoCase "Floor.DDS" "WALL.dds" = true /\
  compareNoCase "WALL.dds" "wall.dds" = true /\
  compareNoCase "Floor.DDS" "wall.dds" = true.
Proof.
  destruct (compareNoCase_total_preorder "Floor.DDS" "WALL.dds" "wall.dds")
    as (_ & _ & Htrans).
  assert (H1 : compareNoCase "Floor.DDS" "WALL.dds" = true) by reflexivity.
  assert (H2 : compareNoCase "WALL.dds" "wall.dds" = true) by reflexivity.
  split; [exact H1|]. split; [exact H2|exact (Htrans H1 H2)].
Defined.

Lemma exampleModel_loaded :
  loadFromFile "scene.obj" defaultLayout None (Scene exampleScene)
    vksModel.init
  = Some (exampleModel, true, exampleTrace).
Proof. vm_compute. reflexivity. Defined.

Lemma pointModel_loaded :
  loadFromFile "point.obj" defaultLayout None (Scene pointScene) vksModel.init
  = Some (pointModel, true, pointTrace).
Proof. vm_compute. reflexivity. Defined.

Lemma reloadedModel_loaded :
  loadFromFile "scene.obj" defaultLayout None (Scene exampleScene) pointModel
  = Some (reloadedModel, true, exampleTrace).
Proof. vm_compute. reflexivity. Defined.

Lemma loadFromFile_parts_address_staged_indices_example :
  Z.of_nat (length (aiScene.mMaterials exampleScene)) < 2 ^ 32 /\
  meshesNumVertices (aiScene.mMeshes exampleScene) < 2 ^ 32 /\
  3 * meshesNumTriangles (aiScene.mMeshes exampleScene) < 2 ^ 32 /\
  vksModel.parts exampleModel
  = [ModelPart.mk 0 3 0 3 0; ModelPart.mk 3 3 3 6 1] /\
  PartsContiguous 0 0 (vksModel.parts exampleModel) /\
  Forall2 (PartStaged (sceneTriangleIndices exampleScene))
    (vksModel.parts exampleModel) (aiScene.mMeshes exampleScene).
Proof.
  assert (H1 : Z.of_nat (length (aiScene.mMaterials exampleScene)) < 2 ^ 32)
    by (vm_compute; reflexivity).
  assert (H2 : meshesNumVertices (aiScene.mMeshes exampleScene) < 2 ^ 32)
    by (vm_compute; reflexivity).
  assert (H3 : 3 * meshesNumTriangles (aiScene.mMeshes exampleScene) < 2 ^ 32)
    by (vm_compute; reflexivity).
  destruct (loadFromFile_parts_address_staged_indices "scene.obj"
              defaultLayout None exampleScene vksModel.init exampleModel true
              exampleTrace exampleModel_loaded H1 H2 H3)
    as (_ & _ & _ & Hcont & Hstaged & _).
  split; [exact H1|]. split; [exact H2|]. split; [exact H3|].
  split; [vm_compute; reflexivity|]. split; [exact Hcont|exact Hstaged].
Defined.

Lemma loadFromFile_box_ignores_createInfo_example :
  let doubled :=
    Some (ModelCreateInfo.of_floats (F32.of_Z 2) (F32.of_Z 1) F32.zero) in
  Dimension.max (vksModel.dim pointModel)
  = glm.mkvec3 (F32.of_Z 1) (F32.of_Z 2) (F32.of_Z 3) /\
  exists before vertexData1 vertexData2 indexData,
    loadFromFile "point.obj" defaultLayout doubled (Scene pointScene)
      vksModel.init
    = Some (pointModel, true, before ++ stagedCopy vertexData2 indexData) /\
    pointTrace = before ++ stagedCopy vertexData1 indexData /\
    length vertexData1 = length vertexData2.
Proof.
  intros doubled. split; [vm_compute; reflexivity|].
  exact (proj1 (loadFromFile_box_ignores_createInfo "point.obj" defaultLayout
                  None doubled pointScene vksModel.init pointModel true
                  pointTrace pointModel_loaded)).
Defined.

Lemma loadFromFile_reload_keeps_box_example :
  vksModel.parts reloadedModel = vksModel.parts exampleModel /\
  Dimension.min (vksModel.dim reloadedModel)
  = Dimension.min
      (foldPositions (scenePositions pointScene ++ scenePositions exampleScene)
         Dimension.init) /\
  Dimension.max (vksModel.dim reloadedModel)
  = Dimension.max
      (foldPositions (scenePositions pointScene ++ scenePositions exampleScene)
         Dimension.init).
Proof.
  destruct (loadFromFile_reload_keeps_box "point.obj" "scene.obj"
              defaultLayout defaultLayout None None pointScene exampleScene
              pointModel reloadedModel true true pointTrace exampleTrace
              pointModel_loaded reloadedModel_loaded)
    as (_ & Hmin & Hmax & _).
  split; [vm_compute; reflexivity|]. split; [exact Hmin|exact Hmax].
Defined.

Lemma loadFromFile_Md_is_the_layer_example :
  Z.of_nat (length (mapDicLoop (aiScene.mMaterials exampleScene) [])) < 2 ^ 32 /\
  layerPaths exampleTrace = ["wall.dds"%string] /\
  map vksMaterial.Md (vksModel.materials exampleModel) = [0; 0] /\
  layerPaths exampleTrace
  = firstSeen (diffusePaths (aiScene.mMaterials exampleScene)) /\
  vksModel.texArray exampleModel
  = Some (Texture2DArray.mk
            (Z.of_nat (length (mapDicLoop (aiScene.mMaterials exampleScene) [])))
            1024 1024 11).
Proof.
  assert (H1 : Z.of_nat (length (mapDicLoop (aiScene.mMaterials exampleScene)
                                   [])) < 2 ^ 32)
    by (vm_compute; reflexivity).
  destruct (loadFromFile_Md_is_the_layer "scene.obj" defaultLayout None
              exampleScene vksModel.init exampleModel true exampleTrace
              exampleModel_loaded H1)
    as (Hpaths & _ & _ & _ & _ & Htex).
  split; [exact H1|]. split; [vm_compute; reflexivity|].
  split; [vm_compute; reflexivity|]. split; [exact Hpaths|].
  apply Htex. vm_compute. discriminate.
Defined.

Lemma loadFromFile_agrees_with_addModel_example :
  Z.of_nat (length (aiScene.mMaterials exampleScene)) < 2 ^ 31 /\
  models exampleGroup
  = [Model.mk (vksModel.parts exampleModel) (vksModel.dim exampleModel)] /\
  vertexCount exampleGroup = vksModel.vertexCount exampleModel /\
  indexCount exampleGroup = vksModel.indexCount exampleModel.
Proof.
  assert (H1 : Z.of_nat (length (aiScene.mMaterials exampleScene)) < 2 ^ 31)
    by (vm_compute; reflexivity).
  pose proof (loadFromFile_agrees_with_addModel "scene.obj" defaultLayout
                None exampleScene H1) as H.
  rewrite exampleGroup_loaded, exampleModel_loaded in H.
  destruct H as (_ & _ & Hm & Hv & Hi & _).
  split; [exact H1|]. split; [exact Hm|]. split; [exact Hv|exact Hi].
Defined.
